(** * QEMU Monitor Protocol client (corten_scripts/qmp.py)

    A shallow embedding of [QEMUMonitorProtocol] and [QMPQuery] and of the
    part of their environment the module relies on (Python values, the
    [json] codec, the stream socket), followed by the properties of the
    command/response cycle, the event queue, the handshake and the address
    resolver. *)

From Stdlib Require Import List NArith ZArith String Ascii Bool Lia.
From Stdlib Require Import DecimalFacts DecimalPos DecimalN DecimalZ.
Import ListNotations.

(** ** Python text

    A Python [str] is a sequence of code points.  ASCII literals of the source
    are written with [py]. *)

Definition pystr := list N.

#[local] Open Scope N_scope.

Definition py (s : string) : pystr :=
  map N_of_ascii (list_ascii_of_string s).

Definition chr (a : ascii) : N := N_of_ascii a.

(** JSON text written with ['] in place of the double quote. *)
Definition js (s : string) : pystr :=
  map (fun c => if N.eqb c 39 then 34 else c) (py s).

Fixpoint pystr_eqb (a b : pystr) : bool :=
  match a, b with
  | [], [] => true
  | x :: a', y :: b' => N.eqb x y && pystr_eqb a' b'
  | _, _ => false
  end.

Fixpoint startswith (p s : pystr) : bool :=
  match p, s with
  | [], _ => true
  | x :: p', y :: s' => N.eqb x y && startswith p' s'
  | _ :: _, [] => false
  end.

(** [sub in s] for two strings. *)
Fixpoint contains (sub s : pystr) : bool :=
  startswith sub s ||
  match s with
  | [] => false
  | _ :: s' => contains sub s'
  end.

(** ** Python values

    The values that travel through the module are the ones [json] produces
    and consumes: [None], [bool], [int], [str], [list] and [dict].  A [dict]
    keeps its insertion order, so it is an association list; floating-point
    numbers are not represented. *)

#[local] Unset Elimination Schemes.
Inductive json : Type :=
| JNull
| JBool (b : bool)
| JInt (z : Z)
| JStr (s : pystr)
| JList (l : list json)
| JDict (d : list (pystr * json)).
#[local] Set Elimination Schemes.

Definition dict := list (pystr * json).

Fixpoint has_key (k : pystr) (d : dict) : bool :=
  match d with
  | [] => false
  | (k', _) :: d' => pystr_eqb k' k || has_key k d'
  end.

Fixpoint dict_get (k : pystr) (d : dict) : option json :=
  match d with
  | [] => None
  | (k', v) :: d' => if pystr_eqb k' k then Some v else dict_get k d'
  end.

(** [d[k] = v]: an existing key keeps its position, a new key goes last. *)
Fixpoint dict_set (k : pystr) (v : json) (d : dict) : dict :=
  match d with
  | [] => [(k, v)]
  | (k', v') :: d' =>
      if pystr_eqb k' k then (k', v) :: d' else (k', v') :: dict_set k v d'
  end.

(** [dict(pairs)] *)
Definition dict_of_pairs (ps : list (pystr * json)) : dict :=
  fold_left (fun d kv => dict_set (fst kv) (snd kv) d) ps [].

(** Truth value of an object, as tested by [if x:] and [not x]. *)
Definition truthy (v : json) : bool :=
  match v with
  | JNull => false
  | JBool b => b
  | JInt z => negb (Z.eqb z 0)
  | JStr s => match s with [] => false | _ => true end
  | JList l => match l with [] => false | _ => true end
  | JDict d => match d with [] => false | _ => true end
  end.

(** [k in v] for a string [k]; [None] is the [TypeError] raised when [v] is
    not iterable. *)
Definition py_in (k : pystr) (v : json) : option bool :=
  match v with
  | JDict d => Some (has_key k d)
  | JList l =>
      Some (existsb (fun x => match x with JStr s => pystr_eqb s k | _ => false end) l)
  | JStr s => Some (contains k s)
  | JNull | JBool _ | JInt _ => None
  end.

(** ** json.dumps

    The default encoder: [ensure_ascii], separators [", "] and [": "]. *)

Module Json.

Definition hexdigit (n : N) : N :=
  if N.ltb n 10 then chr "0" + n else chr "a" + (n - 10).

(** ['{0:04x}'.format(n)] for [n < 0x10000] *)
Definition hex4 (n : N) : pystr :=
  [ hexdigit (N.modulo (N.div n 4096) 16);
    hexdigit (N.modulo (N.div n 256) 16);
    hexdigit (N.modulo (N.div n 16) 16);
    hexdigit (N.modulo n 16) ].

Definition backslash_u (n : N) : pystr :=
  chr "\" :: chr "u" :: hex4 n.

(** The replacement of one character by [encode_basestring_ascii]. *)
Definition escape_char (c : N) : pystr :=
  if N.eqb c 34 then [92; 34]
  else if N.eqb c 92 then [92; 92]
  else if N.eqb c 10 then py "\n"
  else if N.eqb c 13 then py "\r"
  else if N.eqb c 9 then py "\t"
  else if N.eqb c 8 then py "\b"
  else if N.eqb c 12 then py "\f"
  else if N.leb 32 c && N.leb c 126 then [c]
  else if N.ltb c 65536 then backslash_u c
  else
    let n := c - 65536 in
    let s1 := N.lor 55296 (N.land (N.shiftr n 10) 1023) in
    let s2 := N.lor 56320 (N.land n 1023) in
    backslash_u s1 ++ backslash_u s2.

Definition escape (s : pystr) : pystr := flat_map escape_char s.

Definition encode_basestring_ascii (s : pystr) : pystr :=
  34 :: escape s ++ [34].

Fixpoint chars_of_uint (d : Decimal.uint) : pystr :=
  match d with
  | Decimal.Nil => []
  | Decimal.D0 d' => 48 :: chars_of_uint d'
  | Decimal.D1 d' => 49 :: chars_of_uint d'
  | Decimal.D2 d' => 50 :: chars_of_uint d'
  | Decimal.D3 d' => 51 :: chars_of_uint d'
  | Decimal.D4 d' => 52 :: chars_of_uint d'
  | Decimal.D5 d' => 53 :: chars_of_uint d'
  | Decimal.D6 d' => 54 :: chars_of_uint d'
  | Decimal.D7 d' => 55 :: chars_of_uint d'
  | Decimal.D8 d' => 56 :: chars_of_uint d'
  | Decimal.D9 d' => 57 :: chars_of_uint d'
  end.

(** [int.__repr__], for integers within the interpreter's digit limit (it
    raises [ValueError] beyond [max_str_digits] digits; see [codec_safe]
    below). *)
Definition repr_int (z : Z) : pystr :=
  match Z.to_int z with
  | Decimal.Pos d => chars_of_uint d
  | Decimal.Neg d => chr "-" :: chars_of_uint d
  end.

Fixpoint dumps (v : json) : pystr :=
  match v with
  | JNull => py "null"
  | JBool true => py "true"
  | JBool false => py "false"
  | JInt z => repr_int z
  | JStr s => encode_basestring_ascii s
  | JList l =>
      91 ::
      match l with
      | [] => []
      | x :: r => dumps x ++ flat_map (fun y => py ", " ++ dumps y) r
      end ++ [93]
  | JDict d =>
      123 ::
      match d with
      | [] => []
      | kx :: r =>
          encode_basestring_ascii (fst kx) ++ py ": " ++ dumps (snd kx) ++
          flat_map (fun ky => py ", " ++ encode_basestring_ascii (fst ky)
                               ++ py ": " ++ dumps (snd ky)) r
      end ++ [125]
  end.

(** ** json.loads

    The default decoder (strict mode).  The result is [None] where
    [json.loads] raises [ValueError].  Numbers with a fraction or an exponent
    and the constants [NaN] and [Infinity] are floating-point values, which
    are not represented: text that holds one is outside the domain of this
    function (it answers [None] there too).  So are the two limits of the
    interpreter, which this function does not have: integers of more than
    [max_str_digits] digits ([ValueError]) and nesting beyond the recursion
    limit ([RecursionError]); see [codec_safe] below. *)

Definition is_ws (c : N) : bool :=
  N.eqb c 32 || N.eqb c 9 || N.eqb c 10 || N.eqb c 13.

Fixpoint skip_ws (s : pystr) : pystr :=
  match s with
  | c :: r => if is_ws c then skip_ws r else s
  | [] => []
  end.

Definition hexval (c : N) : option N :=
  if N.leb 48 c && N.leb c 57 then Some (c - 48)
  else if N.leb 97 c && N.leb c 102 then Some (c - 87)
  else if N.leb 65 c && N.leb c 70 then Some (c - 55)
  else None.

Definition unhex4 (a b c d : N) : option N :=
  match hexval a, hexval b, hexval c, hexval d with
  | Some x, Some y, Some z, Some w => Some (x * 4096 + y * 256 + z * 16 + w)
  | _, _, _, _ => None
  end.

(** The character an escape letter stands for ([BACKSLASH] of the decoder). *)
Definition backslash (e : N) : option N :=
  if N.eqb e 34 then Some 34
  else if N.eqb e 92 then Some 92
  else if N.eqb e 47 then Some 47
  else if N.eqb e 98 then Some 8
  else if N.eqb e 102 then Some 12
  else if N.eqb e 110 then Some 10
  else if N.eqb e 114 then Some 13
  else if N.eqb e 116 then Some 9
  else None.

Definition consres (c : N) (r : option (pystr * pystr)) : option (pystr * pystr) :=
  match r with
  | Some (s, rest) => Some (c :: s, rest)
  | None => None
  end.

(** [scanstring], entered after the opening quote: the text up to the closing
    quote, and what follows it. *)
Fixpoint scanstring (s : pystr) : option (pystr * pystr) :=
  match s with
  | [] => None
  | c :: r =>
      if N.eqb c 34 then Some ([], r)
      else if N.eqb c 92 then
        match r with
        | [] => None
        | e :: r1 =>
            if N.eqb e 117 then
              match r1 with
              | h1 :: h2 :: h3 :: h4 :: r2 =>
                  match unhex4 h1 h2 h3 h4 with
                  | None => None
                  | Some uni =>
                      if N.leb 55296 uni && N.leb uni 56319 then
                        match r2 with
                        | b :: u :: g1 :: g2 :: g3 :: g4 :: r3 =>
                            if N.eqb b 92 && N.eqb u 117 then
                              match unhex4 g1 g2 g3 g4 with
                              | None => None
                              | Some uni2 =>
                                  if N.leb 56320 uni2 && N.leb uni2 57343 then
                                    consres
                                      (65536 + N.lor (N.shiftl (uni - 55296) 10)
                                                     (uni2 - 56320))
                                      (scanstring r3)
                                  else consres uni (scanstring r2)
                              end
                            else consres uni (scanstring r2)
                        | _ => consres uni (scanstring r2)
                        end
                      else consres uni (scanstring r2)
                  end
              | _ => None
              end
            else
              match backslash e with
              | Some ch => consres ch (scanstring r1)
              | None => None
              end
        end
      else if N.ltb c 32 then None
      else consres c (scanstring r)
  end.

Definition digit_of (c : N) : option (Decimal.uint -> Decimal.uint) :=
  if N.eqb c 48 then Some Decimal.D0
  else if N.eqb c 49 then Some Decimal.D1
  else if N.eqb c 50 then Some Decimal.D2
  else if N.eqb c 51 then Some Decimal.D3
  else if N.eqb c 52 then Some Decimal.D4
  else if N.eqb c 53 then Some Decimal.D5
  else if N.eqb c 54 then Some Decimal.D6
  else if N.eqb c 55 then Some Decimal.D7
  else if N.eqb c 56 then Some Decimal.D8
  else if N.eqb c 57 then Some Decimal.D9
  else None.

(** [\d*] *)
Fixpoint scan_digits (s : pystr) : Decimal.uint * pystr :=
  match s with
  | [] => (Decimal.Nil, [])
  | c :: r =>
      match digit_of c with
      | Some D => let (d, rest) := scan_digits r in (D d, rest)
      | None => (Decimal.Nil, s)
      end
  end.

(** [0|[1-9]\d*] *)
Definition scan_uint (s : pystr) : option (Decimal.uint * pystr) :=
  match s with
  | [] => None
  | c :: r =>
      if N.eqb c 48 then Some (Decimal.D0 Decimal.Nil, r)
      else match digit_of c with
           | Some D => let (d, rest) := scan_digits r in Some (D d, rest)
           | None => None
           end
  end.

(** What may follow the integer part of a number that is an [int]. *)
Definition int_end (s : pystr) : bool :=
  match s with
  | [] => true
  | c :: _ => negb (N.eqb c 46 || N.eqb c 101 || N.eqb c 69)
  end.

Definition scan_number (s : pystr) : option (json * pystr) :=
  match s with
  | c :: r =>
      if N.eqb c 45 then
        match scan_uint r with
        | Some (d, rest) =>
            if int_end rest then Some (JInt (Z.of_int (Decimal.Neg d)), rest) else None
        | None => None
        end
      else
        match scan_uint s with
        | Some (d, rest) =>
            if int_end rest then Some (JInt (Z.of_int (Decimal.Pos d)), rest) else None
        | None => None
        end
  | [] => None
  end.

Definition literal (word : pystr) (v : json) (s : pystr) : option (json * pystr) :=
  if startswith word s then Some (v, skipn (List.length word) s) else None.

(** [scan_once], [JSONArray] and [JSONObject]; the fuel bounds the number of
    nested calls and [loads] supplies more than any text needs. *)
Fixpoint scan_once (fuel : nat) (s : pystr) {struct fuel} : option (json * pystr) :=
  match fuel with
  | O => None
  | S f =>
      match s with
      | [] => None
      | c :: r =>
          if N.eqb c 34 then
            match scanstring r with
            | Some (str, rest) => Some (JStr str, rest)
            | None => None
            end
          else if N.eqb c 123 then
            match skip_ws r with
            | c' :: r' =>
                if N.eqb c' 125 then Some (JDict [], r')
                else match JSONObject f (c' :: r') with
                     | Some (ps, rest) => Some (JDict (dict_of_pairs ps), rest)
                     | None => None
                     end
            | [] => None
            end
          else if N.eqb c 91 then
            match skip_ws r with
            | c' :: r' =>
                if N.eqb c' 93 then Some (JList [], r')
                else match JSONArray f (c' :: r') with
                     | Some (vs, rest) => Some (JList vs, rest)
                     | None => None
                     end
            | [] => None
            end
          else if N.eqb c 110 then literal (py "null") JNull s
          else if N.eqb c 116 then literal (py "true") (JBool true) s
          else if N.eqb c 102 then literal (py "false") (JBool false) s
          else scan_number s
      end
  end

with JSONArray (fuel : nat) (s : pystr) {struct fuel} : option (list json * pystr) :=
  match fuel with
  | O => None
  | S f =>
      match scan_once f s with
      | Some (v, r1) =>
          match skip_ws r1 with
          | c :: r2 =>
              if N.eqb c 44 then
                match JSONArray f (skip_ws r2) with
                | Some (vs, rest) => Some (v :: vs, rest)
                | None => None
                end
              else if N.eqb c 93 then Some ([v], r2)
              else None
          | [] => None
          end
      | None => None
      end
  end

with JSONObject (fuel : nat) (s : pystr) {struct fuel}
  : option (list (pystr * json) * pystr) :=
  match fuel with
  | O => None
  | S f =>
      match s with
      | q :: r0 =>
          if N.eqb q 34 then
            match scanstring r0 with
            | Some (k, r1) =>
                match skip_ws r1 with
                | c :: r2 =>
                    if N.eqb c 58 then
                      match scan_once f (skip_ws r2) with
                      | Some (v, r3) =>
                          match skip_ws r3 with
                          | c' :: r4 =>
                              if N.eqb c' 44 then
                                match JSONObject f (skip_ws r4) with
                                | Some (ps, rest) => Some ((k, v) :: ps, rest)
                                | None => None
                                end
                              else if N.eqb c' 125 then Some ([(k, v)], r4)
                              else None
                          | [] => None
                          end
                      | None => None
                      end
                    else None
                | [] => None
                end
            | None => None
            end
          else None
      | [] => None
      end
  end.

Definition loads (s : pystr) : option json :=
  match scan_once (S (List.length s)) (skip_ws s) with
  | Some (v, rest) =>
      match skip_ws rest with
      | [] => Some v
      | _ :: _ => None
      end
  | None => None
  end.

End Json.

(** ** Exceptions, outcomes and the state monad *)

Module Qmp.

Definition EAGAIN : Z := 11.
Definition EPIPE : Z := 32.

(** A [socket.error]: raised by the socket with an errno as first argument,
    or built by the module itself around a caught one ([socket.error(err)]). *)
Inductive sockerr : Type :=
| OSError (errno : Z)
| Wrapped (inner : sockerr).

Inductive exn : Type :=
| QMPConnectError (msg : option pystr)
| QMPCapabilitiesError
| SocketError (err : sockerr)
| ValueError
| TypeError
| KeyError
| IndexError
| PyException (arg : json).

(** The classes derived from [QMPError]. *)
Definition is_QMPError (e : exn) : bool :=
  match e with
  | QMPConnectError _ | QMPCapabilitiesError => true
  | _ => false
  end.

(** A call returns, raises, or never comes back (a blocking read on a peer
    that stays silent). *)
Inductive result (A : Type) : Type :=
| Ok (a : A)
| Raise (e : exn)
| Hang.
Arguments Ok {A} a.
Arguments Raise {A} e.
Arguments Hang {A}.

(** What the peer does on the stream, in order: a line, or a moment at which
    nothing is queued yet.  When the list is used up the peer has either
    closed the connection or stays silent for ever. *)
Inductive item : Type :=
| Line (data : pystr)
| Idle.

Inductive peer_end : Type := Closed | Silent.

Record qmp : Type := mkQmp {
  events : list json;          (* self.__events *)
  rx : list item;              (* input still to come from the peer *)
  rx_end : peer_end;
  blocking : bool;             (* mode set by setblocking *)
  tx : list (option sockerr);  (* outcome of the coming sendall calls *)
  sent : list pystr;           (* messages written so far, oldest first *)
  conn : option sockerr        (* outcome of connect()/accept() on the socket *)
}.

Definition M (A : Type) : Type := qmp -> result A * qmp.

Definition ret {A} (a : A) : M A := fun st => (Ok a, st).

Definition bind {A B} (m : M A) (k : A -> M B) : M B :=
  fun st =>
    match m st with
    | (Ok a, st') => k a st'
    | (Raise e, st') => (Raise e, st')
    | (Hang, st') => (Hang, st')
    end.

Definition raise {A} (e : exn) : M A := fun st => (Raise e, st).

Notation "x <- m ;; k" := (bind m (fun x => k))
  (at level 61, m at next level, right associativity).
Notation "m ;; k" := (bind m (fun _ => k))
  (at level 61, right associativity).

(** [try: m  except socket.error as err: ...]: the caught error is handed to
    the continuation; every other exception goes through. *)
Definition try_socket_error {A} (m : M A) : M (A + sockerr) :=
  fun st =>
    match m st with
    | (Ok a, st') => (Ok (inl a), st')
    | (Raise (SocketError err), st') => (Ok (inr err), st')
    | (Raise e, st') => (Raise e, st')
    | (Hang, st') => (Hang, st')
    end.

Definition lift_opt {A} (o : option A) (e : exn) : M A :=
  match o with
  | Some a => ret a
  | None => raise e
  end.

(** [err[i]] on a caught [socket.error].  The class is [OSError], which has
    no [__getitem__]: subscripting it raises [TypeError], whatever the error
    and the index. *)
Definition err_getitem (err : sockerr) (i : Z) : M Z := raise TypeError.

(** ** The socket *)

Definition set_rx (q : list item) (st : qmp) : qmp :=
  mkQmp (events st) q (rx_end st) (blocking st) (tx st) (sent st) (conn st).

Definition set_events (evs : list json) (st : qmp) : qmp :=
  mkQmp evs (rx st) (rx_end st) (blocking st) (tx st) (sent st) (conn st).

Definition set_blocking (b : bool) (st : qmp) : qmp :=
  mkQmp (events st) (rx st) (rx_end st) b (tx st) (sent st) (conn st).

Definition set_tx (t : list (option sockerr)) (out : list pystr) (st : qmp) : qmp :=
  mkQmp (events st) (rx st) (rx_end st) (blocking st) t out (conn st).

(** One [readline] on the file object that [makefile()] gave: the next
    line; [''] at end of stream; in non-blocking mode [''] as well when
    nothing is queued (the buffered reader gets no data and no error); in
    blocking mode the call waits for the peer.  Errors of the connection
    while reading are not represented. *)
Fixpoint recv_line (blk : bool) (pe : peer_end) (q : list item)
  : result pystr * list item :=
  match q with
  | [] =>
      match pe with
      | Closed => (Ok [], [])
      | Silent => if blk then (Hang, []) else (Ok [], [])
      end
  | Line data :: q' => (Ok data, q')
  | Idle :: q' =>
      if blk then recv_line blk pe q'
      else (Ok [], q')
  end.

Definition readline : M pystr :=
  fun st =>
    let (r, q) := recv_line (blocking st) (rx_end st) (rx st) in (r, set_rx q st).

Definition setblocking (b : bool) : M unit :=
  fun st => (Ok tt, set_blocking b st).

(** [sendall]; the text [json.dumps] produces is ASCII, so [encode()] leaves
    it as it is. *)
Definition sendall (data : pystr) : M unit :=
  fun st =>
    match tx st with
    | [] => (Ok tt, set_tx [] (sent st ++ [data]) st)
    | None :: t => (Ok tt, set_tx t (sent st ++ [data]) st)
    | Some err :: t => (Raise (SocketError err), set_tx t (sent st) st)
    end.

Definition sock_connect : M unit :=
  fun st =>
    match conn st with
    | None => (Ok tt, st)
    | Some err => (Raise (SocketError err), st)
    end.

(** ** QEMUMonitorProtocol *)

Definition get_events_attr : M (list json) := fun st => (Ok (events st), st).

Definition events_append (resp : json) : M unit :=
  fun st => (Ok tt, set_events (events st ++ [resp]) st).

Definition json_loads (data : pystr) : M json :=
  lift_opt (Json.loads data) ValueError.

Definition contains_key (k : pystr) (v : json) : M bool :=
  lift_opt (py_in k v) TypeError.

(** [v[k]] for a string [k] *)
Definition getitem (v : json) (k : pystr) : M json :=
  match v with
  | JDict d => lift_opt (dict_get k d) KeyError
  | _ => raise TypeError
  end.

Definition is_empty (data : pystr) : bool :=
  match data with [] => true | _ :: _ => false end.

(** One turn of the loop of [__json_read], with [again] standing for the
    turns that follow. *)
Definition json_read_turn (only_event : bool) (again : M json) : M json :=
  data <- readline ;;
  if is_empty data then ret JNull
  else
    resp <- json_loads data ;;
    is_event <- contains_key (py "event") resp ;;
    if is_event then
      events_append resp ;;
      if negb only_event then again else ret resp
    else ret resp.

(** [while True]: every turn that goes round again has taken a line off the
    stream, so [json_read] runs the loop with one turn more than the stream
    has items; the turns never run out ([json_read_eq] below). *)
Fixpoint json_read_loop (turns : nat) (only_event : bool) : M json :=
  match turns with
  | O => fun st => (Hang, st)
  | S n => json_read_turn only_event (json_read_loop n only_event)
  end.

Definition json_read (only_event : bool) : M json :=
  fun st => json_read_loop (S (List.length (rx st))) only_event st.

Definition cmd_obj (qmp_cmd : json) : M json :=
  r <- try_socket_error (sendall (Json.dumps qmp_cmd)) ;;
  match r with
  | inr err =>
      code <- err_getitem err 0 ;;
      if Z.eqb code EPIPE then ret JNull
      else raise (SocketError (Wrapped err))
  | inl _ => json_read false
  end.

(** The dict built by [cmd] before it is sent. *)
Definition qmp_cmd_of (name : pystr) (args id : json) : dict :=
  let qmp_cmd := [(py "execute", JStr name)] in
  let qmp_cmd := if truthy args then dict_set (py "arguments") args qmp_cmd else qmp_cmd in
  let qmp_cmd := if truthy id then dict_set (py "id") id qmp_cmd else qmp_cmd in
  qmp_cmd.

Definition cmd (name : pystr) (args id : json) : M json :=
  cmd_obj (JDict (qmp_cmd_of name args id)).

(** [print(greeting)] writes to the standard output, which is not tracked. *)
Definition negotiate_capabilities : M json :=
  greeting <- json_read false ;;
  match greeting with
  | JNull => raise (QMPConnectError None)
  | _ =>
      has_qmp <- contains_key (py "QMP") greeting ;;
      if negb has_qmp then raise (QMPConnectError None)
      else
        resp <- cmd (py "qmp_capabilities") JNull JNull ;;
        has_return <- contains_key (py "return") resp ;;
        if has_return then ret greeting
        else raise QMPCapabilitiesError
  end.

Definition connect (negotiate : bool) : M json :=
  sock_connect ;;
  if negotiate then negotiate_capabilities else ret JNull.

Definition accept : M json :=
  sock_connect ;;
  negotiate_capabilities.

(** [command(cmd, **kwds)] *)
Definition command (name : pystr) (kwds : dict) : M json :=
  ret_ <- cmd name (JDict kwds) JNull ;;
  is_error <- contains_key (py "error") ret_ ;;
  if is_error then
    err <- getitem ret_ (py "error") ;;
    desc <- getitem err (py "desc") ;;
    raise (PyException desc)
  else getitem ret_ (py "return").

(** The non-blocking poll that opens [pull_event] and [get_events].  With
    nothing queued the read ends on [''] and the poll goes on to
    [setblocking(1)].  The handler for [socket.error] subscripts the error
    it caught before it looks at the errno. *)
Definition poll : M unit :=
  setblocking false ;;
  r <- try_socket_error (json_read false) ;;
  match r with
  | inr err =>
      code <- err_getitem err 0 ;;
      if Z.eqb code EAGAIN then ret tt else ret tt
  | inl _ => ret tt
  end ;;
  setblocking true.

Definition pull_event (wait : bool) : M json :=
  poll ;;
  evs <- get_events_attr ;;
  (if negb (truthy (JList evs)) && wait
   then json_read true ;; ret tt
   else ret tt) ;;
  evs <- get_events_attr ;;
  match evs with
  | [] => raise IndexError
  | event :: rest => fun st => (Ok event, set_events rest st)
  end.

Definition get_events (wait : bool) : M (list json) :=
  poll ;;
  evs <- get_events_attr ;;
  (if negb (truthy (JList evs)) && wait
   then
     r <- json_read true ;;
     match r with
     | JNull => raise (QMPConnectError (Some (py "Error while reading from socket")))
     | _ => ret tt
     end
   else ret tt) ;;
  get_events_attr.

Definition clear_events : M unit :=
  fun st => (Ok tt, set_events [] st).

(** ** QMPQuery *)

Inductive address : Type :=
| HostPort (host : pystr) (port : Z)
| Path (path : pystr).

(** [s.split(sep)] for a one-character separator *)
Fixpoint split (sep : N) (s : pystr) : list pystr :=
  match s with
  | [] => [[]]
  | c :: r =>
      if N.eqb c sep then [] :: split sep r
      else match split sep r with
           | seg :: segs => (c :: seg) :: segs
           | [] => [[c]]
           end
  end.

Definition is_space (c : N) : bool :=
  (N.leb 9 c && N.leb c 13) || N.eqb c 32.

Fixpoint lstrip (s : pystr) : pystr :=
  match s with
  | c :: r => if is_space c then lstrip r else s
  | [] => []
  end.

Definition strip (s : pystr) : pystr :=
  rev (lstrip (rev (lstrip s))).

Definition is_digit (c : N) : bool := N.leb 48 c && N.leb c 57.

(** Decimal digits, a single [_] allowed between two of them. *)
Fixpoint digits_value (acc : Z) (s : pystr) : option Z :=
  match s with
  | [] => Some acc
  | c :: r =>
      if is_digit c then digits_value (acc * 10 + Z.of_N (c - 48)) r
      else if N.eqb c 95 then
        match r with
        | c' :: r' =>
            if is_digit c' then digits_value (acc * 10 + Z.of_N (c' - 48)) r'
            else None
        | [] => None
        end
      else None
  end.

Definition unsigned_value (s : pystr) : option Z :=
  match s with
  | c :: _ => if is_digit c then digits_value 0 s else None
  | [] => None
  end.

(** [int(s)] in base ten on ASCII text: optional white space around an
    optional sign and decimal digits; [None] is [ValueError].  Digits and
    white space beyond ASCII, and the interpreter's limit on the number of
    digits, are outside the domain of this function. *)
Definition py_int (s : pystr) : option Z :=
  match strip s with
  | c :: r =>
      if N.eqb c 45 then option_map Z.opp (unsigned_value r)
      else if N.eqb c 43 then unsigned_value r
      else unsigned_value (c :: r)
  | [] => None
  end.

Section Resolver.

(** The built-in [int] applied to a [str]; [None] is its [ValueError]. *)
Variable int : pystr -> option Z.

(** [__get_address]; the [ValueError] of [int] is raised again as it is. *)
Definition get_address (arg : pystr) : result address :=
  let addr := split (chr ":") arg in
  if Nat.eqb (List.length addr) 2 then
    match int (nth 1 addr []) with
    | Some port => Ok (HostPort (nth 0 addr []) port)
    | None => Raise ValueError
    end
  else Ok (Path arg).


End Resolver.

(** [__get_sock]: the family of the socket is chosen by the shape of the
    address, a tuple or not. *)
Inductive family : Type := AF_INET | AF_UNIX.

Definition get_sock (a : address) : family :=
  match a with
  | HostPort _ _ => AF_INET
  | Path _ => AF_UNIX
  end.

(** [is_scm_available], for the socket that [__get_sock] made for [a]. *)
Definition is_scm_available (a : address) : bool :=
  match get_sock a with
  | AF_UNIX => true
  | AF_INET => false
  end.

End Qmp.

(** ** Well-formed values

    The values on which the codec is exact: text made of Unicode scalar
    values (no surrogate code point), dicts without repeated keys. *)

Definition is_scalar (c : N) : bool :=
  N.ltb c 55296 || (N.leb 57344 c && N.ltb c 1114112).

Definition wf_str (s : pystr) : bool := forallb is_scalar s.

Fixpoint unique_keys (d : dict) : bool :=
  match d with
  | [] => true
  | (k, _) :: d' => negb (has_key k d') && unique_keys d'
  end.

Fixpoint wf (v : json) : bool :=
  match v with
  | JNull | JBool _ | JInt _ => true
  | JStr s => wf_str s
  | JList l => forallb wf l
  | JDict d =>
      unique_keys d && forallb (fun kv => wf_str (fst kv) && wf (snd kv)) d
  end.

(** Text that starts with a delimiter of the JSON grammar, or is empty: what
    may follow a value. *)
Definition delimited (rest : pystr) : bool :=
  match rest with
  | [] => true
  | c :: _ => N.eqb c 44 || N.eqb c 93 || N.eqb c 125 || Json.is_ws c
  end.

(** Decimal numerals without a superfluous leading zero. *)
Definition canonical (d : Decimal.uint) : Prop :=
  match d with
  | Decimal.Nil => False
  | Decimal.D0 d' => d' = Decimal.Nil
  | _ => True
  end.

(** The first character of an encoded value selects its decoder. *)
Definition value_start (c : N) : bool :=
  N.eqb c 34 || N.eqb c 123 || N.eqb c 91 || N.eqb c 110 || N.eqb c 116 ||
  N.eqb c 102 || N.eqb c 45 || (N.leb 48 c && N.leb c 57).







(** Number of decoder calls a value costs, at most. *)
Fixpoint size (v : json) : nat :=
  match v with
  | JList l => S (fold_right (fun x n => S (size x + n)%nat) O l)
  | JDict d => S (fold_right (fun kv n => S (size (snd kv) + n)%nat) O d)
  | _ => 1%nat
  end.

(** The decoder reads the encoded value back and stops where it ends. *)
Definition roundtrips (v : json) : Prop :=
  forall fuel rest,
    (size v <= fuel)%nat -> delimited rest = true ->
    Json.scan_once fuel (Json.dumps v ++ rest) = Some (v, rest).

(** What [dumps] writes for the elements of a list after the first, and
    the decoder calls they cost. *)
Definition more_items (r : list json) : pystr :=
  flat_map (fun y => py ", " ++ Json.dumps y) r.

Definition items_size (l : list json) : nat :=
  fold_right (fun x n => S (size x + n)%nat) O l.

(** The same for the members of a dict. *)
Definition more_members (r : dict) : pystr :=
  flat_map (fun ky => py ", " ++ Json.encode_basestring_ascii (fst ky)
                       ++ py ": " ++ Json.dumps (snd ky)) r.

Definition members_size (d : dict) : nat :=
  fold_right (fun kv n => S (size (snd kv) + n)%nat) O d.

(** ** What the peer sends

    Predicates on the lines of the stream, used to state the properties. *)

(** A line that decodes to a dict holding the key ['event']. *)
Definition event_line (l : pystr) : bool :=
  match Json.loads l with
  | Some (JDict o) => has_key (py "event") o
  | _ => false
  end.

(** A line that decodes to a dict (a message of either kind). *)
Definition message_line (l : pystr) : bool :=
  match Json.loads l with
  | Some (JDict _) => true
  | _ => false
  end.

(** What a line decodes to ([None] for a line that does not decode). *)
Definition decode (l : pystr) : json :=
  match Json.loads l with
  | Some v => v
  | None => JNull
  end.

(** The decoded lines of a stretch of input, in order. *)
Fixpoint decoded (pre : list Qmp.item) : list json :=
  match pre with
  | [] => []
  | Qmp.Line l :: r => decode l :: decoded r
  | Qmp.Idle :: r => decoded r
  end.

(** A stretch of input made of event lines only; pauses between them are
    allowed when the socket waits ([blk]). *)
Definition event_burst (blk : bool) (pre : list Qmp.item) : bool :=
  forallb (fun i => match i with Qmp.Line l => event_line l | Qmp.Idle => blk end) pre.

(** Input in which every line is a message. *)
Definition conformant (q : list Qmp.item) : bool :=
  forallb (fun i => match i with Qmp.Line l => message_line l | Qmp.Idle => true end) q.

(** A stretch of time in which the peer sends nothing. *)
Definition quiet (q : list Qmp.item) : bool :=
  forallb (fun i => match i with Qmp.Line _ => false | Qmp.Idle => true end) q.

(** Nothing is queued on the socket at this moment. *)
Definition nothing_pending (st : Qmp.qmp) : bool :=
  match Qmp.rx st with
  | [] => true
  | Qmp.Idle :: _ => true
  | Qmp.Line _ :: _ => false
  end.

(** The next [sendall] goes through. *)
Definition send_ok (st : Qmp.qmp) : bool :=
  match Qmp.tx st with
  | [] => true
  | None :: _ => true
  | Some _ :: _ => false
  end.

(** The session after a command has been written as [msg] and answered: the
    events [pre] that came before the answer are queued, [rest] is still to
    be read. *)
Definition after_exchange (msg : pystr) (pre rest : list Qmp.item) (st : Qmp.qmp)
  : Qmp.qmp :=
  Qmp.set_events (Qmp.events st ++ decoded pre)
    (Qmp.set_rx rest (Qmp.set_tx (tl (Qmp.tx st)) (Qmp.sent st ++ [msg]) st)).

(** The session after a poll that queued the events [more] and left [q]
    unread. *)
Definition polled (more : list json) (q : list Qmp.item) (st : Qmp.qmp) : Qmp.qmp :=
  Qmp.set_blocking true (Qmp.set_events (Qmp.events st ++ more) (Qmp.set_rx q st)).

(** A session as [connect] finds it: no event yet, a blocking socket on
    which every write goes through, and [input] to come from the peer. *)
Definition fresh (input : list Qmp.item) (pe : Qmp.peer_end) : Qmp.qmp :=
  Qmp.mkQmp [] input pe true [] [] None.

(** A caller that pulls [n] events one after the other without waiting. *)
Fixpoint pull_events (n : nat) : Qmp.M (list json) :=
  match n with
  | O => Qmp.ret []
  | S k =>
      Qmp.bind (Qmp.pull_event false) (fun e =>
      Qmp.bind (pull_events k) (fun es => Qmp.ret (e :: es)))
  end.

(** ['event' in v] holds: [v] is what [__json_read] takes for an event. *)
Definition event_shaped (v : json) : Prop := py_in (py "event") v = Some true.

(** [v] is what some line of [input] decodes to. *)
Definition received (input : list Qmp.item) (v : json) : Prop :=
  exists l, In (Qmp.Line l) input /\ Json.loads l = Some v.

(** [st'] comes after [st] by reading only: some of the input has been
    taken, the queue has grown by events decoded from it, and the peer and
    the connection are the same. *)
Definition follows (st st' : Qmp.qmp) : Prop :=
  (exists consumed, Qmp.rx st = consumed ++ Qmp.rx st') /\
  (exists more,
      Qmp.events st' = Qmp.events st ++ more /\
      Forall (fun e => event_shaped e /\ received (Qmp.rx st) e) more) /\
  Qmp.rx_end st' = Qmp.rx_end st /\ Qmp.conn st' = Qmp.conn st.

(** Printable ASCII: no control character, no line break. *)
Definition printable (c : N) : Prop := 32 <= c /\ c <= 126.

(** The calls a user of the class makes on the monitor. *)
Inductive call : Type :=
| Connect (negotiate : bool)
| Accept
| CmdObj (qmp_cmd : json)
| Cmd (name : pystr) (args id : json)
| Command (name : pystr) (kwds : dict)
| PullEvent (wait : bool)
| GetEvents (wait : bool)
| ClearEvents.

(** Whether a call came back, with a value or with an exception. *)
Definition came_back {A : Type} (r : Qmp.result A) : bool :=
  match r with
  | Qmp.Hang => false
  | _ => true
  end.

Definition run (c : call) (st : Qmp.qmp) : bool * Qmp.qmp :=
  match c with
  | Connect negotiate => let (r, st') := Qmp.connect negotiate st in (came_back r, st')
  | Accept => let (r, st') := Qmp.accept st in (came_back r, st')
  | CmdObj qmp_cmd => let (r, st') := Qmp.cmd_obj qmp_cmd st in (came_back r, st')
  | Cmd name args id => let (r, st') := Qmp.cmd name args id st in (came_back r, st')
  | Command name kwds => let (r, st') := Qmp.command name kwds st in (came_back r, st')
  | PullEvent wait => let (r, st') := Qmp.pull_event wait st in (came_back r, st')
  | GetEvents wait => let (r, st') := Qmp.get_events wait st in (came_back r, st')
  | ClearEvents => let (r, st') := Qmp.clear_events st in (came_back r, st')
  end.

(** The calls of a caller that catches every exception, made one after the
    other; a call that does not come back is the last one. *)
Fixpoint session (calls : list call) (st : Qmp.qmp) : Qmp.qmp :=
  match calls with
  | [] => st
  | c :: cs => let (back, st') := run c st in
               if back then session cs st' else st'
  end.

(** What is left to read is the end of [input], and the queue holds only
    events decoded from lines of [input]. *)
Definition queue_from (input : list Qmp.item) (st : Qmp.qmp) : Prop :=
  (exists consumed, input = consumed ++ Qmp.rx st) /\
  Forall (fun e => event_shaped e /\ received input e) (Qmp.events st).

Section JsonInduction.
Variable P : json -> Prop.
Hypothesis HNull : P JNull.
Hypothesis HBool : forall b, P (JBool b).
Hypothesis HInt : forall z, P (JInt z).
Hypothesis HStr : forall s, P (JStr s).
Hypothesis HList : forall l, Forall P l -> P (JList l).
Hypothesis HDict : forall d, Forall (fun kv => P (snd kv)) d -> P (JDict d).

Fixpoint json_ind (v : json) : P v :=
  match v with
  | JNull => HNull
  | JBool b => HBool b
  | JInt z => HInt z
  | JStr s => HStr s
  | JList l =>
      HList l ((fix all (l : list json) : Forall P l :=
                match l with
                | [] => Forall_nil _
                | x :: r => Forall_cons x (json_ind x) (all r)
                end) l)
  | JDict d =>
      HDict d ((fix all (d : dict) : Forall (fun kv => P (snd kv)) d :=
                match d with
                | [] => Forall_nil _
                | kv :: r => Forall_cons kv (json_ind (snd kv)) (all r)
                end) d)
  end.
End JsonInduction.

(** * Properties *)

(** ** Text *)

Lemma pystr_eqb_refl (s : pystr) : pystr_eqb s s = true.
Proof. induction s; simpl; [reflexivity|]. now rewrite N.eqb_refl. Qed.

Lemma pystr_eqb_eq (a b : pystr) : pystr_eqb a b = true <-> a = b.
Proof.
  split.
  - revert b. induction a as [|x a IH]; destruct b as [|y b]; simpl; try discriminate; auto.
    intros H. apply andb_true_iff in H. destruct H as [H1 H2].
    apply N.eqb_eq in H1. f_equal; auto.
  - intros ->. apply pystr_eqb_refl.
Qed.

Lemma pystr_eqb_neq (a b : pystr) : a <> b -> pystr_eqb a b = false.
Proof.
  intros H. destruct (pystr_eqb a b) eqn:E; [|reflexivity].
  apply pystr_eqb_eq in E. contradiction.
Qed.

(** ** The codec: what [dumps] writes, [loads] reads back *)

Example dumps_ex1 :
  Json.dumps (JDict [(py "execute", JStr (py "qmp_capabilities"))])
  = js "{'execute': 'qmp_capabilities'}".
Proof. vm_compute. reflexivity. Qed.

Example loads_ex1 :
  Json.loads (js "{'return': {}, 'n': [1, -20, true, null, 'a\u00e9b']} ")
  = Some (JDict [(py "return", JDict []);
                 (py "n", JList [JInt 1; JInt (-20); JBool true; JNull;
                                 JStr [97%N; 233%N; 98%N]])]).
Proof. vm_compute. reflexivity. Qed.

Module JsonFacts.
Import Json.

Lemma hexval_hexdigit (n : N) : n < 16 -> hexval (hexdigit n) = Some n.
Proof.
  intros H. unfold hexdigit, hexval, chr.
  destruct (N.ltb_spec n 10) as [L|L]; simpl N_of_ascii.
  - replace (N.leb 48 (48 + n)) with true by (symmetry; apply N.leb_le; lia).
    replace (N.leb (48 + n) 57) with true by (symmetry; apply N.leb_le; lia).
    cbn [andb]. f_equal. lia.
  - replace (N.leb (97 + (n - 10)) 57) with false by (symmetry; apply N.leb_gt; lia).
    rewrite andb_false_r.
    replace (N.leb 97 (97 + (n - 10))) with true by (symmetry; apply N.leb_le; lia).
    replace (N.leb (97 + (n - 10)) 102) with true by (symmetry; apply N.leb_le; lia).
    cbn [andb]. f_equal. lia.
Qed.

Lemma unhex4_hex4 (n : N) :
  n < 65536 ->
  match hex4 n with
  | [a; b; c; d] => unhex4 a b c d = Some n
  | _ => False
  end.
Proof.
  intros H. unfold hex4, unhex4.
  assert (H16 : forall m, m mod 16 < 16) by (intros; apply N.mod_lt; lia).
  rewrite !hexval_hexdigit by apply H16.
  f_equal.
  assert (E1 : n / 4096 < 16) by (apply N.Div0.div_lt_upper_bound; lia).
  rewrite (N.mod_small (n / 4096)) by exact E1.
  pose proof (N.div_mod n 16 ltac:(lia)) as D0.
  pose proof (N.div_mod (n / 16) 16 ltac:(lia)) as D1.
  pose proof (N.div_mod (n / 16 / 16) 16 ltac:(lia)) as D2.
  rewrite !N.Div0.div_div in D1, D2.
  change (16 * 16) with 256 in *. 
  rewrite N.Div0.div_div in D2. change (256 * 16) with 4096 in D2.
  assert (E2 : (n / 4096) mod 16 = n / 4096) by (apply N.mod_small; exact E1).
  lia.
Qed.

Lemma lor_high_low (k x : N) : x < 1024 -> N.lor (k * 1024) x = k * 1024 + x.
Proof.
  intros H.
  assert (E : N.land (k * 1024) x = 0).
  { apply N.bits_inj. intros m. rewrite N.land_spec, N.bits_0.
    change 1024 with (2 ^ 10).
    destruct (N.lt_ge_cases m 10) as [L|L].
    - now rewrite N.mul_pow2_bits_low.
    - rewrite <- (N.mod_small x (2 ^ 10)) by exact H.
      rewrite N.mod_pow2_bits_high by exact L. apply andb_false_r. }
  rewrite <- N.lxor_lor by exact E. symmetry. now apply N.add_nocarry_lxor.
Qed.

Lemma surrogates (c : N) :
  65536 <= c -> c < 1114112 ->
  let n := c - 65536 in
  let s1 := N.lor 55296 (N.land (N.shiftr n 10) 1023) in
  let s2 := N.lor 56320 (N.land n 1023) in
  s1 = 55296 + n / 1024 /\ s2 = 56320 + n mod 1024 /\ n / 1024 < 1024 /\
  65536 + N.lor (N.shiftl (s1 - 55296) 10) (s2 - 56320) = c.
Proof.
  intros L U n s1 s2.
  assert (Hn : n < 1048576) by (unfold n; lia).
  assert (Hq : n / 1024 < 1024) by (apply N.Div0.div_lt_upper_bound; lia).
  assert (Hr : n mod 1024 < 1024) by (apply N.mod_lt; lia).
  assert (E1 : s1 = 55296 + n / 1024).
  { unfold s1. change 1023 with (N.ones 10). rewrite N.land_ones, N.shiftr_div_pow2.
    change (2 ^ 10) with 1024. rewrite N.mod_small by exact Hq.
    change 55296 with (54 * 1024). now apply lor_high_low. }
  assert (E2 : s2 = 56320 + n mod 1024).
  { unfold s2. change 1023 with (N.ones 10). rewrite N.land_ones.
    change (2 ^ 10) with 1024. change 56320 with (55 * 1024). now apply lor_high_low. }
  repeat split; auto.
  rewrite E1, E2, N.shiftl_mul_pow2. change (2 ^ 10) with 1024.
  rewrite !(N.add_comm _ (n / 1024)), !(N.add_comm _ (n mod 1024)), !N.add_sub.
  rewrite lor_high_low by exact Hr.
  pose proof (N.div_mod n 1024 ltac:(lia)) as D.
  rewrite (N.mul_comm 1024) in D. rewrite <- D. unfold n. lia.
Qed.

Lemma unhex4_digits (n : N) :
  n < 65536 ->
  unhex4 (hexdigit ((n / 4096) mod 16)) (hexdigit ((n / 256) mod 16))
         (hexdigit ((n / 16) mod 16)) (hexdigit (n mod 16)) = Some n.
Proof. intros H. exact (unhex4_hex4 n H). Qed.

(** The decoder on one [\uXXXX] escape. *)
Lemma scanstring_backslash_u (n : N) (tl : pystr) :
  n < 65536 ->
  scanstring (backslash_u n ++ tl) =
  if N.leb 55296 n && N.leb n 56319 then
    match tl with
    | b :: u :: g1 :: g2 :: g3 :: g4 :: r3 =>
        if N.eqb b 92 && N.eqb u 117 then
          match unhex4 g1 g2 g3 g4 with
          | None => None
          | Some uni2 =>
              if N.leb 56320 uni2 && N.leb uni2 57343 then
                consres (65536 + N.lor (N.shiftl (n - 55296) 10) (uni2 - 56320))
                        (scanstring r3)
              else consres n (scanstring tl)
          end
        else consres n (scanstring tl)
    | _ => consres n (scanstring tl)
    end
  else consres n (scanstring tl).
Proof.
  intros H. pose proof (unhex4_digits n H) as E.
  unfold backslash_u, hex4.
  set (a := hexdigit _) in *. set (b := hexdigit _) in *.
  set (c := hexdigit _) in *. set (d := hexdigit _) in *.
  cbn [app]. change (chr "\") with 92. change (chr "u") with 117.
  cbn [scanstring]. cbn [N.eqb Pos.eqb].
  rewrite E. reflexivity.
Qed.

Lemma scanstring_plain (c : N) (tl : pystr) :
  N.eqb c 34 = false -> N.eqb c 92 = false -> N.ltb c 32 = false ->
  scanstring (c :: tl) = consres c (scanstring tl).
Proof. intros H1 H2 H3. cbn [scanstring]. now rewrite H1, H2, H3. Qed.

(** The decoder undoes the replacement of one character. *)
Lemma scanstring_escape_char (c : N) (tl : pystr) :
  is_scalar c = true ->
  scanstring (escape_char c ++ tl) = consres c (scanstring tl).
Proof.
  intros W. unfold escape_char.
  destruct (N.eqb_spec c 34) as [->|N34]; [reflexivity|].
  destruct (N.eqb_spec c 92) as [->|N92]; [reflexivity|].
  destruct (N.eqb_spec c 10) as [->|N10]; [reflexivity|].
  destruct (N.eqb_spec c 13) as [->|N13]; [reflexivity|].
  destruct (N.eqb_spec c 9) as [->|N9]; [reflexivity|].
  destruct (N.eqb_spec c 8) as [->|N8]; [reflexivity|].
  destruct (N.eqb_spec c 12) as [->|N12]; [reflexivity|].
  destruct (N.leb_spec 32 c) as [L32|L32]; cbn [andb].
  - destruct (N.leb_spec c 126) as [L126|L126].
    + cbn [app]. apply scanstring_plain.
      * now apply N.eqb_neq.
      * now apply N.eqb_neq.
      * apply N.ltb_ge. exact L32.
    + unfold is_scalar in W.
      destruct (N.ltb_spec c 65536) as [B|B].
      * rewrite scanstring_backslash_u by exact B.
        replace (N.leb 55296 c && N.leb c 56319) with false; [reflexivity|].
        symmetry. apply andb_false_iff.
        destruct (N.ltb_spec c 55296) as [S|S].
        -- left. apply N.leb_gt. exact S.
        -- right. apply N.leb_gt. cbn [orb] in W. apply andb_true_iff in W.
           destruct W as [W _]. apply N.leb_le in W. lia.
      * assert (U : c < 1114112).
        { destruct (N.ltb_spec c 55296) as [S|S]; [lia|]. cbn [orb] in W.
          apply andb_true_iff in W. destruct W as [_ W]. now apply N.ltb_lt in W. }
        destruct (surrogates c B U) as (E1 & E2 & Hq & E).
        cbv zeta. set (n := c - 65536) in *.
        set (s1 := N.lor 55296 _) in *. set (s2 := N.lor 56320 _) in *.
        assert (Hr : n mod 1024 < 1024) by (apply N.mod_lt; lia).
        set (q := n / 1024) in *. set (r := n mod 1024) in *.
        clearbody s1 s2 q r n.
        rewrite <- app_assoc.
        rewrite scanstring_backslash_u by lia.
        replace (N.leb 55296 s1 && N.leb s1 56319) with true
          by (symmetry; apply andb_true_iff; split; apply N.leb_le; lia).
        pose proof (unhex4_digits s2 ltac:(lia)) as X.
        unfold backslash_u at 1, hex4 at 1. cbn [app].
        change (chr "\") with 92. change (chr "u") with 117.
        cbn [N.eqb Pos.eqb andb]. rewrite X.
        replace (N.leb 56320 s2 && N.leb s2 57343) with true
          by (symmetry; apply andb_true_iff; split; apply N.leb_le; lia).
        now rewrite E.
  - replace (N.ltb c 65536) with true by (symmetry; apply N.ltb_lt; lia).
    rewrite scanstring_backslash_u by lia.
    replace (N.leb 55296 c && N.leb c 56319) with false; [reflexivity|].
    symmetry. apply andb_false_iff. left. apply N.leb_gt. lia.
Qed.

Lemma scanstring_escape (s rest : pystr) :
  wf_str s = true ->
  scanstring (escape s ++ 34 :: rest) = Some (s, rest).
Proof.
  unfold wf_str, escape. induction s as [|c s IH]; intros W.
  - reflexivity.
  - cbn [forallb] in W. apply andb_true_iff in W. destruct W as [Wc Ws].
    cbn [flat_map]. rewrite <- app_assoc.
    rewrite scanstring_escape_char by exact Wc.
    now rewrite IH.
Qed.

Lemma delimited_not_digit (c : N) (r : pystr) :
  delimited (c :: r) = true -> digit_of c = None.
Proof.
  unfold delimited, is_ws. intros H.
  repeat (apply orb_true_iff in H; destruct H as [H|H]);
    apply N.eqb_eq in H; subst; reflexivity.
Qed.

Lemma delimited_int_end (rest : pystr) :
  delimited rest = true -> int_end rest = true.
Proof.
  destruct rest as [|c r]; [reflexivity|].
  unfold delimited, is_ws. intros H.
  repeat (apply orb_true_iff in H; destruct H as [H|H]);
    apply N.eqb_eq in H; subst; reflexivity.
Qed.

Lemma scan_digits_chars (d : Decimal.uint) (rest : pystr) :
  delimited rest = true ->
  scan_digits (chars_of_uint d ++ rest) = (d, rest).
Proof.
  intros H. induction d; cbn [chars_of_uint app scan_digits];
    try (change (digit_of 48) with (Some Decimal.D0));
    try (rewrite IHd; reflexivity).
  - destruct rest as [|c r]; [reflexivity|].
    cbn [scan_digits]. now rewrite (delimited_not_digit c r H).
Qed.

Lemma canonical_to_uint (p : positive) : canonical (Pos.to_uint p).
Proof.
  pose proof (DecimalPos.Unsigned.to_of (Pos.to_uint p)) as E.
  rewrite DecimalPos.Unsigned.of_to in E. cbn [N.to_uint] in E.
  pose proof (DecimalPos.Unsigned.to_uint_nonzero p) as NZ.
  unfold Decimal.unorm in E.
  destruct (Decimal.nzhead (Pos.to_uint p)) eqn:Hn;
    try (rewrite E; exact I).
  - congruence.
  - exfalso. exact (nzhead_nonzero _ _ Hn).
Qed.

Lemma scan_uint_chars (d : Decimal.uint) (rest : pystr) :
  canonical d -> delimited rest = true ->
  scan_uint (chars_of_uint d ++ rest) = Some (d, rest).
Proof.
  intros C H.
  destruct d; cbn [canonical] in C; try contradiction; subst;
    cbn [chars_of_uint app]; unfold scan_uint; cbn [N.eqb Pos.eqb digit_of];
    try reflexivity; now rewrite scan_digits_chars.
Qed.

Lemma head_of_canonical (d : Decimal.uint) (rest : pystr) :
  canonical d ->
  exists c r, chars_of_uint d ++ rest = c :: r /\ N.eqb c 45 = false.
Proof.
  intros C. destruct d; cbn [canonical] in C; try contradiction;
    cbn [chars_of_uint app]; eexists; eexists; split; reflexivity.
Qed.

Lemma scan_number_repr (z : Z) (rest : pystr) :
  delimited rest = true ->
  scan_number (repr_int z ++ rest) = Some (JInt z, rest).
Proof.
  intros H. pose proof (delimited_int_end rest H) as IE.
  pose proof (DecimalZ.of_to z) as OT.
  unfold repr_int. destruct z as [|p|p]; cbn [Z.to_int] in *.
  - cbn. now rewrite IE.
  - pose proof (canonical_to_uint p) as C.
    destruct (head_of_canonical (Pos.to_uint p) rest C) as (c & r & E & N45).
    unfold scan_number. rewrite E, N45, <- E.
    rewrite scan_uint_chars by assumption. now rewrite IE, OT.
  - pose proof (canonical_to_uint p) as C.
    change (chr "-") with 45. cbn [app]. unfold scan_number.
    cbn [N.eqb Pos.eqb].
    rewrite scan_uint_chars by assumption. now rewrite IE, OT.
Qed.

Lemma skip_ws_head (c : N) (r : pystr) : is_ws c = false -> skip_ws (c :: r) = c :: r.
Proof. intros H. cbn [skip_ws]. now rewrite H. Qed.

Lemma skip_ws_space (s : pystr) : skip_ws (32 :: s) = skip_ws s.
Proof. reflexivity. Qed.

Lemma repr_int_head (z : Z) :
  exists c r, repr_int z = c :: r /\
              (N.eqb c 45 || (N.leb 48 c && N.leb c 57)) = true.
Proof.
  unfold repr_int. destruct z as [|p|p]; cbn [Z.to_int].
  - eexists; eexists; split; reflexivity.
  - pose proof (canonical_to_uint p) as C.
    destruct (Pos.to_uint p); cbn [canonical] in C; try contradiction;
      eexists; eexists; split; reflexivity.
  - eexists; eexists; split; reflexivity.
Qed.

Lemma dumps_head (v : json) :
  exists c r, dumps v = c :: r /\ value_start c = true.
Proof.
  destruct v as [|[|]|z|s|l|d]; try (eexists; eexists; split; reflexivity).
  destruct (repr_int_head z) as (c & r & E & H).
  exists c, r. split; [exact E|]. unfold value_start.
  rewrite <- !orb_assoc. rewrite !orb_assoc in *.
  apply orb_true_iff in H. destruct H as [H|H].
  - rewrite H. now rewrite !orb_true_r.
  - rewrite H. now rewrite !orb_true_r.
Qed.

Lemma value_start_not_ws (c : N) : value_start c = true -> is_ws c = false.
Proof.
  unfold value_start, is_ws. intros H.
  repeat (apply orb_true_iff in H; destruct H as [H|H]);
    try (apply N.eqb_eq in H; subst; reflexivity).
  apply andb_true_iff in H. destruct H as [H1 H2].
  apply N.leb_le in H1. apply N.leb_le in H2.
  repeat (apply orb_false_iff; split); apply N.eqb_neq; lia.
Qed.

Lemma value_start_not_close (c : N) : value_start c = true -> N.eqb c 93 = false.
Proof.
  unfold value_start. intros H.
  repeat (apply orb_true_iff in H; destruct H as [H|H]);
    try (apply N.eqb_eq in H; subst; reflexivity).
  apply andb_true_iff in H. destruct H as [H1 H2].
  apply N.leb_le in H1. apply N.leb_le in H2. apply N.eqb_neq; lia.
Qed.

Lemma skip_ws_dumps (v : json) (rest : pystr) :
  skip_ws (dumps v ++ rest) = dumps v ++ rest.
Proof.
  destruct (dumps_head v) as (c & r & E & H). rewrite E. cbn [app].
  apply skip_ws_head. now apply value_start_not_ws.
Qed.

Lemma scan_once_number (f : nat) (c : N) (r : pystr) :
  (N.eqb c 45 || (N.leb 48 c && N.leb c 57)) = true ->
  scan_once (S f) (c :: r) = scan_number (c :: r).
Proof.
  intros H. cbn [scan_once].
  assert (E : N.eqb c 34 = false /\ N.eqb c 123 = false /\ N.eqb c 91 = false /\
              N.eqb c 110 = false /\ N.eqb c 116 = false /\ N.eqb c 102 = false).
  { apply orb_true_iff in H. destruct H as [H|H].
    - apply N.eqb_eq in H. subst. repeat split.
    - apply andb_true_iff in H. destruct H as [H1 H2].
      apply N.leb_le in H1. apply N.leb_le in H2.
      repeat split; apply N.eqb_neq; lia. }
  destruct E as (E1 & E2 & E3 & E4 & E5 & E6).
  now rewrite E1, E2, E3, E4, E5, E6.
Qed.

(** [dict(pairs)] gives the pairs back when no key is repeated. *)
Lemma has_key_app (k : pystr) (a b : dict) :
  has_key k (a ++ b) = has_key k a || has_key k b.
Proof.
  induction a as [|[k' v] a IH]; cbn [app has_key]; [reflexivity|].
  now rewrite IH, orb_assoc.
Qed.

Lemma dict_set_new (k : pystr) (v : json) (d : dict) :
  has_key k d = false -> dict_set k v d = d ++ [(k, v)].
Proof.
  induction d as [|[k' v'] d IH]; cbn [has_key dict_set app]; [reflexivity|].
  intros H. apply orb_false_iff in H. destruct H as [H1 H2].
  rewrite H1. now rewrite IH.
Qed.

Lemma pystr_eqb_sym (a b : pystr) : pystr_eqb a b = pystr_eqb b a.
Proof.
  revert b. induction a as [|x a IH]; destruct b as [|y b]; cbn [pystr_eqb]; auto.
  now rewrite IH, N.eqb_sym.
Qed.

Lemma dict_of_pairs_unique (d : dict) :
  unique_keys d = true -> dict_of_pairs d = d.
Proof.
  unfold dict_of_pairs.
  assert (G : forall ps acc,
             unique_keys ps = true ->
             (forall k, has_key k acc = true -> has_key k ps = false) ->
             fold_left (fun d kv => dict_set (fst kv) (snd kv) d) ps acc = acc ++ ps).
  { induction ps as [|[k v] ps IH]; intros acc U D; cbn [fold_left].
    - now rewrite List.app_nil_r.
    - cbn [unique_keys] in U. apply andb_true_iff in U. destruct U as [U1 U2].
      apply negb_true_iff in U1. cbn [fst snd].
      assert (Hk : has_key k acc = false).
      { destruct (has_key k acc) eqn:E; [|reflexivity].
        specialize (D k E). cbn [has_key] in D. now rewrite pystr_eqb_refl in D. }
      rewrite dict_set_new by exact Hk.
      rewrite IH; [now rewrite <- List.app_assoc|exact U2|].
      intros k' Hk'. rewrite has_key_app in Hk'. apply orb_true_iff in Hk'.
      destruct Hk' as [Hk'|Hk'].
      + specialize (D k' Hk'). cbn [has_key] in D. now apply orb_false_iff in D.
      + cbn [has_key] in Hk'. rewrite orb_false_r in Hk'.
        apply pystr_eqb_eq in Hk'. now subst. }
  intros U. now apply (G d []).
Qed.

Lemma delimited_more_items (r : list json) (rest : pystr) :
  delimited (more_items r ++ 93 :: rest) = true.
Proof. destruct r; reflexivity. Qed.

Lemma JSONArray_dumps (l : list json) :
  Forall roundtrips l ->
  forall x fuel rest,
    roundtrips x ->
    (items_size (x :: l) <= fuel)%nat ->
    JSONArray fuel (dumps x ++ more_items l ++ 93 :: rest) = Some (x :: l, rest).
Proof.
  induction 1 as [|y l Hy Hl IH]; intros x fuel rest Hx F.
  - cbn [items_size fold_right] in F. destruct fuel as [|f]; [lia|].
    cbn [JSONArray more_items flat_map app].
    rewrite (Hx f (93 :: rest)) by (try reflexivity; lia).
    reflexivity.
  - cbn [items_size fold_right] in F. destruct fuel as [|f]; [lia|].
    cbn [JSONArray].
    rewrite (Hx f _) by (try apply delimited_more_items; lia).
    cbn [more_items flat_map]. change (py ", ") with [44; 32].
    cbn [app skip_ws is_ws N.eqb Pos.eqb orb]. 
    rewrite <- !List.app_assoc.
    rewrite skip_ws_dumps.
    change (flat_map _ l) with (more_items l).
    rewrite (IH y f rest Hy) by (cbn [items_size fold_right]; lia).
    reflexivity.
Qed.

Lemma delimited_more_members (r : dict) (rest : pystr) :
  delimited (more_members r ++ 125 :: rest) = true.
Proof. destruct r; reflexivity. Qed.

Lemma JSONObject_dumps (d : dict) :
  Forall (fun kv => roundtrips (snd kv)) d ->
  forallb (fun kv => wf_str (fst kv)) d = true ->
  forall k x fuel rest,
    roundtrips x -> wf_str k = true ->
    (members_size ((k, x) :: d) <= fuel)%nat ->
    JSONObject fuel
      (encode_basestring_ascii k ++ py ": " ++ dumps x ++ more_members d ++ 125 :: rest)
    = Some ((k, x) :: d, rest).
Proof.
  induction 1 as [|[k' y] d Hy Hd IH]; intros W k x fuel rest Hx Wk F.
  - cbn [members_size fold_right snd] in F. destruct fuel as [|f]; [lia|].
    unfold encode_basestring_ascii. change (py ": ") with [58; 32].
    cbn [more_members flat_map app JSONObject N.eqb Pos.eqb].
    rewrite <- List.app_assoc. cbn [app].
    rewrite scanstring_escape by exact Wk.
    cbn [skip_ws is_ws N.eqb Pos.eqb orb]. rewrite skip_ws_dumps.
    rewrite (Hx f (125 :: rest)) by (try reflexivity; lia).
    reflexivity.
  - cbn [members_size fold_right snd] in F. destruct fuel as [|f]; [lia|].
    cbn [forallb fst] in W. apply andb_true_iff in W. destruct W as [Wk' W].
    cbn [snd] in Hy.
    unfold encode_basestring_ascii at 1. change (py ": ") with [58; 32].
    cbn [app JSONObject N.eqb Pos.eqb].
    rewrite <- List.app_assoc. cbn [app].
    rewrite scanstring_escape by exact Wk.
    cbn [skip_ws is_ws N.eqb Pos.eqb orb]. rewrite skip_ws_dumps.
    rewrite (Hx f _) by (try apply delimited_more_members; lia).
    cbn [more_members flat_map fst snd]. change (py ", ") with [44; 32].
    cbn [app skip_ws is_ws N.eqb Pos.eqb orb].
    rewrite <- !List.app_assoc.
    change (flat_map _ d) with (more_members d).
    change (34 :: escape k' ++ [34]) with (encode_basestring_ascii k').
    change (skip_ws (encode_basestring_ascii k' ++ ?t)) with (encode_basestring_ascii k' ++ t).
    change [58; 32] with (py ": ").
    rewrite (IH W k' y f rest Hy Wk') by (cbn [members_size fold_right snd]; lia).
    reflexivity.
Qed.

Lemma forallb_Forall_imp {A} (P : A -> Prop) (f : A -> bool) (l : list A) :
  Forall (fun x => f x = true -> P x) l -> forallb f l = true -> Forall P l.
Proof.
  induction 1 as [|x l Hx Hl IH]; intros W; [constructor|].
  cbn [forallb] in W. apply andb_true_iff in W. destruct W as [W1 W2].
  constructor; auto.
Qed.

Lemma scan_once_array (f : nat) (v : json) (t : pystr) :
  scan_once (S f) (91 :: dumps v ++ t) =
  match JSONArray f (dumps v ++ t) with
  | Some (vs, rest) => Some (JList vs, rest)
  | None => None
  end.
Proof.
  destruct (dumps_head v) as (c & r & E & H). rewrite E. cbn [app].
  cbn [scan_once N.eqb Pos.eqb].
  rewrite skip_ws_head by now apply value_start_not_ws.
  now rewrite (value_start_not_close c H).
Qed.

Lemma scan_once_object (f : nat) (k t : pystr) :
  scan_once (S f) (123 :: encode_basestring_ascii k ++ t) =
  match JSONObject f (encode_basestring_ascii k ++ t) with
  | Some (ps, rest) => Some (JDict (dict_of_pairs ps), rest)
  | None => None
  end.
Proof. reflexivity. Qed.

(** The decoder reads an encoded value back, whatever delimiter follows. *)
Lemma scan_once_dumps (v : json) : wf v = true -> roundtrips v.
Proof.
  induction v as [|b|z|s|l IH|d IH] using json_ind; intros W fuel rest F D;
    (destruct fuel as [|f]; [cbn [size] in F; lia|]).
  - reflexivity.
  - destruct b; reflexivity.
  - cbn [dumps]. destruct (repr_int_head z) as (c & r & E & H).
    pose proof (scan_number_repr z rest D) as S. rewrite E in *. cbn [app] in *.
    now rewrite scan_once_number.
  - cbn [dumps wf] in *. unfold encode_basestring_ascii.
    cbn [app scan_once N.eqb Pos.eqb]. rewrite <- List.app_assoc. cbn [app].
    now rewrite scanstring_escape.
  - cbn [wf] in W. pose proof (forallb_Forall_imp _ _ _ IH W) as R.
    destruct l as [|x l]; [reflexivity|].
    inversion R as [|? ? Rx Rl]; subst.
    cbn [size] in F. cbn [dumps app].
    rewrite <- !List.app_assoc. rewrite scan_once_array.
    change (flat_map _ l) with (more_items l). cbn [app].
    rewrite (JSONArray_dumps l Rl x f rest Rx) by (unfold items_size; lia).
    reflexivity.
  - cbn [wf] in W. apply andb_true_iff in W. destruct W as [U W].
    destruct d as [|[k x] d]; [reflexivity|].
    assert (Wk : forallb (fun kv => wf_str (fst kv)) ((k, x) :: d) = true).
    { clear - W. induction ((k, x) :: d) as [|a l IHl]; [reflexivity|].
      cbn [forallb] in *. apply andb_true_iff in W. destruct W as [W1 W2].
      apply andb_true_iff in W1. destruct W1 as [W1 _]. now rewrite W1, IHl. }
    assert (R : Forall (fun kv => roundtrips (snd kv)) ((k, x) :: d)).
    { clear - W IH. induction IH as [|a l Ha Hl IHl]; [constructor|].
      cbn [forallb] in W. apply andb_true_iff in W. destruct W as [W1 W2].
      apply andb_true_iff in W1. destruct W1 as [_ W1]. constructor; auto. }
    inversion R as [|? ? Rx Rd]; subst. cbn [snd] in Rx.
    cbn [forallb fst] in Wk. apply andb_true_iff in Wk. destruct Wk as [Wk Wd].
    cbn [size] in F.
    cbn [dumps fst snd].
    change (flat_map _ d) with (more_members d).
    cbn [app]. rewrite <- !List.app_assoc. rewrite scan_once_object. cbn [app].
    rewrite (JSONObject_dumps d Rd Wd k x f rest Rx Wk) by (unfold members_size; lia).
    now rewrite dict_of_pairs_unique.
Qed.

Lemma size_le_length (v : json) : (size v <= List.length (dumps v))%nat.
Proof.
  induction v as [|b|z|s|l IH|d IH] using json_ind.
  - cbn. lia.
  - destruct b; cbn; lia.
  - destruct (dumps_head (JInt z)) as (c & r & E & _). rewrite E. cbn. lia.
  - cbn. lia.
  - cbn [size dumps]. change (fold_right _ O l) with (items_size l).
    assert (M : forall r, Forall (fun x => (size x <= List.length (dumps x))%nat) r ->
                          (items_size r <= List.length (more_items r))%nat).
    { induction 1 as [|y r Hy Hr IHr]; [cbn; lia|].
      cbn [items_size fold_right more_items flat_map].
      change (fold_right _ O r) with (items_size r).
      change (flat_map _ r) with (more_items r).
      rewrite !List.length_app. cbn [py List.length map list_ascii_of_string]. lia. }
    destruct l as [|x l]; [cbn; lia|].
    inversion IH as [|? ? Hx Hl]; subst. specialize (M l Hl).
    cbn [items_size fold_right]. change (fold_right _ O l) with (items_size l).
    change (flat_map _ l) with (more_items l).
    cbn [List.length]. rewrite !List.length_app. cbn [List.length]. lia.
  - cbn [size dumps]. change (fold_right _ O d) with (members_size d).
    assert (M : forall r, Forall (fun kv => (size (snd kv) <= List.length (dumps (snd kv)))%nat) r ->
                          (members_size r <= List.length (more_members r))%nat).
    { induction 1 as [|y r Hy Hr IHr]; [cbn; lia|].
      cbn [members_size fold_right more_members flat_map].
      change (fold_right _ O r) with (members_size r).
      change (flat_map _ r) with (more_members r).
      rewrite !List.length_app. cbn [py List.length map list_ascii_of_string]. lia. }
    destruct d as [|x d]; [cbn; lia|].
    inversion IH as [|? ? Hx Hl]; subst. specialize (M d Hl).
    cbn [members_size fold_right]. change (fold_right _ O d) with (members_size d).
    change (flat_map _ d) with (more_members d).
    cbn [List.length]. rewrite !List.length_app. cbn [List.length]. lia.
Qed.

(** [json.loads(json.dumps(v)) == v] *)
Lemma loads_dumps (v : json) : wf v = true -> loads (dumps v) = Some v.
Proof.
  intros W. unfold loads.
  rewrite <- (List.app_nil_r (dumps v)) at 2. rewrite skip_ws_dumps.
  rewrite (scan_once_dumps v W) by (try reflexivity; pose proof (size_le_length v); lia).
  reflexivity.
Qed.

(** The same for a line: the encoded value followed by white space. *)
Lemma loads_dumps_line (v : json) (ws : pystr) :
  wf v = true -> forallb is_ws ws = true -> loads (dumps v ++ ws) = Some v.
Proof.
  intros W S. unfold loads. rewrite skip_ws_dumps.
  assert (D : delimited ws = true).
  { destruct ws as [|c r]; [reflexivity|]. cbn [forallb] in S.
    apply andb_true_iff in S. destruct S as [S _]. unfold delimited.
    rewrite S. now rewrite !orb_true_r. }
  rewrite (scan_once_dumps v W)
    by (try exact D; pose proof (size_le_length v); rewrite List.length_app; lia).
  assert (E : skip_ws ws = []).
  { clear D. induction ws as [|c r IH]; [reflexivity|]. cbn [forallb] in S.
    apply andb_true_iff in S. destruct S as [S1 S2]. cbn [skip_ws].
    rewrite S1. auto. }
  now rewrite E.
Qed.

Lemma loads_empty : loads [] = None.
Proof. reflexivity. Qed.

End JsonFacts.

(** ** The read loop *)

Module QmpFacts.
Import Qmp.

Lemma recv_line_shorter (blk : bool) (pe : peer_end) (q q' : list item) (d : pystr) :
  recv_line blk pe q = (Ok d, q') -> is_empty d = false ->
  (List.length q' < List.length q)%nat.
Proof.
  revert q'. induction q as [|[l|] q IH]; intros q' E D; cbn [recv_line] in E.
  - destruct pe; [|destruct blk]; inversion E; subst; discriminate.
  - inversion E; subst. cbn. lia.
  - destruct blk; [|inversion E; subst; discriminate].
    specialize (IH q' E D). cbn. lia.
Qed.

Lemma json_read_loop_S (n : nat) (only_event : bool) (st : qmp) :
  json_read_loop (S n) only_event st
  = json_read_turn only_event (json_read_loop n only_event) st.
Proof. reflexivity. Qed.

(** The loop never uses up its turns: any larger number gives the same run. *)
Lemma json_read_loop_enough (only_event : bool) (n m : nat) (st : qmp) :
  (List.length (rx st) < n)%nat -> (List.length (rx st) < m)%nat ->
  json_read_loop n only_event st = json_read_loop m only_event st.
Proof.
  revert m st. induction n as [|n IH]; intros m st Hn Hm; [lia|].
  destruct m as [|m]; [lia|].
  rewrite !json_read_loop_S. unfold json_read_turn, bind, readline.
  destruct (recv_line (blocking st) (rx_end st) (rx st)) as [r q] eqn:E.
  destruct r as [data| |]; try reflexivity.
  destruct (is_empty data) eqn:D; [reflexivity|].
  pose proof (recv_line_shorter _ _ _ _ _ E D) as L.
  unfold json_loads, lift_opt. destruct (Json.loads data) as [resp|]; [|reflexivity].
  cbn [ret raise]. unfold contains_key, lift_opt.
  destruct (py_in (py "event") resp) as [[|]|]; try reflexivity.
  cbn [ret events_append]. destruct only_event; [reflexivity|]. cbn [negb].
  apply IH; cbn [rx set_events set_rx]; lia.
Qed.

(** The equation of the loop of [__json_read]. *)
Lemma json_read_eq (only_event : bool) (st : qmp) :
  json_read only_event st = json_read_turn only_event (json_read only_event) st.
Proof.
  unfold json_read at 1. rewrite json_read_loop_S.
  unfold json_read_turn, bind, readline.
  destruct (recv_line (blocking st) (rx_end st) (rx st)) as [r q] eqn:E.
  destruct r as [data| |]; try reflexivity.
  destruct (is_empty data) eqn:D; [reflexivity|].
  pose proof (recv_line_shorter _ _ _ _ _ E D) as L.
  unfold json_loads, lift_opt. destruct (Json.loads data) as [resp|]; [|reflexivity].
  cbn [ret raise]. unfold contains_key, lift_opt.
  destruct (py_in (py "event") resp) as [[|]|]; try reflexivity.
  cbn [ret events_append]. destruct only_event; [reflexivity|]. cbn [negb].
  unfold json_read. apply json_read_loop_enough; cbn [rx set_events set_rx]; lia.
Qed.

Lemma loads_nonempty (l : pystr) (v : json) :
  Json.loads l = Some v -> is_empty l = false.
Proof. destruct l; [discriminate|reflexivity]. Qed.

Lemma set_rx_same (st : qmp) (q : list item) : rx st = q -> set_rx q st = st.
Proof. intros <-. now destruct st. Qed.

Lemma set_events_same (st : qmp) : set_events (events st) st = st.
Proof. now destruct st. Qed.

Lemma json_read_event (only_event : bool) (st : qmp) (l : pystr) (q : list item) (o : dict) :
  rx st = Line l :: q -> Json.loads l = Some (JDict o) ->
  has_key (py "event") o = true ->
  json_read only_event st =
  if only_event
  then (Ok (JDict o), set_events (events st ++ [JDict o]) (set_rx q st))
  else json_read false (set_events (events st ++ [JDict o]) (set_rx q st)).
Proof.
  intros R L K. rewrite json_read_eq.
  unfold json_read_turn, bind, readline. rewrite R. cbn [recv_line].
  rewrite (loads_nonempty l _ L). unfold json_loads. rewrite L.
  cbn [lift_opt ret contains_key py_in]. rewrite K. cbn [events_append].
  destruct only_event; reflexivity.
Qed.

Lemma json_read_response (only_event : bool) (st : qmp) (l : pystr) (q : list item) (o : dict) :
  rx st = Line l :: q -> Json.loads l = Some (JDict o) ->
  has_key (py "event") o = false ->
  json_read only_event st = (Ok (JDict o), set_rx q st).
Proof.
  intros R L K. rewrite json_read_eq.
  unfold json_read_turn, bind, readline. rewrite R. cbn [recv_line].
  rewrite (loads_nonempty l _ L). unfold json_loads. rewrite L.
  cbn [lift_opt ret contains_key py_in]. rewrite K. reflexivity.
Qed.

Lemma json_read_idle_wait (only_event : bool) (st : qmp) (q : list item) :
  rx st = Idle :: q -> blocking st = true ->
  json_read only_event st = json_read only_event (set_rx q st).
Proof.
  intros R B. rewrite (json_read_eq only_event st).
  rewrite (json_read_eq only_event (set_rx q st)).
  unfold json_read_turn, bind, readline.
  cbn [blocking rx rx_end set_rx]. rewrite R, B. cbn [recv_line].
  destruct (recv_line true (rx_end st) q) as [r q']. reflexivity.
Qed.

Lemma json_read_idle_again (only_event : bool) (st : qmp) (q : list item) :
  rx st = Idle :: q -> blocking st = false ->
  json_read only_event st = (Ok JNull, set_rx q st).
Proof.
  intros R B. rewrite json_read_eq.
  unfold json_read_turn, bind, readline. now rewrite R, B.
Qed.

Lemma json_read_end (only_event : bool) (st : qmp) :
  rx st = [] ->
  json_read only_event st =
  match rx_end st with
  | Closed => (Ok JNull, st)
  | Silent => if blocking st then (Hang, st) else (Ok JNull, st)
  end.
Proof.
  intros R. rewrite json_read_eq.
  unfold json_read_turn, bind, readline. rewrite R. cbn [recv_line].
  destruct (rx_end st); [|destruct (blocking st)]; cbn [is_empty ret];
    now rewrite (set_rx_same st [] R).
Qed.

Lemma event_line_inv (l : pystr) :
  event_line l = true ->
  exists o, Json.loads l = Some (JDict o) /\ has_key (py "event") o = true
            /\ decode l = JDict o.
Proof.
  unfold event_line, decode. destruct (Json.loads l) as [[| | | | |o]|]; try discriminate.
  intros H. now exists o.
Qed.

(** A run of event lines is queued in order, and the read goes on after it. *)
Lemma json_read_burst (pre q : list item) :
  forall st,
    rx st = pre ++ q -> event_burst (blocking st) pre = true ->
    json_read false st
    = json_read false (set_events (events st ++ decoded pre) (set_rx q st)).
Proof.
  induction pre as [|[l|] pre IH]; intros st R B.
  - cbn [decoded]. rewrite List.app_nil_r, (set_rx_same st q R).
    now rewrite set_events_same.
  - cbn [event_burst forallb] in B. apply andb_true_iff in B. destruct B as [B1 B2].
    destruct (event_line_inv l B1) as (o & L & K & D).
    rewrite (json_read_event false st l (pre ++ q) o R L K).
    rewrite IH by (cbn [rx set_events set_rx blocking]; auto).
    cbn [decoded]. rewrite D. cbn [events set_events set_rx].
    rewrite <- List.app_assoc. reflexivity.
  - cbn [event_burst forallb] in B. apply andb_true_iff in B. destruct B as [B1 B2].
    rewrite (json_read_idle_wait false st (pre ++ q) R B1).
    rewrite IH by (cbn [rx set_events set_rx blocking]; auto).
    reflexivity.
Qed.

(** ** Commands *)

Lemma sendall_ok (data : pystr) (st : qmp) :
  send_ok st = true ->
  sendall data st = (Ok tt, set_tx (tl (tx st)) (sent st ++ [data]) st).
Proof.
  unfold send_ok, sendall. destruct (tx st) as [|[e|] t]; try discriminate; reflexivity.
Qed.

Lemma cmd_obj_sent (v : json) (st : qmp) :
  send_ok st = true ->
  cmd_obj v st
  = json_read false (set_tx (tl (tx st)) (sent st ++ [Json.dumps v]) st).
Proof.
  intros S. unfold cmd_obj, bind, try_socket_error. now rewrite (sendall_ok _ st S).
Qed.

(** The command/response cycle: the events that arrive before the answer
    are queued in order, and the answer is returned. *)
Lemma cmd_obj_answer (v : json) (st : qmp) (pre rest : list item)
      (rl : pystr) (resp : dict) :
  send_ok st = true ->
  rx st = pre ++ Line rl :: rest ->
  event_burst (blocking st) pre = true ->
  Json.loads rl = Some (JDict resp) ->
  has_key (py "event") resp = false ->
  cmd_obj v st = (Ok (JDict resp), after_exchange (Json.dumps v) pre rest st).
Proof.
  intros S R B L K. rewrite (cmd_obj_sent v st S).
  rewrite (json_read_burst pre (Line rl :: rest)) by (cbn [rx blocking set_tx]; auto).
  rewrite (json_read_response false _ rl rest resp) by (cbn [rx set_events set_rx]; auto).
  reflexivity.
Qed.

Lemma command_return (name : pystr) (kwds : dict) (st : qmp) (pre rest : list item)
      (rl : pystr) (resp : dict) (v : json) :
  send_ok st = true ->
  rx st = pre ++ Line rl :: rest ->
  event_burst (blocking st) pre = true ->
  Json.loads rl = Some (JDict resp) ->
  has_key (py "event") resp = false ->
  has_key (py "error") resp = false ->
  dict_get (py "return") resp = Some v ->
  command name kwds st
  = (Ok v, after_exchange (Json.dumps (JDict (qmp_cmd_of name (JDict kwds) JNull)))
                          pre rest st).
Proof.
  intros S R B L K E G. unfold command, cmd, bind.
  rewrite (cmd_obj_answer _ st pre rest rl resp S R B L K).
  cbn [contains_key py_in lift_opt ret]. rewrite E.
  cbn [getitem lift_opt]. rewrite G. reflexivity.
Qed.

Lemma command_error (name : pystr) (kwds : dict) (st : qmp) (pre rest : list item)
      (rl : pystr) (resp err : dict) (desc : json) :
  send_ok st = true ->
  rx st = pre ++ Line rl :: rest ->
  event_burst (blocking st) pre = true ->
  Json.loads rl = Some (JDict resp) ->
  has_key (py "event") resp = false ->
  dict_get (py "error") resp = Some (JDict err) ->
  dict_get (py "desc") err = Some desc ->
  command name kwds st
  = (Raise (PyException desc),
     after_exchange (Json.dumps (JDict (qmp_cmd_of name (JDict kwds) JNull)))
                    pre rest st).
Proof.
  intros S R B L K E G. unfold command, cmd, bind.
  rewrite (cmd_obj_answer _ st pre rest rl resp S R B L K).
  cbn [contains_key py_in lift_opt ret].
  assert (H : has_key (py "error") resp = true).
  { clear - E. induction resp as [|[k x] d IH]; [discriminate|].
    cbn [dict_get has_key] in *. destruct (pystr_eqb k (py "error")); [reflexivity|].
    cbn [orb]. auto. }
  rewrite H. cbn [getitem lift_opt]. rewrite E. cbn [ret getitem lift_opt].
  rewrite G. reflexivity.
Qed.

(** ** Polling and pulling events *)

Lemma message_line_inv (l : pystr) :
  message_line l = true -> exists o, Json.loads l = Some (JDict o).
Proof.
  unfold message_line. destruct (Json.loads l) as [[| | | | |o]|]; try discriminate.
  intros _. now exists o.
Qed.

(** A non-blocking read over well-formed input ends without an error; what
    it queued is at the back of the queue. *)
Lemma json_read_drain (q : list item) :
  forall st,
    rx st = q -> blocking st = false -> conformant q = true ->
    exists r more q',
      json_read false st = (r, set_events (events st ++ more) (set_rx q' st)) /\
      conformant q' = true /\
      exists v, r = Ok v.
Proof.
  induction q as [|[l|] q IH]; intros st R B C.
  - rewrite (json_read_end false st R), B.
    destruct (rx_end st).
    + exists (Ok JNull), [], []. rewrite List.app_nil_r, (set_rx_same st [] R).
      rewrite set_events_same. eauto.
    + exists (Ok JNull), [], [].
      rewrite List.app_nil_r, (set_rx_same st [] R). rewrite set_events_same. eauto.
  - cbn [conformant forallb] in C. apply andb_true_iff in C. destruct C as [C1 C2].
    destruct (message_line_inv l C1) as (o & L).
    destruct (has_key (py "event") o) eqn:K.
    + rewrite (json_read_event false st l q o R L K).
      destruct (IH (set_events (events st ++ [JDict o]) (set_rx q st)))
        as (r & more & q' & E & C' & Hr); auto.
      exists r, (JDict o :: more), q'. rewrite E. cbn [events set_events set_rx].
      rewrite <- List.app_assoc. auto.
    + rewrite (json_read_response false st l q o R L K).
      exists (Ok (JDict o)), [], q. rewrite List.app_nil_r.
      replace (set_events (events st) (set_rx q st)) with (set_rx q st)
        by (now destruct st).
      eauto.
  - cbn [conformant forallb] in C.
    rewrite (json_read_idle_again false st q R B).
    exists (Ok JNull), [], q. rewrite List.app_nil_r.
    replace (set_events (events st) (set_rx q st)) with (set_rx q st)
      by (now destruct st).
    eauto.
Qed.

Lemma poll_conformant (st : qmp) :
  conformant (rx st) = true ->
  exists more q, poll st = (Ok tt, polled more q st) /\ conformant q = true.
Proof.
  intros C.
  destruct (json_read_drain (rx st) (set_blocking false st) eq_refl eq_refl C)
    as (r & more & q & E & C' & Hr).
  exists more, q. split; [|exact C'].
  unfold poll, bind, setblocking, try_socket_error. rewrite E.
  destruct Hr as [v ->]. reflexivity.
Qed.

(** With nothing queued on the socket the poll changes nothing but the
    moment. *)
Lemma poll_nothing_pending (st : qmp) :
  nothing_pending st = true ->
  poll st = (Ok tt, polled [] (tl (rx st)) st).
Proof.
  unfold nothing_pending. intros N.
  unfold poll, bind, setblocking, try_socket_error.
  destruct (rx st) as [|[l|] q] eqn:R; try discriminate.
  - rewrite (json_read_end false (set_blocking false st)) by exact R.
    cbn [rx_end blocking set_blocking]. unfold polled. rewrite List.app_nil_r.
    destruct (rx_end st); cbn [tl]; destruct st; cbn in *; subst; reflexivity.
  - rewrite (json_read_idle_again false (set_blocking false st) q) by (auto).
    unfold polled. rewrite List.app_nil_r. reflexivity.
Qed.

Lemma pull_event_front (st : qmp) (e : json) (es : list json) :
  events st = e :: es -> conformant (rx st) = true ->
  exists more q,
    pull_event false st
    = (Ok e, set_blocking true (set_events (es ++ more) (set_rx q st))) /\
    conformant q = true.
Proof.
  intros E C. destruct (poll_conformant st C) as (more & q & P & C').
  exists more, q. split; [|exact C'].
  unfold pull_event, bind. rewrite P. unfold polled.
  cbn [get_events_attr events set_blocking set_events andb negb truthy ret].
  rewrite andb_false_r. rewrite E. reflexivity.
Qed.

(** Pulling as many events as the queue holds gives them in queue order. *)
Lemma pull_events_queue (evs : list json) :
  forall extra st,
    events st = evs ++ extra -> conformant (rx st) = true ->
    exists st', pull_events (List.length evs) st = (Ok evs, st').
Proof.
  induction evs as [|e evs IH]; intros extra st E C.
  - exists st. reflexivity.
  - destruct (pull_event_front st e (evs ++ extra) E C) as (more & q & P & C').
    cbn [pull_events List.length]. unfold bind at 1. rewrite P.
    destruct (IH (extra ++ more) (set_blocking true (set_events ((evs ++ extra) ++ more) (set_rx q st))))
      as (st' & P').
    + cbn [events set_blocking set_events]. now rewrite List.app_assoc.
    + exact C'.
    + exists st'. unfold bind. rewrite P'. reflexivity.
Qed.

Lemma json_read_quiet (only_event : bool) (q q' : list item) :
  forall st,
    rx st = q ++ q' -> quiet q = true -> blocking st = true ->
    json_read only_event st = json_read only_event (set_rx q' st).
Proof.
  induction q as [|[l|] q IH]; intros st R Q B.
  - now rewrite (set_rx_same st q' R).
  - discriminate.
  - cbn [quiet forallb andb] in Q.
    rewrite (json_read_idle_wait only_event st (q ++ q') R B).
    rewrite IH by (cbn [rx set_rx blocking]; auto). reflexivity.
Qed.

(** At the end of the stream the two consumers of the queue part ways:
    [get_events] reports the closed connection, [pull_event] goes on to index
    the empty queue. *)
Example wait_at_end_of_stream :
  fst (get_events true (fresh [Idle] Closed))
    = Raise (QMPConnectError (Some (py "Error while reading from socket"))) /\
  fst (pull_event true (fresh [Idle] Closed)) = Raise IndexError.
Proof. vm_compute. split; reflexivity. Qed.

(** ** The handshake *)

Lemma negotiate_after_greeting (st : qmp) (pre rest : list item) (gl : pystr) (g : dict) :
  rx st = pre ++ Line gl :: rest ->
  event_burst (blocking st) pre = true ->
  Json.loads gl = Some (JDict g) ->
  has_key (py "event") g = false ->
  negotiate_capabilities st =
  let st1 := set_events (events st ++ decoded pre) (set_rx rest st) in
  if has_key (py "QMP") g then
    (resp <- cmd (py "qmp_capabilities") JNull JNull ;;
     has_return <- contains_key (py "return") resp ;;
     if has_return then ret (JDict g) else raise QMPCapabilitiesError) st1
  else (Raise (QMPConnectError None), st1).
Proof.
  intros R B L K. unfold negotiate_capabilities. unfold bind at 1.
  rewrite (json_read_burst pre (Line gl :: rest) st R B).
  rewrite (json_read_response false _ gl rest g) by (cbn [rx set_events set_rx]; auto).
  cbn [set_events set_rx events rx].
  unfold bind at 1. cbn [contains_key py_in lift_opt ret].
  destruct (has_key (py "QMP") g); reflexivity.
Qed.

Lemma negotiate_end_of_stream (st : qmp) (pre : list item) :
  rx st = pre -> event_burst (blocking st) pre = true -> rx_end st = Closed ->
  negotiate_capabilities st
  = (Raise (QMPConnectError None), set_events (events st ++ decoded pre) (set_rx [] st)).
Proof.
  intros R B C. unfold negotiate_capabilities. unfold bind at 1.
  rewrite (json_read_burst pre [] st) by (rewrite ?List.app_nil_r; auto).
  rewrite json_read_end by reflexivity. cbn [rx_end set_events set_rx].
  rewrite C. reflexivity.
Qed.

Lemma json_read_loop_sent (n : nat) (only_event : bool) :
  forall st, sent (snd (json_read_loop n only_event st)) = sent st.
Proof.
  induction n as [|n IH]; intros st; [reflexivity|].
  rewrite json_read_loop_S. unfold json_read_turn, bind, readline.
  destruct (recv_line (blocking st) (rx_end st) (rx st)) as [r q].
  destruct r as [data| |]; try reflexivity.
  destruct (is_empty data); [reflexivity|].
  unfold json_loads, lift_opt. destruct (Json.loads data) as [resp|]; [|reflexivity].
  cbn [ret raise]. unfold contains_key, lift_opt.
  destruct (py_in (py "event") resp) as [[|]|]; try reflexivity.
  cbn [ret events_append]. destruct only_event; [reflexivity|]. cbn [negb].
  now rewrite IH.
Qed.

(** A command that goes through adds exactly its text to what was written. *)
Lemma cmd_obj_writes (v : json) (st : qmp) :
  send_ok st = true ->
  sent (snd (cmd_obj v st)) = sent st ++ [Json.dumps v].
Proof.
  intros S. rewrite (cmd_obj_sent v st S). unfold json_read.
  now rewrite json_read_loop_sent.
Qed.

Lemma qmp_cmd_of_cases (name : pystr) (args id : json) :
  qmp_cmd_of name args id
  = (py "execute", JStr name)
      :: (if truthy args then [(py "arguments", args)] else [])
      ++ (if truthy id then [(py "id", id)] else []).
Proof. unfold qmp_cmd_of. destruct (truthy args), (truthy id); reflexivity. Qed.

(** ** The address resolver *)

Lemma split_cons (sep : N) (s : pystr) : exists seg segs, split sep s = seg :: segs.
Proof.
  induction s as [|c s IH]; cbn [split]; [eauto|].
  destruct (N.eqb c sep); [eauto|]. destruct IH as (seg & segs & ->). eauto.
Qed.

Lemma split_length (sep : N) (s : pystr) :
  List.length (split sep s) = S (count_occ N.eq_dec s sep).
Proof.
  induction s as [|c s IH]; [reflexivity|]. cbn [split count_occ].
  destruct (N.eqb_spec c sep) as [->|Hn].
  - destruct (N.eq_dec sep sep) as [_|C]; [|contradiction]. cbn [List.length]. now rewrite IH.
  - destruct (N.eq_dec c sep) as [C|_]; [contradiction|].
    destruct (split_cons sep s) as (seg & segs & E). rewrite E in *. exact IH.
Qed.

Lemma split_without (sep : N) (s : pystr) : ~ In sep s -> split sep s = [s].
Proof.
  induction s as [|c s IH]; intros H; [reflexivity|]. cbn [split].
  destruct (N.eqb_spec c sep) as [->|Hn]; [exfalso; apply H; now left|].
  rewrite IH; [reflexivity|]. intros C. apply H. now right.
Qed.

Lemma split_at (sep : N) (h t : pystr) :
  ~ In sep h -> split sep (h ++ sep :: t) = h :: split sep t.
Proof.
  induction h as [|c h IH]; intros H; cbn [app split].
  - now rewrite N.eqb_refl.
  - destruct (N.eqb_spec c sep) as [->|Hn]; [exfalso; apply H; now left|].
    rewrite IH; [reflexivity|]. intros C. apply H. now right.
Qed.

Lemma count_occ_zero_not_in (sep : N) (s : pystr) :
  count_occ N.eq_dec s sep = O -> ~ In sep s.
Proof. intros H. now apply (count_occ_not_In N.eq_dec). Qed.

(** A string with exactly one separator is a segment, the separator, and a
    segment. *)
Lemma one_separator (sep : N) (s : pystr) :
  count_occ N.eq_dec s sep = 1%nat ->
  exists h t, s = h ++ sep :: t /\ ~ In sep h /\ ~ In sep t.
Proof.
  induction s as [|c s IH]; [discriminate|]. cbn [count_occ].
  destruct (N.eq_dec c sep) as [->|Hn]; intros H.
  - exists [], s. repeat split; auto.
    apply count_occ_zero_not_in. now inversion H.
  - destruct (IH H) as (h & t & -> & Hh & Ht).
    exists (c :: h), t. repeat split; auto.
    intros [C|C]; [now apply Hn|now apply Hh].
Qed.

Lemma count_occ_one (sep : N) (h t : pystr) :
  ~ In sep h -> ~ In sep t -> count_occ N.eq_dec (h ++ sep :: t) sep = 1%nat.
Proof.
  intros Hh Ht. rewrite count_occ_app. cbn [count_occ].
  destruct (N.eq_dec sep sep) as [_|C]; [|contradiction].
  apply (count_occ_not_In N.eq_dec) in Hh. apply (count_occ_not_In N.eq_dec) in Ht.
  rewrite Hh, Ht. reflexivity.
Qed.

Lemma get_address_host_port (int : pystr -> option Z) (h t : pystr) :
  ~ In 58 h -> ~ In 58 t ->
  get_address int (h ++ 58 :: t)
  = match int t with
    | Some port => Ok (HostPort h port)
    | None => Raise ValueError
    end.
Proof.
  intros Hh Ht. unfold get_address. change (chr ":") with 58.
  rewrite (split_at 58 h t Hh), (split_without 58 t Ht). reflexivity.
Qed.

Lemma get_address_path (int : pystr -> option Z) (arg : pystr) :
  count_occ N.eq_dec arg 58 <> 1%nat -> get_address int arg = Ok (Path arg).
Proof.
  intros H. unfold get_address. change (chr ":") with 58.
  rewrite split_length.
  destruct (count_occ N.eq_dec arg 58) as [|[|n]]; try reflexivity. contradiction.
Qed.

End QmpFacts.

(** * The properties of the specification *)

Import Qmp QmpFacts.

(** C1.  In a command/response exchange in which the peer sends N event
    lines before the response line, [cmd] and [command] append those N events
    to the event queue in arrival order and return the response; [command]
    returns exactly the value of the ['return'] field (also when N is 0).
    Later [pull_event] calls yield the queue in order: with no event queued
    before the exchange, exactly those N events in the order sent. *)
Theorem C1_events_queued_in_order_response_returned
    (st : qmp) (name : pystr) (pre rest : list item) (rl : pystr) (resp : dict) :
  send_ok st = true ->
  rx st = pre ++ Line rl :: rest ->
  event_burst (blocking st) pre = true ->
  Json.loads rl = Some (JDict resp) ->
  has_key (py "event") resp = false ->
  let queue := events st ++ decoded pre in
  let later_pulls st1 :=
    conformant rest = true ->
    exists st2, pull_events (List.length queue) st1 = (Ok queue, st2) in
  (forall args id,
      exists st1,
        cmd name args id st = (Ok (JDict resp), st1) /\
        events st1 = queue /\ rx st1 = rest /\ later_pulls st1) /\
  (forall kwds v,
      has_key (py "error") resp = false ->
      dict_get (py "return") resp = Some v ->
      exists st1,
        command name kwds st = (Ok v, st1) /\
        events st1 = queue /\ rx st1 = rest /\ later_pulls st1).
Proof.
  intros S R B L K queue later_pulls.
  assert (P : forall msg, later_pulls (after_exchange msg pre rest st)).
  { intros msg C.
    apply (pull_events_queue queue []).
    - cbn [after_exchange events set_events]. now rewrite List.app_nil_r.
    - exact C. }
  split.
  - intros args id. eexists. split; [|split; [|split]].
    + unfold cmd. apply (cmd_obj_answer _ st pre rest rl resp S R B L K).
    + reflexivity.
    + reflexivity.
    + apply P.
  - intros kwds v E G. eexists. split; [|split; [|split]].
    + apply (command_return name kwds st pre rest rl resp v S R B L K E G).
    + reflexivity.
    + reflexivity.
    + apply P.
Qed.

Lemma C1_witness :
  let st := fresh [Line (js "{'event': 'STOP', 'timestamp': {'seconds': 1}}");
                   Idle;
                   Line (js "{'event': 'RESUME', 'data': {}}");
                   Line (js "{'return': {'running': true}}")] Silent in
  let queue := [JDict [(py "event", JStr (py "STOP"));
                       (py "timestamp", JDict [(py "seconds", JInt 1)])];
                JDict [(py "event", JStr (py "RESUME")); (py "data", JDict [])]] in
  exists st1,
    command (py "query-status") [] st = (Ok (JDict [(py "running", JBool true)]), st1) /\
    events st1 = queue /\
    rx st1 = [] /\
    exists st2, pull_events 2 st1 = (Ok queue, st2).
Proof.
  intros st queue.
  destruct (proj2 (C1_events_queued_in_order_response_returned st (py "query-status")
              [Line (js "{'event': 'STOP', 'timestamp': {'seconds': 1}}");
               Idle;
               Line (js "{'event': 'RESUME', 'data': {}}")]
              [] (js "{'return': {'running': true}}")
              [(py "return", JDict [(py "running", JBool true)])]
              eq_refl eq_refl eq_refl eq_refl eq_refl)
              [] (JDict [(py "running", JBool true)]) eq_refl eq_refl)
    as (st1 & H1 & H2 & H3 & H4).
  exists st1. split; [exact H1|]. split; [exact H2|]. split; [exact H3|].
  exact (H4 eq_refl).
Defined.

(** C2, as stated, fails: with an empty queue and [wait] set, a response line
    met by the blocking read, and the end of the stream, both end in the
    [IndexError] of [self.__events[0]], which is no error of the module
    (there is no protocol-violation or connection-closed error to raise). *)
Lemma C2_counterexample :
  fst (pull_event true (fresh [Idle; Line (js "{'return': {}}")] Silent))
    = Raise IndexError /\
  fst (pull_event true (fresh [Idle] Closed)) = Raise IndexError /\
  is_QMPError IndexError = false.
Proof. vm_compute. repeat split. Qed.

(** C2, amended.  [pull_event(wait=True)] called with an empty queue and
    nothing queued on the socket waits for the next line: while the peer
    stays silent the call does not come back, and when the line that arrives
    is an event it is returned and the queue is empty again.  When the line
    is a response, it is taken off the stream without being queued. *)
Theorem C2_pull_event_wait_returns_arriving_event
    (st : qmp) (q : list item) :
  events st = [] ->
  quiet q = true ->
  (rx st = Idle :: q -> rx_end st = Silent -> fst (pull_event true st) = Hang) /\
  (forall l o rest,
      rx st = Idle :: q ++ Line l :: rest ->
      Json.loads l = Some (JDict o) ->
      (has_key (py "event") o = true ->
       exists st', pull_event true st = (Ok (JDict o), st') /\
                   events st' = [] /\ rx st' = rest /\ blocking st' = true) /\
      (has_key (py "event") o = false ->
       exists r st', pull_event true st = (r, st') /\
                     events st' = [] /\ rx st' = rest)).
Proof.
  intros E Q.
  assert (P : forall q', rx st = Idle :: q' ->
                         poll st = (Ok tt, polled [] q' st)).
  { intros q' R.
    assert (N : nothing_pending st = true) by (unfold nothing_pending; now rewrite R).
    pose proof (poll_nothing_pending st N) as P. now rewrite R in P. }
  assert (W : forall q', rx st = Idle :: q' ->
                pull_event true st
                = (json_read true ;; evs <- get_events_attr ;;
                   match evs with
                   | [] => raise IndexError
                   | event :: rest => fun st => (Ok event, set_events rest st)
                   end) (polled [] q' st)).
  { intros q' R. unfold pull_event. unfold bind at 1. rewrite (P q' R).
    unfold bind at 1. unfold get_events_attr at 1. unfold polled at 1.
    cbn [events set_blocking set_events]. rewrite E. cbn [app truthy negb andb].
    unfold bind. destruct (json_read true (polled [] q' st)) as [[?| |] ?]; reflexivity. }
  split.
  - intros R C. rewrite (W q R). unfold bind.
    rewrite (json_read_quiet true q [] (polled [] q st))
      by (rewrite ?List.app_nil_r; auto).
    rewrite json_read_end by reflexivity.
    cbn [rx_end blocking polled set_blocking set_events set_rx]. now rewrite C.
  - intros l o rest R L.
    assert (J : json_read true (polled [] (q ++ Line l :: rest) st)
                = json_read true (set_rx (Line l :: rest)
                                    (polled [] (q ++ Line l :: rest) st))).
    { apply (json_read_quiet true q); auto. }
    rewrite (W _ R). unfold bind. rewrite J. split; intros K.
    + rewrite (json_read_event true _ l rest o) by (auto).
      eexists. split; [|split; [|split]].
      * cbn [get_events_attr polled events set_blocking set_events set_rx].
        rewrite E. cbn [app]. reflexivity.
      * reflexivity.
      * reflexivity.
      * reflexivity.
    + rewrite (json_read_response true _ l rest o) by (auto).
      eexists. eexists. split; [|split].
      * cbn [get_events_attr polled events set_blocking set_events set_rx].
        rewrite E. cbn [app raise]. reflexivity.
      * cbn [polled events set_blocking set_events set_rx]. now rewrite E.
      * reflexivity.
Qed.

Lemma C2_witness :
  fst (pull_event true (fresh [Idle; Idle] Silent)) = Hang /\
  exists st',
    pull_event true (fresh [Idle; Idle; Line (js "{'event': 'SHUTDOWN'}"); Idle] Silent)
    = (Ok (JDict [(py "event", JStr (py "SHUTDOWN"))]), st') /\
    events st' = [] /\ rx st' = [Idle] /\ blocking st' = true.
Proof.
  split.
  - refine (proj1 (C2_pull_event_wait_returns_arriving_event
              (fresh [Idle; Idle] Silent) [Idle] _ _) _ _); reflexivity.
  - refine (proj1 (proj2 (C2_pull_event_wait_returns_arriving_event
              (fresh [Idle; Idle; Line (js "{'event': 'SHUTDOWN'}"); Idle] Silent)
              [Idle] _ _)
              (js "{'event': 'SHUTDOWN'}") [(py "event", JStr (py "SHUTDOWN"))]
              [Idle] _ _) _);
      vm_compute; reflexivity.
Defined.

(** C3, as stated, fails: a command issued on a session that was connected
    without negotiation is written and answered like any other. *)
Lemma C3_counterexample :
  fst ((connect false ;; cmd (py "query-status") JNull JNull)
         (fresh [Line (js "{'return': {'status': 'running'}}")] Silent))
  = Ok (JDict [(py "return", JDict [(py "status", JStr (py "running"))])]).
Proof. vm_compute. reflexivity. Qed.

(** C3, amended.  The command path has no negotiation precondition: on a
    connected session a command is written and its answer returned whether
    the capabilities were negotiated or not; in particular the same command
    succeeds after [connect] without negotiation and after a successful
    negotiation. *)
Theorem C3_command_succeeds_with_or_without_negotiation
    (st : qmp) (name : pystr) (args id : json)
    (pre rest : list item) (rl : pystr) (resp : dict) :
  conn st = None ->
  tx st = [] ->
  event_burst (blocking st) pre = true ->
  Json.loads rl = Some (JDict resp) ->
  has_key (py "event") resp = false ->
  (rx st = pre ++ Line rl :: rest ->
   fst ((connect false ;; cmd name args id) st) = Ok (JDict resp)) /\
  (forall gl g cl c,
      rx st = Line gl :: Line cl :: pre ++ Line rl :: rest ->
      Json.loads gl = Some (JDict g) ->
      has_key (py "event") g = false -> has_key (py "QMP") g = true ->
      Json.loads cl = Some (JDict c) ->
      has_key (py "event") c = false -> has_key (py "return") c = true ->
      fst ((connect true ;; cmd name args id) st) = Ok (JDict resp)).
Proof.
  intros C T B L K.
  assert (S : send_ok st = true) by (unfold send_ok; now rewrite T).
  split.
  - intros R. unfold connect, bind, sock_connect. rewrite C. cbn [ret].
    unfold cmd. now rewrite (cmd_obj_answer _ st pre rest rl resp S R B L K).
  - intros gl g cl c R Lg Kg Qg Lc Kc Rc.
    unfold connect. unfold bind at 1 2. unfold sock_connect. rewrite C.
    rewrite (negotiate_after_greeting st [] (Line cl :: pre ++ Line rl :: rest) gl g R
               eq_refl Lg Kg).
    rewrite Qg. cbv zeta. cbn [decoded]. rewrite List.app_nil_r.
    set (st1 := set_events _ _).
    unfold bind at 1. unfold cmd at 1.
    rewrite (cmd_obj_answer _ st1 [] (pre ++ Line rl :: rest) cl c)
      by (auto; unfold send_ok, st1; cbn [tx set_rx set_events]; now rewrite T).
    unfold bind at 1. cbn [contains_key py_in lift_opt ret]. rewrite Rc.
    unfold cmd. cbn [ret].
    rewrite (cmd_obj_answer _ _ pre rest rl resp)
      by (auto; unfold after_exchange, send_ok, st1;
          cbn [tx rx blocking set_events set_rx set_tx]; rewrite ?T; auto).
    reflexivity.
Qed.

Lemma C3_witness :
  fst ((connect false ;; cmd (py "stop") JNull JNull)
         (fresh [Line (js "{'event': 'STOP'}"); Line (js "{'return': {}}")] Silent))
    = Ok (JDict [(py "return", JDict [])]) /\
  fst ((connect true ;; cmd (py "stop") JNull JNull)
         (fresh [Line (js "{'QMP': {'version': {}, 'capabilities': []}}");
                 Line (js "{'return': {}}");
                 Line (js "{'event': 'STOP'}"); Line (js "{'return': {}}")] Silent))
    = Ok (JDict [(py "return", JDict [])]).
Proof.
  split.
  - refine (proj1 (C3_command_succeeds_with_or_without_negotiation
              (fresh [Line (js "{'event': 'STOP'}"); Line (js "{'return': {}}")] Silent)
              (py "stop") JNull JNull
              [Line (js "{'event': 'STOP'}")] [] (js "{'return': {}}")
              [(py "return", JDict [])] _ _ _ _ _) _);
      vm_compute; reflexivity.
  - refine (proj2 (C3_command_succeeds_with_or_without_negotiation
              (fresh [Line (js "{'QMP': {'version': {}, 'capabilities': []}}");
                      Line (js "{'return': {}}");
                      Line (js "{'event': 'STOP'}"); Line (js "{'return': {}}")] Silent)
              (py "stop") JNull JNull
              [Line (js "{'event': 'STOP'}")] [] (js "{'return': {}}")
              [(py "return", JDict [])] _ _ _ _ _)
              (js "{'QMP': {'version': {}, 'capabilities': []}}")
              [(py "QMP", JDict [(py "version", JDict []); (py "capabilities", JList [])])]
              (js "{'return': {}}") [(py "return", JDict [])] _ _ _ _ _ _ _);
      vm_compute; reflexivity.
Defined.

(** C4, the code at the input of the claim.  [pull_event(wait=False)] called
    with an empty queue and nothing queued on the socket does not block and
    polls the socket once, but then it does not return a "no event" value:
    [self.__events[0]] raises [IndexError].  [get_events], which shares the
    poll, returns the empty list in the same situation. *)
Theorem C4_pull_event_nowait_on_empty_queue_raises
    (st : qmp) :
  events st = [] ->
  nothing_pending st = true ->
  pull_event false st = (Raise IndexError, polled [] (tl (rx st)) st) /\
  get_events false st = (Ok [], polled [] (tl (rx st)) st).
Proof.
  intros E N. pose proof (poll_nothing_pending st N) as P.
  split.
  - unfold pull_event, bind. rewrite P. unfold polled.
    cbn [get_events_attr events set_blocking set_events]. rewrite E.
    reflexivity.
  - unfold get_events, bind. rewrite P. unfold polled.
    cbn [get_events_attr events set_blocking set_events]. rewrite E.
    reflexivity.
Qed.

Lemma C4_witness :
  pull_event false (fresh [] Silent)
    = (Raise IndexError, polled [] [] (fresh [] Silent)) /\
  get_events false (fresh [] Silent) = (Ok [], polled [] [] (fresh [] Silent)).
Proof.
  apply (C4_pull_event_nowait_on_empty_queue_raises (fresh [] Silent));
    reflexivity.
Defined.

(** C5, the code at the input of the claim.  A write that fails, with
    [EPIPE] or with any other error, does not reach the [return] and the
    [raise socket.error(err)] of its handler: the handler first evaluates
    [err[0]], which raises [TypeError] on every [socket.error].  Nothing is
    read and nothing more is written.  The end of the stream met while
    waiting for the answer makes the call return [None], the events read
    before it being queued. *)
Theorem C5_cmd_obj_on_transport_failure
    (st : qmp) (v : json) :
  (forall err t,
      tx st = Some err :: t ->
      cmd_obj v st = (Raise TypeError, set_tx t (sent st) st)) /\
  (forall pre,
      send_ok st = true ->
      rx st = pre -> event_burst (blocking st) pre = true -> rx_end st = Closed ->
      cmd_obj v st = (Ok JNull, after_exchange (Json.dumps v) pre [] st)).
Proof.
  split.
  - intros err t T. unfold cmd_obj, bind, try_socket_error, sendall. rewrite T.
    reflexivity.
  - intros pre S R B C. rewrite (cmd_obj_sent v st S).
    rewrite (json_read_burst pre [])
      by (cbn [rx blocking set_tx]; rewrite ?List.app_nil_r; auto).
    rewrite json_read_end by reflexivity.
    cbn [rx_end set_events set_rx set_tx]. rewrite C. reflexivity.
Qed.

Lemma C5_witness :
  cmd_obj (JDict [(py "execute", JStr (py "stop"))])
    (mkQmp [] [] Silent true [Some (OSError 104)] [] None)
  = (Raise TypeError, mkQmp [] [] Silent true [] [] None) /\
  cmd_obj (JDict [(py "execute", JStr (py "stop"))])
    (mkQmp [] [] Silent true [Some (OSError EPIPE)] [] None)
  = (Raise TypeError, mkQmp [] [] Silent true [] [] None) /\
  cmd_obj (JDict [(py "execute", JStr (py "stop"))])
    (fresh [Line (js "{'event': 'STOP'}")] Closed)
  = (Ok JNull,
     mkQmp [JDict [(py "event", JStr (py "STOP"))]] [] Closed true []
           [js "{'execute': 'stop'}"] None).
Proof.
  split; [|split].
  - exact (proj1 (C5_cmd_obj_on_transport_failure
                    (mkQmp [] [] Silent true [Some (OSError 104)] [] None)
                    (JDict [(py "execute", JStr (py "stop"))]))
                 (OSError 104) [] eq_refl).
  - exact (proj1 (C5_cmd_obj_on_transport_failure
                    (mkQmp [] [] Silent true [Some (OSError EPIPE)] [] None)
                    (JDict [(py "execute", JStr (py "stop"))]))
                 (OSError EPIPE) [] eq_refl).
  - refine (proj2 (C5_cmd_obj_on_transport_failure
                     (fresh [Line (js "{'event': 'STOP'}")] Closed)
                     (JDict [(py "execute", JStr (py "stop"))]))
                  [Line (js "{'event': 'STOP'}")] _ _ _ _);
      vm_compute; reflexivity.
Defined.

(** C6, as stated, fails: the exception raised for an error response
    carries the ['desc'] field only, so two answers that differ in their
    ['class'] raise the same exception. *)
Lemma C6_counterexample :
  fst (command (py "eject") []
         (fresh [Line (js "{'error': {'class': 'DeviceNotFound', 'desc': 'failed'}}")]
                Silent))
    = Raise (PyException (JStr (py "failed"))) /\
  fst (command (py "eject") []
         (fresh [Line (js "{'error': {'class': 'GenericError', 'desc': 'failed'}}")]
                Silent))
    = Raise (PyException (JStr (py "failed"))).
Proof. vm_compute. split; reflexivity. Qed.

(** C6, amended.  When the peer answers a command with an error response,
    [command] raises a plain [Exception] whose argument is the ['desc'] field
    of the error payload (the ['class'] field is not carried); the exception
    is none of the module's error classes, and the session stays usable: the
    events read are queued and a following command on the same session is
    written and answered. *)
Theorem C6_command_error_raises_Exception_of_desc
    (st : qmp) (name : pystr) (kwds : dict) (pre rest : list item)
    (rl : pystr) (resp err : dict) (desc : json) :
  send_ok st = true ->
  rx st = pre ++ Line rl :: rest ->
  event_burst (blocking st) pre = true ->
  Json.loads rl = Some (JDict resp) ->
  has_key (py "event") resp = false ->
  dict_get (py "error") resp = Some (JDict err) ->
  dict_get (py "desc") err = Some desc ->
  exists st1,
    command name kwds st = (Raise (PyException desc), st1) /\
    is_QMPError (PyException desc) = false /\
    events st1 = events st ++ decoded pre /\ rx st1 = rest /\
    (forall name2 kwds2 pre2 rest2 rl2 resp2 v2,
        send_ok st1 = true ->
        rest = pre2 ++ Line rl2 :: rest2 ->
        event_burst (blocking st) pre2 = true ->
        Json.loads rl2 = Some (JDict resp2) ->
        has_key (py "event") resp2 = false ->
        has_key (py "error") resp2 = false ->
        dict_get (py "return") resp2 = Some v2 ->
        fst (command name2 kwds2 st1) = Ok v2).
Proof.
  intros S R B L K E D. eexists. split; [|split; [|split; [|split]]].
  - apply (command_error name kwds st pre rest rl resp err desc S R B L K E D).
  - reflexivity.
  - reflexivity.
  - reflexivity.
  - intros name2 kwds2 pre2 rest2 rl2 resp2 v2 S2 R2 B2 L2 K2 E2 G2.
    now rewrite (command_return name2 kwds2 _ pre2 rest2 rl2 resp2 v2 S2 R2 B2 L2 K2 E2 G2).
Qed.

Lemma C6_witness :
  exists st1,
    command (py "eject") [(py "device", JStr (py "cd0"))]
      (fresh [Line (js "{'error': {'class': 'DeviceNotFound', 'desc': 'no cd0'}}");
              Line (js "{'return': {}}")] Silent)
    = (Raise (PyException (JStr (py "no cd0"))), st1) /\
    fst (command (py "query-status") [] st1) = Ok (JDict []).
Proof.
  destruct (C6_command_error_raises_Exception_of_desc
              (fresh [Line (js "{'error': {'class': 'DeviceNotFound', 'desc': 'no cd0'}}");
                      Line (js "{'return': {}}")] Silent)
              (py "eject") [(py "device", JStr (py "cd0"))]
              [] [Line (js "{'return': {}}")]
              (js "{'error': {'class': 'DeviceNotFound', 'desc': 'no cd0'}}")
              [(py "error", JDict [(py "class", JStr (py "DeviceNotFound"));
                                   (py "desc", JStr (py "no cd0"))])]
              [(py "class", JStr (py "DeviceNotFound")); (py "desc", JStr (py "no cd0"))]
              (JStr (py "no cd0"))
              eq_refl eq_refl eq_refl eq_refl eq_refl eq_refl eq_refl)
    as (st1 & H1 & _ & _ & R1 & H2).
  exists st1. split; [exact H1|].
  apply (H2 (py "query-status") [] [] [] (js "{'return': {}}")
            [(py "return", JDict [])] (JDict [])); try reflexivity.
  unfold send_ok. vm_compute in H1. inversion H1. reflexivity.
Defined.

(** C7, as stated, fails: the handshake does not stop at one line.  Here the
    first line read has no ['QMP'] key, and the handshake succeeds all the
    same: the line is an event, so it is queued and the next line is taken
    as the greeting. *)
Lemma C7_counterexample :
  let first := js "{'event': 'RESUME'}" in
  let st := fresh [Line first; Line (js "{'QMP': {}}"); Line (js "{'return': {}}")]
                  Silent in
  Json.loads first = Some (JDict [(py "event", JStr (py "RESUME"))]) /\
  has_key (py "QMP") [(py "event", JStr (py "RESUME"))] = false /\
  fst (negotiate_capabilities st) = Ok (JDict [(py "QMP", JDict [])]).
Proof. vm_compute. repeat split. Qed.

(** C7, amended.  The handshake reads lines, queueing every event line, up
    to the first line that is not an event; that message must contain a
    ['QMP'] key, and the handshake fails with [QMPConnectError] if the key is
    absent or the stream ended first.  It then sends the [qmp_capabilities]
    command; if the reply has no ['return'] key the handshake fails with
    [QMPCapabilitiesError] and returns no greeting, otherwise it returns the
    greeting. *)
Theorem C7_handshake_greeting_then_capabilities
    (st : qmp) (pre : list item) :
  event_burst (blocking st) pre = true ->
  (rx st = pre -> rx_end st = Closed ->
   fst (negotiate_capabilities st) = Raise (QMPConnectError None)) /\
  (forall gl g rest,
      rx st = pre ++ Line gl :: rest ->
      Json.loads gl = Some (JDict g) ->
      has_key (py "event") g = false ->
      (has_key (py "QMP") g = false ->
       negotiate_capabilities st
       = (Raise (QMPConnectError None),
          set_events (events st ++ decoded pre) (set_rx rest st))) /\
      (has_key (py "QMP") g = true ->
       send_ok st = true ->
       forall pre2 cl c rest2,
         rest = pre2 ++ Line cl :: rest2 ->
         event_burst (blocking st) pre2 = true ->
         Json.loads cl = Some (JDict c) ->
         has_key (py "event") c = false ->
         exists st2,
           negotiate_capabilities st
           = (if has_key (py "return") c then Ok (JDict g)
              else Raise QMPCapabilitiesError, st2) /\
           sent st2 = sent st ++ [js "{'execute': 'qmp_capabilities'}"] /\
           events st2 = (events st ++ decoded pre) ++ decoded pre2 /\
           rx st2 = rest2)).
Proof.
  intros B. split.
  - intros R C. now rewrite (negotiate_end_of_stream st pre R B C).
  - intros gl g rest R L K. rewrite (negotiate_after_greeting st pre rest gl g R B L K).
    cbv zeta. split.
    + intros Q. now rewrite Q.
    + intros Q S pre2 cl c rest2 R2 B2 L2 K2. rewrite Q.
      set (st1 := set_events _ _).
      eexists. split; [|split; [|split]].
      * unfold bind at 1. unfold cmd.
        rewrite (cmd_obj_answer _ st1 pre2 rest2 cl c)
          by (auto; unfold st1, send_ok in *; cbn [tx rx blocking set_events set_rx]; auto).
        unfold bind. cbn [contains_key py_in lift_opt ret].
        destruct (has_key (py "return") c); reflexivity.
      * reflexivity.
      * reflexivity.
      * reflexivity.
Qed.

Lemma C7_witness :
  (let st := fresh [Line (js "{'event': 'RESUME'}")] Closed in
   fst (negotiate_capabilities st) = Raise (QMPConnectError None)) /\
  (let st := fresh [Line (js "{'event': 'RESUME'}"); Line (js "{'QMP': {}}");
                    Line (js "{'error': {'class': 'CommandNotFound', 'desc': 'no'}}")]
                   Silent in
   exists st2,
     negotiate_capabilities st = (Raise QMPCapabilitiesError, st2) /\
     sent st2 = [js "{'execute': 'qmp_capabilities'}"] /\
     events st2 = [JDict [(py "event", JStr (py "RESUME"))]] /\
     rx st2 = []).
Proof.
  split.
  - intros st.
    refine (proj1 (C7_handshake_greeting_then_capabilities st
                     [Line (js "{'event': 'RESUME'}")] _) _ _);
      vm_compute; reflexivity.
  - intros st.
    refine (proj2 (proj2 (C7_handshake_greeting_then_capabilities st
                     [Line (js "{'event': 'RESUME'}")] _)
                     (js "{'QMP': {}}") [(py "QMP", JDict [])]
                     [Line (js "{'error': {'class': 'CommandNotFound', 'desc': 'no'}}")]
                     _ _ _) _ _
                  [] (js "{'error': {'class': 'CommandNotFound', 'desc': 'no'}}")
                  [(py "error", JDict [(py "class", JStr (py "CommandNotFound"));
                                       (py "desc", JStr (py "no"))])]
                  [] _ _ _ _);
      vm_compute; reflexivity.
Defined.




(** C9.  The address resolver yields a (host, port) pair exactly when the
    string contains exactly one [:] and the segment after it parses as an
    integer; a string with exactly one [:] whose port segment does not parse
    fails (the [ValueError] of [int] is raised again); every other string,
    with no [:] or with two or more, resolves to itself as a socket path.
    So ["localhost:4444"] gives host ["localhost"] and port 4444,
    ["/tmp/qmp.sock"] gives a path, and ["localhost:notaport"] fails. *)
Theorem C9_get_address_resolves_endpoint :
  (forall (int : pystr -> option Z) arg host port,
      get_address int arg = Ok (HostPort host port) <->
      exists seg, arg = host ++ 58 :: seg /\ ~ In 58 host /\ ~ In 58 seg /\
                  int seg = Some port) /\
  (forall (int : pystr -> option Z) arg,
      count_occ N.eq_dec arg 58 = 1%nat ->
      exists host seg,
        arg = host ++ 58 :: seg /\ ~ In 58 host /\ ~ In 58 seg /\
        get_address int arg = match int seg with
                              | Some port => Ok (HostPort host port)
                              | None => Raise ValueError
                              end) /\
  (forall (int : pystr -> option Z) arg,
      count_occ N.eq_dec arg 58 <> 1%nat -> get_address int arg = Ok (Path arg)) /\
  get_address py_int (py "localhost:4444") = Ok (HostPort (py "localhost") 4444) /\
  get_address py_int (py "/tmp/qmp.sock") = Ok (Path (py "/tmp/qmp.sock")) /\
  get_address py_int (py "localhost:notaport") = Raise ValueError.
Proof.
  split; [|split; [|split; [|repeat split]]].
  - intros int arg host port. split.
    + intros H.
      destruct (Nat.eq_dec (count_occ N.eq_dec arg 58) 1) as [E|E].
      * destruct (one_separator 58 arg E) as (h & t & -> & Hh & Ht).
        rewrite (get_address_host_port int h t Hh Ht) in H.
        destruct (int t) as [p|] eqn:P; [|discriminate].
        inversion H; subst. exists t. auto.
      * rewrite (get_address_path int arg E) in H. discriminate.
    + intros (seg & -> & Hh & Ht & P).
      now rewrite (get_address_host_port int host seg Hh Ht), P.
  - intros int arg E. destruct (one_separator 58 arg E) as (h & t & -> & Hh & Ht).
    exists h, t. repeat split; auto. now apply get_address_host_port.
  - intros int arg E. now apply get_address_path.
Qed.

Lemma C9_witness :
  (exists host seg,
      py "vm:5900" = host ++ 58 :: seg /\ ~ In 58 host /\ ~ In 58 seg /\
      get_address py_int (py "vm:5900") = match py_int seg with
                                          | Some port => Ok (HostPort host port)
                                          | None => Raise ValueError
                                          end) /\
  get_address py_int (py "a:b:c") = Ok (Path (py "a:b:c")).
Proof.
  split.
  - apply (proj1 (proj2 C9_get_address_resolves_endpoint) py_int (py "vm:5900")).
    reflexivity.
  - apply (proj1 (proj2 (proj2 C9_get_address_resolves_endpoint)) py_int (py "a:b:c")).
    vm_compute. discriminate.
Defined.

(** C10.  For every call [cmd(name, args, id)] the message written to the
    wire has the key ['arguments'] exactly when [args] is truthy and the key
    ['id'] exactly when [id] is truthy.  In particular an explicit empty dict
    of arguments is sent as a command without any ['arguments'] key, so the
    message read from the wire is not the object the caller described. *)
Theorem C10_arguments_and_id_sent_iff_truthy
    (st : qmp) (name : pystr) (args id : json) :
  send_ok st = true ->
  let msg := qmp_cmd_of name args id in
  sent (snd (cmd name args id st)) = sent st ++ [Json.dumps (JDict msg)] /\
  (wf_str name = true -> wf args = true -> wf id = true ->
   Json.loads (Json.dumps (JDict msg)) = Some (JDict msg)) /\
  has_key (py "execute") msg = true /\
  has_key (py "arguments") msg = truthy args /\
  has_key (py "id") msg = truthy id /\
  (args = JDict [] -> id = JNull ->
   msg = [(py "execute", JStr name)] /\
   msg <> [(py "execute", JStr name); (py "arguments", JDict [])]).
Proof.
  intros S msg. split; [|split; [|split; [|split; [|split]]]].
  - unfold cmd. now apply cmd_obj_writes.
  - intros Wn Wa Wi. apply JsonFacts.loads_dumps. unfold msg.
    rewrite qmp_cmd_of_cases. unfold wf; fold wf. apply andb_true_iff. split.
    + destruct (truthy args), (truthy id); reflexivity.
    + destruct (truthy args), (truthy id); cbn [app forallb fst snd];
        rewrite ?Wa, ?Wi; cbn [wf]; rewrite Wn; reflexivity.
  - unfold msg. rewrite qmp_cmd_of_cases. reflexivity.
  - unfold msg. rewrite qmp_cmd_of_cases.
    destruct (truthy args), (truthy id); reflexivity.
  - unfold msg. rewrite qmp_cmd_of_cases.
    destruct (truthy args), (truthy id); reflexivity.
  - intros -> ->. unfold msg. split; [reflexivity|]. discriminate.
Qed.

Lemma C10_witness :
  let st := fresh [Line (js "{'return': {}}")] Silent in
  sent (snd (cmd (py "stop") (JDict []) JNull st)) = [js "{'execute': 'stop'}"] /\
  has_key (py "arguments") (qmp_cmd_of (py "stop") (JDict []) JNull) = false /\
  has_key (py "id") (qmp_cmd_of (py "stop") (JDict []) JNull) = false.
Proof.
  intros st.
  destruct (C10_arguments_and_id_sent_iff_truthy st (py "stop") (JDict []) JNull
              eq_refl) as (H1 & _ & _ & H2 & H3 & _).
  split; [exact H1|]. split; [exact H2|exact H3].
Defined.

(** * Further properties of the module *)

Module QmpMore.

(** ** What a read does, whatever the peer sends *)

(** Induction on the input still to come: a read is one turn followed, when
    the turn goes round again, by a read of a shorter input. *)
Lemma json_read_induction (only_event : bool) (P : qmp -> result json * qmp -> Prop) :
  (forall st,
      (forall st1, (List.length (rx st1) < List.length (rx st))%nat ->
                   P st1 (json_read only_event st1)) ->
      P st (json_read_turn only_event (json_read only_event) st)) ->
  forall st, P st (json_read only_event st).
Proof.
  intros H st. remember (List.length (rx st)) as n eqn:E.
  revert st E. induction n as [n IH] using lt_wf_ind. intros st E.
  rewrite json_read_eq. apply H. intros st1 L. apply (IH (List.length (rx st1))); lia.
Qed.

Lemma recv_line_consumes (blk : bool) (pe : peer_end) (q q' : list item)
      (r : result pystr) :
  recv_line blk pe q = (r, q') ->
  exists consumed,
    q = consumed ++ q' /\
    match r with
    | Ok d => is_empty d = true \/ (exists idles, consumed = idles ++ [Line d])
    | Raise e => False
    | Hang => blk = true /\ pe = Silent
    end.
Proof.
  revert q'. induction q as [|[l|] q IH]; intros q' E; cbn [recv_line] in E.
  - exists []. destruct pe; [|destruct blk]; inversion E; subst; cbn; auto.
  - inversion E; subst. exists [Line l]. split; [reflexivity|].
    right. now exists [].
  - destruct blk.
    + destruct (IH q' E) as (c & -> & H). exists (Idle :: c). split; [reflexivity|].
      destruct r as [d| |]; auto.
      destruct H as [H|[idles ->]]; [now left|]. right. now exists (Idle :: idles).
    + inversion E; subst. exists [Idle]. split; [reflexivity|]. now left.
Qed.

(** What one call of [__json_read] does to the session: it takes a stretch
    off the input, appends to the queue the events that stretch held, and
    changes nothing else; and what it answers. *)
Lemma json_read_spec (only_event : bool) (st : qmp) :
  exists more consumed q',
    rx st = consumed ++ q' /\
    snd (json_read only_event st) = set_events (events st ++ more) (set_rx q' st) /\
    Forall (fun e => event_shaped e /\ received consumed e) more /\
    match fst (json_read only_event st) with
    | Ok v =>
        v = JNull \/
        (received consumed v /\
         (only_event = false -> py_in (py "event") v = Some false))
    | Raise e =>
        e = ValueError \/ e = TypeError
    | Hang => blocking st = true /\ rx_end st = Silent
    end.
Proof.
  revert st. apply (json_read_induction only_event
    (fun st out =>
       exists more consumed q',
         rx st = consumed ++ q' /\
         snd out = set_events (events st ++ more) (set_rx q' st) /\
         Forall (fun e => event_shaped e /\ received consumed e) more /\
         match fst out with
         | Ok v =>
             v = JNull \/
             (received consumed v /\
              (only_event = false -> py_in (py "event") v = Some false))
         | Raise e =>
             e = ValueError \/ e = TypeError
         | Hang => blocking st = true /\ rx_end st = Silent
         end)).
  intros st IH. unfold json_read_turn, bind, readline.
  destruct (recv_line (blocking st) (rx_end st) (rx st)) as [r q] eqn:E.
  destruct (recv_line_consumes _ _ _ _ _ E) as (c & R & H).
  assert (Z : set_events (events st ++ []) (set_rx q st) = set_rx q st)
    by (rewrite List.app_nil_r; now destruct st).
  destruct r as [data| |].
  - destruct (is_empty data) eqn:D.
    + exists [], c, q. cbn [ret fst snd]. rewrite Z.
      split; [exact R|]. split; [reflexivity|]. split; [constructor|]. now left.
    + destruct H as [H|[idles ->]]; [congruence|].
      unfold json_loads. destruct (Json.loads data) as [resp|] eqn:L; cbn [lift_opt ret raise].
      2:{ exists [], (idles ++ [Line data]), q. cbn [fst snd]. rewrite Z.
          split; [exact R|]. split; [reflexivity|]. split; [constructor|]. now left. }
      assert (Rv : received (idles ++ [Line data]) resp).
      { exists data. split; [|exact L]. apply in_or_app. right. now left. }
      unfold contains_key. destruct (py_in (py "event") resp) as [[|]|] eqn:K;
        cbn [lift_opt ret raise].
      * cbn [events_append]. destruct only_event; cbn [negb ret].
        -- exists [resp], (idles ++ [Line data]), q. cbn [fst snd].
           split; [exact R|]. split; [reflexivity|].
           split; [constructor; [split; [exact K|exact Rv]|constructor]|].
           right. split; [exact Rv|]. discriminate.
        -- set (st1 := set_events _ (set_rx q st)).
           destruct (IH st1) as (more & c1 & q1 & R1 & S1 & F1 & O1).
           { unfold st1. cbn [rx set_events set_rx]. rewrite R, !List.length_app.
             cbn [List.length]. lia. }
           assert (R1' : q = c1 ++ q1) by exact R1.
           exists (resp :: more), ((idles ++ [Line data]) ++ c1), q1.
           split; [now rewrite R, R1', List.app_assoc|].
           split; [rewrite S1; unfold st1;
                   cbn [set_events set_rx events rx rx_end blocking tx sent conn];
                   now rewrite <- List.app_assoc|].
           split.
           ++ constructor.
              ** split; [exact K|]. destruct Rv as (l & I & Ll). exists l. split; auto.
                 apply in_or_app. now left.
              ** eapply Forall_impl; [|exact F1]. cbn. intros e (Ee & l & I & Ll).
                 split; auto. exists l. split; auto. apply in_or_app. now right.
           ++ destruct (fst (json_read false st1)) as [v|e|]; [|exact O1|exact O1].
              destruct O1 as [->|((l & I & Ll) & Ev)]; [now left|]. right. split; auto.
              exists l. split; auto. apply in_or_app. now right.
      * exists [], (idles ++ [Line data]), q. cbn [fst snd]. rewrite Z.
        split; [exact R|]. split; [reflexivity|]. split; [constructor|].
        right. split; [exact Rv|]. intros _. exact K.
      * exists [], (idles ++ [Line data]), q. cbn [fst snd]. rewrite Z.
        split; [exact R|]. split; [reflexivity|]. split; [constructor|]. auto.
  - contradiction.
  - exists [], c, q. cbn [fst snd]. rewrite Z.
    split; [exact R|]. split; [reflexivity|]. split; [constructor|]. exact H.
Qed.

Lemma json_read_cases (only_event : bool) (st st' : qmp) (r : result json) :
  json_read only_event st = (r, st') ->
  exists more consumed q',
    rx st = consumed ++ q' /\
    st' = set_events (events st ++ more) (set_rx q' st) /\
    Forall (fun e => event_shaped e /\ received consumed e) more /\
    match r with
    | Ok v =>
        v = JNull \/
        (received consumed v /\
         (only_event = false -> py_in (py "event") v = Some false))
    | Raise e =>
        e = ValueError \/ e = TypeError
    | Hang => blocking st = true /\ rx_end st = Silent
    end.
Proof.
  intros J. pose proof (json_read_spec only_event st) as H. now rewrite J in H.
Qed.

(** The poll of [pull_event] and [get_events]: it never blocks; it either
    ends with the socket back in blocking mode, or fails on a line it cannot
    take, leaving the socket in non-blocking mode. *)
Lemma poll_cases (st : qmp) :
  exists more consumed q',
    rx st = consumed ++ q' /\
    Forall (fun e => event_shaped e /\ received consumed e) more /\
    (poll st = (Ok tt, polled more q' st) \/
     exists e, (e = ValueError \/ e = TypeError) /\
               poll st = (Raise e, set_events (events st ++ more)
                                     (set_rx q' (set_blocking false st)))).
Proof.
  unfold poll, bind, setblocking, try_socket_error.
  destruct (json_read false (set_blocking false st)) as [r st1] eqn:J.
  destruct (json_read_cases _ _ _ _ J) as (more & c & q' & R & -> & F & O).
  exists more, c, q'. split; [exact R|]. split; [exact F|].
  destruct r as [v|e|].
  - left. reflexivity.
  - destruct O as [->| ->].
    + right. exists ValueError. auto.
    + right. exists TypeError. auto.
  - destruct O as [O _]. discriminate.
Qed.

(** ** Sessions that follow one another *)

Lemma received_later (consumed q : list item) (v : json) :
  received q v -> received (consumed ++ q) v.
Proof. intros (l & I & L). exists l. split; [|exact L]. apply in_or_app. now right. Qed.

Lemma received_earlier (consumed q : list item) (v : json) :
  received consumed v -> received (consumed ++ q) v.
Proof. intros (l & I & L). exists l. split; [|exact L]. apply in_or_app. now left. Qed.

Lemma follows_refl (st : qmp) : follows st st.
Proof.
  split; [now exists []|]. split; [|now split].
  exists []. split; [now rewrite List.app_nil_r|constructor].
Qed.

Lemma follows_trans (a b c : qmp) : follows a b -> follows b c -> follows a c.
Proof.
  intros ((c1 & R1) & (m1 & E1 & F1) & P1 & C1) ((c2 & R2) & (m2 & E2 & F2) & P2 & C2).
  split; [exists (c1 ++ c2); now rewrite R1, R2, List.app_assoc|].
  split; [|split; congruence].
  exists (m1 ++ m2). split; [now rewrite E2, E1, List.app_assoc|].
  apply Forall_app. split; [exact F1|].
  eapply Forall_impl; [|exact F2]. cbn. intros e (Ev & Rv). split; [exact Ev|].
  rewrite R1. now apply received_later.
Qed.

(** Fields that only writes and mode changes touch. *)
Lemma follows_same_input (st st' : qmp) :
  rx st' = rx st -> events st' = events st -> rx_end st' = rx_end st ->
  conn st' = conn st -> follows st st'.
Proof.
  intros R E P C. split; [exists []; now rewrite R|]. split; [|now split].
  exists []. split; [now rewrite List.app_nil_r|constructor].
Qed.

Lemma json_read_follows (only_event : bool) (st : qmp) :
  follows st (snd (json_read only_event st)) /\
  blocking (snd (json_read only_event st)) = blocking st /\
  tx (snd (json_read only_event st)) = tx st /\
  sent (snd (json_read only_event st)) = sent st.
Proof.
  destruct (json_read_spec only_event st) as (more & c & q' & R & -> & F & _).
  cbn [rx events rx_end conn blocking tx sent set_events set_rx].
  split; [|auto]. split; [now exists c|]. split; [|now split].
  exists more. split; [reflexivity|].
  eapply Forall_impl; [|exact F]. cbn. intros e (Ev & Rv). split; [exact Ev|].
  rewrite R. now apply received_earlier.
Qed.

Lemma cmd_obj_follows (v : json) (st : qmp) :
  follows st (snd (cmd_obj v st)) /\
  blocking (snd (cmd_obj v st)) = blocking st /\
  (sent (snd (cmd_obj v st)) = sent st \/
   sent (snd (cmd_obj v st)) = sent st ++ [Json.dumps v]).
Proof.
  unfold cmd_obj, bind, try_socket_error, sendall.
  destruct (tx st) as [|[err|] t] eqn:T.
  - destruct (json_read_follows false (set_tx [] (sent st ++ [Json.dumps v]) st))
      as (F & B & _ & S).
    split; [exact F|]. split; [exact B|]. right. exact S.
  - cbn [err_getitem raise snd].
    split; [now apply follows_same_input|auto].
  - destruct (json_read_follows false (set_tx t (sent st ++ [Json.dumps v]) st))
      as (F & B & _ & S).
    split; [exact F|]. split; [exact B|]. right. exact S.
Qed.

(** What follows the answer in [command] and in the handshake looks at the
    answer only. *)
Lemma command_state (name : pystr) (kwds : dict) (st : qmp) :
  snd (command name kwds st) = snd (cmd name (JDict kwds) JNull st).
Proof.
  unfold command, bind. destruct (cmd name (JDict kwds) JNull st) as [[r| |] st1];
    try reflexivity.
  unfold contains_key. destruct (py_in (py "error") r) as [[|]|]; cbn [lift_opt ret raise];
    try reflexivity.
  - unfold getitem. destruct r as [| | | | |d]; try reflexivity.
    destruct (dict_get (py "error") d) as [err|]; cbn [lift_opt ret raise]; try reflexivity.
    destruct err as [| | | | |d']; try reflexivity.
    destruct (dict_get (py "desc") d'); reflexivity.
  - unfold getitem. destruct r as [| | | | |d]; try reflexivity.
    destruct (dict_get (py "return") d); reflexivity.
Qed.

Lemma negotiate_follows (st : qmp) :
  follows st (snd (negotiate_capabilities st)) /\
  blocking (snd (negotiate_capabilities st)) = blocking st.
Proof.
  set (P := fun s => follows st s /\ blocking s = blocking st).
  change (P (snd (negotiate_capabilities st))).
  unfold negotiate_capabilities. unfold bind at 1.
  destruct (json_read_follows false st) as (F1 & B1 & T1 & S1).
  destruct (json_read false st) as [[g| |] st1]; cbn [snd] in *;
    try (split; assumption).
  assert (G : forall g',
             P (snd ((has_qmp <- contains_key (py "QMP") g' ;;
                      if negb has_qmp then raise (QMPConnectError None)
                      else
                        resp <- cmd (py "qmp_capabilities") JNull JNull ;;
                        has_return <- contains_key (py "return") resp ;;
                        if has_return then ret g'
                        else raise QMPCapabilitiesError) st1))).
  { intros g'. unfold bind at 1. unfold contains_key at 1.
    destruct (py_in (py "QMP") g') as [[|]|]; cbn [lift_opt ret raise negb snd];
      try (split; assumption).
    unfold bind at 1. unfold cmd.
    destruct (cmd_obj_follows (JDict (qmp_cmd_of (py "qmp_capabilities") JNull JNull)) st1)
      as (F2 & B2 & _).
    destruct (cmd_obj _ st1) as [[resp| |] st2]; cbn [snd] in *;
      try (split; [eapply follows_trans; eassumption|congruence]).
    unfold bind, contains_key.
    destruct (py_in (py "return") resp) as [[|]|]; cbn [lift_opt ret raise snd];
      (split; [eapply follows_trans; eassumption|congruence]). }
  destruct g; try apply G. cbn [raise snd]. split; assumption.
Qed.

(** ** Calls that do not come back *)

Lemma json_read_hang (only_event : bool) (st : qmp) :
  fst (json_read only_event st) = Hang -> blocking st = true /\ rx_end st = Silent.
Proof.
  intros H. destruct (json_read_spec only_event st) as (m & c & q & _ & _ & _ & O).
  now rewrite H in O.
Qed.

Lemma cmd_obj_hang (v : json) (st : qmp) :
  fst (cmd_obj v st) = Hang -> blocking st = true /\ rx_end st = Silent.
Proof.
  unfold cmd_obj, bind, try_socket_error, sendall.
  destruct (tx st) as [|[err|] t];
    try (intros H; apply json_read_hang in H; exact H).
  discriminate.
Qed.

Lemma command_hang (name : pystr) (kwds : dict) (st : qmp) :
  fst (command name kwds st) = Hang -> fst (cmd name (JDict kwds) JNull st) = Hang.
Proof.
  unfold command, bind. destruct (cmd name (JDict kwds) JNull st) as [[r| |] st1];
    try discriminate; try reflexivity.
  unfold contains_key. destruct (py_in (py "error") r) as [[|]|]; cbn [lift_opt ret raise];
    try discriminate.
  - unfold getitem. destruct r as [| | | | |d]; try discriminate.
    destruct (dict_get (py "error") d) as [err|]; cbn [lift_opt ret raise]; try discriminate.
    destruct err as [| | | | |d']; try discriminate.
    destruct (dict_get (py "desc") d'); discriminate.
  - unfold getitem. destruct r as [| | | | |d]; try discriminate.
    destruct (dict_get (py "return") d); discriminate.
Qed.

Lemma negotiate_hang (st : qmp) :
  fst (negotiate_capabilities st) = Hang -> blocking st = true /\ rx_end st = Silent.
Proof.
  unfold negotiate_capabilities. unfold bind at 1.
  destruct (json_read_follows false st) as (F1 & B1 & _).
  pose proof (json_read_hang false st) as H1.
  destruct (json_read false st) as [[g| |] st1]; cbn [fst snd] in *;
    try discriminate; try (intros _; now apply H1).
  assert (G : forall g',
             fst ((has_qmp <- contains_key (py "QMP") g' ;;
                   if negb has_qmp then raise (QMPConnectError None)
                   else
                     resp <- cmd (py "qmp_capabilities") JNull JNull ;;
                     has_return <- contains_key (py "return") resp ;;
                     if has_return then ret g'
                     else raise QMPCapabilitiesError) st1) = Hang ->
             blocking st = true /\ rx_end st = Silent).
  { intros g'. unfold bind at 1. unfold contains_key at 1.
    destruct (py_in (py "QMP") g') as [[|]|]; cbn [lift_opt ret raise negb fst];
      try discriminate.
    unfold bind at 1. unfold cmd.
    pose proof (cmd_obj_hang (JDict (qmp_cmd_of (py "qmp_capabilities") JNull JNull)) st1)
      as H2.
    destruct (cmd_obj _ st1) as [[resp| |] st2]; cbn [fst] in *; try discriminate.
    - unfold bind, contains_key.
      destruct (py_in (py "return") resp) as [[|]|]; cbn [lift_opt ret raise fst];
        discriminate.
    - intros _. destruct (H2 eq_refl) as [A B].
      destruct F1 as (_ & _ & P & _). split; congruence. }
  destruct g; try apply G. discriminate.
Qed.

Lemma pull_event_hang (wait : bool) (st : qmp) :
  fst (pull_event wait st) = Hang -> wait = true /\ rx_end st = Silent.
Proof.
  destruct (poll_cases st) as (more & c & q' & _ & _ & [P|(e & _ & P)]);
    unfold pull_event, bind; rewrite P; [|discriminate].
  cbn [get_events_attr].
  destruct (negb (truthy (JList (events (polled more q' st)))) && wait) eqn:W.
  - apply andb_true_iff in W. destruct W as [_ ->].
    pose proof (json_read_hang true (polled more q' st)) as H.
    destruct (json_read true (polled more q' st)) as [[r| |] st2]; cbn [fst ret] in *.
    + destruct (events st2); discriminate.
    + discriminate.
    + intros _. destruct (H eq_refl) as [_ E]. now split.
  - cbn [ret]. destruct (events (polled more q' st)); discriminate.
Qed.

Lemma get_events_hang (wait : bool) (st : qmp) :
  fst (get_events wait st) = Hang -> wait = true /\ rx_end st = Silent.
Proof.
  destruct (poll_cases st) as (more & c & q' & _ & _ & [P|(e & _ & P)]);
    unfold get_events, bind; rewrite P; [|discriminate].
  cbn [get_events_attr].
  destruct (negb (truthy (JList (events (polled more q' st)))) && wait) eqn:W.
  - apply andb_true_iff in W. destruct W as [_ ->].
    pose proof (json_read_hang true (polled more q' st)) as H.
    destruct (json_read true (polled more q' st)) as [[r| |] st2]; cbn [fst ret] in *.
    + destruct r; discriminate.
    + discriminate.
    + intros _. destruct (H eq_refl) as [_ E]. now split.
  - cbn [ret]. discriminate.
Qed.

(** ** The two consumers of the queue, in general *)

Lemma poll_follows (st : qmp) :
  follows st (snd (poll st)) /\
  sent (snd (poll st)) = sent st /\ tx (snd (poll st)) = tx st /\
  ((fst (poll st) = Ok tt /\ blocking (snd (poll st)) = true) \/
   ((fst (poll st) = Raise ValueError \/ fst (poll st) = Raise TypeError) /\
    blocking (snd (poll st)) = false)).
Proof.
  destruct (poll_cases st) as (more & c & q' & R & F & [P|(e & He & P)]); rewrite P;
    cbn [fst snd polled rx events rx_end conn sent tx blocking
         set_blocking set_events set_rx].
  - split; [|auto]. split; [now exists c|]. split; [|now split].
    exists more. split; [reflexivity|].
    eapply Forall_impl; [|exact F]. cbn. intros x (Ev & Rv). split; [exact Ev|].
    rewrite R. now apply received_earlier.
  - split.
    + split; [now exists c|]. split; [|now split].
      exists more. split; [reflexivity|].
      eapply Forall_impl; [|exact F]. cbn. intros x (Ev & Rv). split; [exact Ev|].
      rewrite R. now apply received_earlier.
    + split; [reflexivity|]. split; [reflexivity|]. right. split; [|reflexivity].
      destruct He as [->| ->]; auto.
Qed.

Lemma json_read_raises (only_event : bool) (st : qmp) (e : exn) :
  fst (json_read only_event st) = Raise e ->
  e = ValueError \/ e = TypeError.
Proof.
  intros H. destruct (json_read_spec only_event st) as (m & c & q & _ & _ & _ & O).
  now rewrite H in O.
Qed.

(** The read of the wait path ([only_event]) queues at most one event, the
    one it returns. *)
Lemma json_read_wait_queue (st : qmp) :
  (exists v, fst (json_read true st) = Ok v /\ event_shaped v /\
             events (snd (json_read true st)) = events st ++ [v]) \/
  ((forall v, fst (json_read true st) = Ok v -> ~ event_shaped v) /\
   events (snd (json_read true st)) = events st).
Proof.
  rewrite json_read_eq. unfold json_read_turn, bind, readline.
  destruct (recv_line (blocking st) (rx_end st) (rx st)) as [[data| |] q];
    try (right; split; [discriminate|reflexivity]).
  destruct (is_empty data).
  - right. cbn [ret fst snd]. split; [|reflexivity].
    intros v [= <-]. discriminate.
  - unfold json_loads. destruct (Json.loads data) as [resp|]; cbn [lift_opt ret raise];
      [|right; split; [discriminate|reflexivity]].
    unfold contains_key. destruct (py_in (py "event") resp) as [[|]|] eqn:K;
      cbn [lift_opt ret raise events_append negb fst snd].
    + left. exists resp. repeat split. exact K.
    + right. split; [|reflexivity]. intros v [= <-]. unfold event_shaped. congruence.
    + right. split; [discriminate|reflexivity].
Qed.

(** Every outcome of [pull_event]: what it returns is the head of the queue
    as the reads left it; it raises nothing but [IndexError] (on an empty
    queue), [ValueError] and [TypeError] (on a line it cannot take); and it
    writes nothing. *)
Lemma pull_event_cases (wait : bool) (st : qmp) :
  exists more,
    Forall (fun e => event_shaped e /\ received (rx st) e) more /\
    sent (snd (pull_event wait st)) = sent st /\
    tx (snd (pull_event wait st)) = tx st /\
    rx_end (snd (pull_event wait st)) = rx_end st /\
    conn (snd (pull_event wait st)) = conn st /\
    match fst (pull_event wait st) with
    | Ok v =>
        v :: events (snd (pull_event wait st)) = events st ++ more /\
        blocking (snd (pull_event wait st)) = true
    | Raise e =>
        events (snd (pull_event wait st)) = events st ++ more /\
        ((e = IndexError /\ events st ++ more = [] /\
          blocking (snd (pull_event wait st)) = true) \/
         e = ValueError \/ e = TypeError)
    | Hang => events (snd (pull_event wait st)) = events st ++ more /\
              wait = true /\ events st ++ more = []
    end.
Proof.
  set (Q := fun R : result json * qmp =>
    exists more,
      Forall (fun e => event_shaped e /\ received (rx st) e) more /\
      sent (snd R) = sent st /\ tx (snd R) = tx st /\
      rx_end (snd R) = rx_end st /\ conn (snd R) = conn st /\
      match fst R with
      | Ok v => v :: events (snd R) = events st ++ more /\ blocking (snd R) = true
      | Raise e =>
          events (snd R) = events st ++ more /\
          ((e = IndexError /\ events st ++ more = [] /\ blocking (snd R) = true) \/
           e = ValueError \/ e = TypeError)
      | Hang => events (snd R) = events st ++ more /\
                wait = true /\ events st ++ more = []
      end).
  change (Q (pull_event wait st)).
  destruct (poll_follows st) as (F1 & S1 & T1 & O1).
  unfold pull_event. unfold bind at 1.
  destruct (poll st) as [r1 st1]. cbn [fst snd] in *.
  destruct O1 as [[-> B1]|[[-> | ->] B1]].
  2,3: (destruct F1 as (_ & (m1 & E1 & M1) & P1 & C1);
        exists m1; cbn [fst snd];
        split; [exact M1|]; split; [exact S1|]; split; [exact T1|];
        split; [exact P1|]; split; [exact C1|]; split; [exact E1|]; auto).
  unfold bind at 1. cbn [get_events_attr].
  assert (Pop : forall st2 : qmp,
             follows st st2 -> sent st2 = sent st -> tx st2 = tx st ->
             blocking st2 = true ->
             Q ((evs <- get_events_attr ;;
                 match evs with
                 | [] => raise IndexError
                 | event :: rest => fun st => (Ok event, set_events rest st)
                 end) st2)).
  { intros st2 (_ & (m & E & M) & P & C) S T B. exists m. unfold bind.
    cbn [get_events_attr]. destruct (events st2) as [|ev rest] eqn:K.
    - cbn [raise fst snd].
      split; [exact M|]. split; [exact S|]. split; [exact T|]. split; [exact P|].
      split; [exact C|]. split; [congruence|]. left.
      split; [reflexivity|]. split; [congruence|exact B].
    - cbn [fst snd sent tx rx_end conn events blocking set_events].
      split; [exact M|]. split; [exact S|]. split; [exact T|]. split; [exact P|].
      split; [exact C|]. split; [congruence|exact B]. }
  destruct (negb (truthy (JList (events st1))) && wait) eqn:W.
  - apply andb_true_iff in W. destruct W as [W1 ->].
    destruct (json_read_follows true st1) as (F2 & B2 & T2 & S2).
    pose proof (json_read_raises true st1) as O2.
    unfold bind in Pop |- *.
    destruct (json_read true st1) as [r2 st2] eqn:J. cbn [fst snd] in *.
    pose proof (follows_trans _ _ _ F1 F2) as F12.
    destruct r2 as [v|e|].
    + cbn [ret]. apply Pop; auto; congruence.
    + destruct F12 as (_ & (m & E & M) & P & C). exists m. cbn [fst snd].
      split; [exact M|]. split; [congruence|]. split; [congruence|].
      split; [exact P|]. split; [exact C|]. split; [exact E|]. right.
      destruct (O2 e eq_refl) as [->| ->]; auto.
    + destruct F12 as (_ & (m & E & M) & P & C). exists m. cbn [fst snd].
      split; [exact M|]. split; [congruence|]. split; [congruence|].
      split; [exact P|]. split; [exact C|]. split; [exact E|].
      split; [reflexivity|].
      assert (E0 : events st1 = [])
        by (destruct (events st1); [reflexivity|discriminate]).
      destruct (json_read_wait_queue st1) as [(v & Hv & _)|[_ Hq]].
      * rewrite J in Hv. discriminate.
      * rewrite J in Hq. cbn [snd] in Hq. congruence.
  - unfold bind in Pop |- *. cbn [ret]. apply Pop; auto.
Qed.

(** Every outcome of [get_events]: the list it returns is the queue as the
    reads left it, and the queue stays in place. *)
Lemma get_events_cases (wait : bool) (st : qmp) :
  follows st (snd (get_events wait st)) /\
  sent (snd (get_events wait st)) = sent st /\
  tx (snd (get_events wait st)) = tx st /\
  match fst (get_events wait st) with
  | Ok l => l = events (snd (get_events wait st)) /\
            blocking (snd (get_events wait st)) = true
  | Raise e =>
      e = ValueError \/ e = TypeError \/
      (e = QMPConnectError (Some (py "Error while reading from socket")) /\
       events (snd (get_events wait st)) = [] /\ wait = true)
  | Hang => wait = true
  end.
Proof.
  set (Q := fun R : result (list json) * qmp =>
    follows st (snd R) /\ sent (snd R) = sent st /\ tx (snd R) = tx st /\
    match fst R with
    | Ok l => l = events (snd R) /\ blocking (snd R) = true
    | Raise e =>
        e = ValueError \/ e = TypeError \/
        (e = QMPConnectError (Some (py "Error while reading from socket")) /\
         events (snd R) = [] /\ wait = true)
    | Hang => wait = true
    end).
  change (Q (get_events wait st)).
  destruct (poll_follows st) as (F1 & S1 & T1 & O1).
  unfold get_events. unfold bind at 1.
  destruct (poll st) as [r1 st1]. cbn [fst snd] in *.
  destruct O1 as [[-> B1]|[[-> | ->] B1]].
  2,3: (unfold Q; cbn [fst snd]; split; [exact F1|]; split; [exact S1|];
        split; [exact T1|]; auto).
  unfold bind. cbn [get_events_attr].
  destruct (negb (truthy (JList (events st1))) && wait) eqn:W.
  - apply andb_true_iff in W. destruct W as [W1 ->].
    assert (E0 : events st1 = []) by (destruct (events st1); [reflexivity|discriminate]).
    destruct (json_read_follows true st1) as (F2 & B2 & T2 & S2).
    pose proof (json_read_raises true st1) as O2.
    destruct (json_read true st1) as [r2 st2] eqn:J. cbn [fst snd] in *.
    pose proof (follows_trans _ _ _ F1 F2) as F12.
    destruct r2 as [v|e|].
    + assert (N : v = JNull -> events st2 = []).
      { intros ->. destruct (json_read_wait_queue st1) as [(v & Hv & Ev & _)|[_ Hq]].
        - rewrite J in Hv. cbn [fst] in Hv. inversion Hv; subst. discriminate.
        - rewrite J in Hq. cbn [snd] in Hq. congruence. }
      destruct v; cbn [raise ret fst snd get_events_attr]; unfold Q;
        cbn [fst snd get_events_attr];
        (split; [exact F12|]; split; [congruence|]; split; [congruence|]).
      * right. right. auto.
      * split; [reflexivity|congruence].
      * split; [reflexivity|congruence].
      * split; [reflexivity|congruence].
      * split; [reflexivity|congruence].
      * split; [reflexivity|congruence].
    + unfold Q. cbn [fst snd]. split; [exact F12|]. split; [congruence|].
      split; [congruence|].
      destruct (O2 e eq_refl) as [->| ->]; auto.
    + unfold Q. cbn [fst snd]. split; [exact F12|]. split; [congruence|].
      split; [congruence|]. reflexivity.
  - unfold Q. cbn [ret fst snd get_events_attr]. split; [exact F1|]. split; [exact S1|].
    split; [exact T1|]. split; [reflexivity|exact B1].
Qed.

(** ** Lines that cannot be taken *)

Lemma json_read_bad_line (only_event : bool) (st : qmp) (l : pystr) (q : list item) :
  rx st = Line l :: q -> is_empty l = false -> Json.loads l = None ->
  json_read only_event st = (Raise ValueError, set_rx q st).
Proof.
  intros R D L. rewrite json_read_eq. unfold json_read_turn, bind, readline.
  rewrite R. cbn [recv_line]. rewrite D. unfold json_loads. now rewrite L.
Qed.

(** ** The queue over a whole session *)

Lemma pull_event_input (wait : bool) (st : qmp) :
  exists consumed, rx st = consumed ++ rx (snd (pull_event wait st)).
Proof.
  set (Q := fun R : result json * qmp => exists consumed, rx st = consumed ++ rx (snd R)).
  change (Q (pull_event wait st)).
  destruct (poll_follows st) as (F1 & _).
  unfold pull_event. unfold bind at 1.
  destruct (poll st) as [r1 st1]. cbn [fst snd] in F1.
  destruct r1 as [[]|e|]; [|destruct F1 as (X & _); exact X..].
  unfold bind at 1. cbn [get_events_attr].
  assert (Pop : forall st2 : qmp,
             follows st st2 ->
             Q ((evs <- get_events_attr ;;
                 match evs with
                 | [] => raise IndexError
                 | event :: rest => fun st => (Ok event, set_events rest st)
                 end) st2)).
  { intros st2 (X & _). unfold Q, bind. cbn [get_events_attr].
    destruct (events st2); cbn [raise snd rx set_events]; exact X. }
  destruct (negb (truthy (JList (events st1))) && wait).
  - destruct (json_read_follows true st1) as (F2 & _).
    unfold bind in Pop |- *.
    destruct (json_read true st1) as [r2 st2]. cbn [fst snd] in F2.
    pose proof (follows_trans _ _ _ F1 F2) as F12.
    destruct r2 as [v|e|]; [cbn [ret]; now apply Pop|destruct F12 as (X & _); exact X..].
  - unfold bind in Pop |- *. cbn [ret]. now apply Pop.
Qed.

Lemma queue_from_follows (input : list item) (st st' : qmp) :
  queue_from input st -> follows st st' -> queue_from input st'.
Proof.
  intros ((c & I) & Q) ((c' & R) & (m & E & M) & _).
  split.
  - exists (c ++ c'). now rewrite I, R, List.app_assoc.
  - rewrite E. apply Forall_app. split; [exact Q|].
    eapply Forall_impl; [|exact M]. cbn. intros e (Ev & Rv).
    split; [exact Ev|]. rewrite I. now apply received_later.
Qed.

Lemma connect_follows (negotiate : bool) (st : qmp) :
  follows st (snd (connect negotiate st)).
Proof.
  unfold connect, bind, sock_connect. destruct (conn st); cbn [snd].
  - apply follows_refl.
  - destruct negotiate; [apply negotiate_follows|apply follows_refl].
Qed.

Lemma accept_follows (st : qmp) : follows st (snd (accept st)).
Proof.
  unfold accept, bind, sock_connect. destruct (conn st); cbn [snd].
  - apply follows_refl.
  - apply negotiate_follows.
Qed.

Lemma run_queue_from (input : list item) (c : call) (st : qmp) :
  queue_from input st -> queue_from input (snd (run c st)).
Proof.
  intros Q. destruct c as [n| |v|name args id|name kwds|w|w|]; cbn [run].
  - pose proof (connect_follows n st) as F.
    destruct (connect n st) as [r st']. cbn [snd] in *.
    exact (queue_from_follows _ _ _ Q F).
  - pose proof (accept_follows st) as F.
    destruct (accept st) as [r st']. cbn [snd] in *.
    exact (queue_from_follows _ _ _ Q F).
  - destruct (cmd_obj_follows v st) as (F & _).
    destruct (cmd_obj v st) as [r st']. cbn [snd] in *.
    exact (queue_from_follows _ _ _ Q F).
  - unfold cmd.
    destruct (cmd_obj_follows (JDict (qmp_cmd_of name args id)) st) as (F & _).
    destruct (cmd_obj _ st) as [r st']. cbn [snd] in *.
    exact (queue_from_follows _ _ _ Q F).
  - pose proof (command_state name kwds st) as S. unfold cmd in S.
    destruct (cmd_obj_follows (JDict (qmp_cmd_of name (JDict kwds) JNull)) st) as (F & _).
    rewrite <- S in F.
    destruct (command name kwds st) as [r st']. cbn [snd] in *.
    exact (queue_from_follows _ _ _ Q F).
  - destruct (pull_event_input w st) as (c' & R).
    destruct (pull_event_cases w st) as (m & M & _ & _ & _ & _ & O).
    destruct Q as ((c & I) & Q).
    assert (A : Forall (fun e => event_shaped e /\ received input e) (events st ++ m)).
    { apply Forall_app. split; [exact Q|].
      eapply Forall_impl; [|exact M]. cbn. intros e (Ev & Rv).
      split; [exact Ev|]. rewrite I. now apply received_later. }
    destruct (pull_event w st) as [r st']. cbn [fst snd] in *.
    split; [exists (c ++ c'); now rewrite I, R, List.app_assoc|].
    destruct r as [v|e|].
    + destruct O as (E & _). rewrite <- E in A. now inversion A.
    + destruct O as (E & _). now rewrite E.
    + destruct O as (E & _). now rewrite E.
  - destruct (get_events_cases w st) as (F & _).
    destruct (get_events w st) as [r st']. cbn [snd] in *.
    exact (queue_from_follows _ _ _ Q F).
  - unfold clear_events. cbn [snd]. destruct Q as (I & _).
    split; [exact I|]. destruct st; cbn. constructor.
Qed.

Lemma session_queue_from (input : list item) (calls : list call) :
  forall st, queue_from input st -> queue_from input (session calls st).
Proof.
  induction calls as [|c cs IH]; intros st Q; cbn [session]; [exact Q|].
  pose proof (run_queue_from input c st Q) as Q'.
  destruct (run c st) as [back st']. cbn [snd] in Q'.
  destruct back; [now apply IH|exact Q'].
Qed.

Lemma fresh_queue_from (input : list item) (pe : peer_end) :
  queue_from input (fresh input pe).
Proof. split; [now exists []|constructor]. Qed.

(** ** A poll that fails *)

Lemma get_events_failed_poll (st : qmp) (e : exn) :
  fst (get_events false st) = Raise e -> blocking (snd (get_events false st)) = false.
Proof.
  set (Q := fun R : result (list json) * qmp => fst R = Raise e -> blocking (snd R) = false).
  change (Q (get_events false st)).
  pose proof (poll_follows st) as (_ & _ & _ & P).
  unfold get_events. unfold bind at 1.
  destruct (poll st) as [[[]|e1|] st1]; cbn [fst snd] in *.
  - unfold Q, bind, get_events_attr. rewrite andb_false_r. cbn. discriminate.
  - destruct P as [[P _]|[_ B1]]; [discriminate|]. intros _. exact B1.
  - unfold Q. cbn. discriminate.
Qed.

Lemma pull_event_failed_poll (st : qmp) (e : exn) :
  fst (pull_event false st) = Raise e -> e <> IndexError ->
  blocking (snd (pull_event false st)) = false.
Proof.
  set (Q := fun R : result json * qmp =>
              fst R = Raise e -> e <> IndexError -> blocking (snd R) = false).
  change (Q (pull_event false st)).
  pose proof (poll_follows st) as (_ & _ & _ & P).
  unfold pull_event. unfold bind at 1.
  destruct (poll st) as [[[]|e1|] st1]; cbn [fst snd] in *.
  - unfold Q, bind, get_events_attr. rewrite andb_false_r. cbn [ret].
    destruct (events st1); cbn; [|discriminate].
    intros X NI. injection X as <-. now contradiction NI.
  - destruct P as [[P _]|[_ B1]]; [discriminate|]. intros _ _. exact B1.
  - unfold Q. cbn. discriminate.
Qed.

Lemma cmd_nonblocking_nothing_pending (name : pystr) (args id : json) (st : qmp) :
  blocking st = false -> nothing_pending st = true -> send_ok st = true ->
  cmd name args id st
  = (Ok JNull,
     set_rx (tl (rx st))
       (set_tx (tl (tx st))
          (sent st ++ [Json.dumps (JDict (qmp_cmd_of name args id))]) st)).
Proof.
  intros B N S. unfold cmd. rewrite cmd_obj_sent by exact S.
  rewrite json_read_eq. unfold json_read_turn, bind, readline.
  unfold nothing_pending in N.
  destruct st as [ev rq pe blk t se co]. cbn in N, B, S |- *. subst.
  destruct rq as [|[l|] q]; try discriminate; [destruct pe|]; reflexivity.
Qed.

(** ** A response that arrives when no command waits for it *)

Lemma poll_response (st : qmp) (pre rest : list item) (rl : pystr) (resp : dict) :
  rx st = pre ++ Line rl :: rest ->
  event_burst false pre = true ->
  Json.loads rl = Some (JDict resp) ->
  has_key (py "event") resp = false ->
  poll st = (Ok tt, polled (decoded pre) rest st).
Proof.
  intros R B L K. unfold poll, bind, setblocking, try_socket_error.
  rewrite (json_read_burst pre (Line rl :: rest) (set_blocking false st)) by auto.
  rewrite (json_read_response false _ rl rest resp) by auto.
  unfold polled. destruct st; reflexivity.
Qed.

(** ** What is written *)

Lemma printable_hexdigit (n : N) : n < 16 -> printable (Json.hexdigit n).
Proof.
  intros H. unfold Json.hexdigit, printable.
  destruct (N.ltb_spec n 10); cbn [chr]; vm_compute (chr _); lia.
Qed.

Lemma printable_backslash_u (n : N) : Forall printable (Json.backslash_u n).
Proof.
  unfold Json.backslash_u, Json.hex4.
  repeat (apply Forall_cons || apply Forall_nil);
    try (apply printable_hexdigit; apply N.mod_lt; discriminate);
    vm_compute; split; discriminate.
Qed.

Lemma printable_escape_char (c : N) : Forall printable (Json.escape_char c).
Proof.
  unfold Json.escape_char.
  repeat (match goal with
          | |- Forall _ (if ?b then _ else _) => destruct b eqn:?
          end;
          [repeat (apply Forall_cons || apply Forall_nil); vm_compute; split; discriminate|]).
  destruct (N.leb 32 c && N.leb c 126) eqn:P.
  - apply andb_true_iff in P. destruct P as [A B].
    apply N.leb_le in A. apply N.leb_le in B. repeat (apply Forall_cons || apply Forall_nil); split; assumption.
  - destruct (N.ltb c 65536); [apply printable_backslash_u|].
    cbv zeta. apply Forall_app. split; apply printable_backslash_u.
Qed.

Lemma printable_string (s : pystr) : Forall printable (Json.encode_basestring_ascii s).
Proof.
  unfold Json.encode_basestring_ascii, Json.escape.
  constructor; [vm_compute; split; discriminate|].
  apply Forall_app. split; [|repeat (apply Forall_cons || apply Forall_nil); vm_compute; split; discriminate].
  induction s as [|c r IH]; cbn [flat_map]; [constructor|].
  apply Forall_app. split; [apply printable_escape_char|exact IH].
Qed.

Lemma printable_chars_of_uint (d : Decimal.uint) : Forall printable (Json.chars_of_uint d).
Proof.
  induction d; cbn [Json.chars_of_uint]; constructor; auto;
    vm_compute; split; discriminate.
Qed.

Lemma printable_repr_int (z : Z) : Forall printable (Json.repr_int z).
Proof.
  unfold Json.repr_int. destruct (Z.to_int z).
  - apply printable_chars_of_uint.
  - constructor; [vm_compute; split; discriminate|apply printable_chars_of_uint].
Qed.

Lemma printable_py_sep :
  Forall printable (py ", ") /\ Forall printable (py ": ").
Proof. split; repeat (apply Forall_cons || apply Forall_nil); vm_compute; split; discriminate. Qed.

Lemma dumps_printable (v : json) : Forall printable (Json.dumps v).
Proof.
  destruct printable_py_sep as [Comma Colon].
  induction v as [|b|z|s|l IH|d IH] using json_ind.
  - repeat (apply Forall_cons || apply Forall_nil); vm_compute; split; discriminate.
  - destruct b; repeat (apply Forall_cons || apply Forall_nil); vm_compute; split; discriminate.
  - apply printable_repr_int.
  - apply printable_string.
  - cbn [Json.dumps]. constructor; [vm_compute; split; discriminate|].
    apply Forall_app. split; [|repeat (apply Forall_cons || apply Forall_nil); vm_compute; split; discriminate].
    destruct IH as [|x r Hx Hr]; [constructor|].
    apply Forall_app. split; [exact Hx|].
    induction Hr as [|y r' Hy Hr' IHr]; cbn [flat_map]; [constructor|].
    apply Forall_app. split; [|exact IHr].
    apply Forall_app. split; [exact Comma|exact Hy].
  - cbn [Json.dumps]. constructor; [vm_compute; split; discriminate|].
    apply Forall_app. split; [|repeat (apply Forall_cons || apply Forall_nil); vm_compute; split; discriminate].
    destruct IH as [|x r Hx Hr]; [constructor|].
    apply Forall_app. split; [apply printable_string|].
    apply Forall_app. split; [exact Colon|].
    apply Forall_app. split; [exact Hx|].
    induction Hr as [|y r' Hy Hr' IHr]; cbn [flat_map]; [constructor|].
    apply Forall_app. split; [|exact IHr].
    apply Forall_app. split; [exact Comma|].
    apply Forall_app. split; [apply printable_string|].
    apply Forall_app. split; [exact Colon|exact Hy].
Qed.

Lemma negotiate_state (st : qmp) :
  snd (negotiate_capabilities st) = snd (json_read false st) \/
  snd (negotiate_capabilities st)
  = snd (cmd (py "qmp_capabilities") JNull JNull (snd (json_read false st))).
Proof.
  set (P := fun s : qmp =>
              s = snd (json_read false st) \/
              s = snd (cmd (py "qmp_capabilities") JNull JNull
                         (snd (json_read false st)))).
  change (P (snd (negotiate_capabilities st))).
  unfold negotiate_capabilities. unfold bind at 1. subst P. cbv beta.
  destruct (json_read false st) as [[g| |] st1]; cbn [snd]; auto.
  set (P := fun s : qmp =>
              s = st1 \/ s = snd (cmd (py "qmp_capabilities") JNull JNull st1)).
  assert (G : forall g',
             P (snd ((has_qmp <- contains_key (py "QMP") g' ;;
                      if negb has_qmp then raise (QMPConnectError None)
                      else
                        resp <- cmd (py "qmp_capabilities") JNull JNull ;;
                        has_return <- contains_key (py "return") resp ;;
                        if has_return then ret g'
                        else raise QMPCapabilitiesError) st1))).
  { intros g'. unfold bind at 1. unfold contains_key at 1.
    destruct (py_in (py "QMP") g') as [[|]|]; cbn [lift_opt ret raise negb snd];
      try (left; reflexivity).
    right. unfold bind at 1.
    destruct (cmd (py "qmp_capabilities") JNull JNull st1) as [[resp| |] st2];
      cbn [snd]; auto.
    unfold bind, contains_key.
    destruct (py_in (py "return") resp) as [[|]|]; reflexivity. }
  match goal with |- ?a = st1 \/ _ => change (P a) end.
  destruct g; try apply G. left. reflexivity.
Qed.

Lemma written_refl (st : qmp) : exists vs, sent st = sent st ++ map Json.dumps vs.
Proof. exists []. now rewrite List.app_nil_r. Qed.

Lemma cmd_obj_written (v : json) (st : qmp) :
  exists vs, sent (snd (cmd_obj v st)) = sent st ++ map Json.dumps vs.
Proof.
  destruct (cmd_obj_follows v st) as (_ & _ & [S|S]); rewrite S.
  - apply written_refl.
  - now exists [v].
Qed.

Lemma negotiate_written (st : qmp) :
  exists vs, sent (snd (negotiate_capabilities st)) = sent st ++ map Json.dumps vs.
Proof.
  destruct (json_read_follows false st) as (_ & _ & _ & S).
  destruct (negotiate_state st) as [E|E]; rewrite E.
  - rewrite S. apply written_refl.
  - unfold cmd.
    destruct (cmd_obj_written (JDict (qmp_cmd_of (py "qmp_capabilities") JNull JNull))
                (snd (json_read false st))) as (vs & W).
    exists vs. now rewrite W, S.
Qed.

Lemma run_written (c : call) (st : qmp) :
  exists vs, sent (snd (run c st)) = sent st ++ map Json.dumps vs.
Proof.
  destruct c as [n| |v|name args id|name kwds|w|w|]; cbn [run].
  - pose proof (negotiate_written st) as N. revert N.
    unfold connect, bind, sock_connect.
    destruct (conn st); cbn [snd]; [intros _; apply written_refl|].
    destruct n; [|intros _; apply written_refl].
    destruct (negotiate_capabilities st); cbn [snd]. auto.
  - pose proof (negotiate_written st) as N. revert N.
    unfold accept, bind, sock_connect.
    destruct (conn st); cbn [snd]; [intros _; apply written_refl|].
    destruct (negotiate_capabilities st); cbn [snd]. auto.
  - pose proof (cmd_obj_written v st) as W.
    destruct (cmd_obj v st); cbn [snd] in *. exact W.
  - unfold cmd.
    pose proof (cmd_obj_written (JDict (qmp_cmd_of name args id)) st) as W.
    destruct (cmd_obj _ st); cbn [snd] in *. exact W.
  - pose proof (command_state name kwds st) as S. unfold cmd in S.
    pose proof (cmd_obj_written (JDict (qmp_cmd_of name (JDict kwds) JNull)) st) as W.
    rewrite <- S in W. destruct (command name kwds st); cbn [snd] in *. exact W.
  - destruct (pull_event_cases w st) as (_ & _ & S & _).
    destruct (pull_event w st); cbn [snd] in *. rewrite S. apply written_refl.
  - destruct (get_events_cases w st) as (_ & S & _).
    destruct (get_events w st); cbn [snd] in *. rewrite S. apply written_refl.
  - unfold clear_events. cbn [snd]. destruct st; cbn. exists [].
    now rewrite List.app_nil_r.
Qed.

Lemma session_written (calls : list call) :
  forall st, exists vs, sent (session calls st) = sent st ++ map Json.dumps vs.
Proof.
  induction calls as [|c cs IH]; intros st; cbn [session]; [apply written_refl|].
  destruct (run_written c st) as (v1 & W1).
  destruct (run c st) as [back st']. cbn [snd] in W1.
  destruct back; [|now exists v1].
  destruct (IH st') as (v2 & W2). exists (v1 ++ v2).
  now rewrite W2, W1, map_app, List.app_assoc.
Qed.

(** ** What a command comes back with *)

Lemma json_read_ok (only_event : bool) (st : qmp) (v : json) :
  fst (json_read only_event st) = Ok v ->
  v = JNull \/
  (received (rx st) v /\ (only_event = false -> py_in (py "event") v = Some false)).
Proof.
  intros H. destruct (json_read_spec only_event st) as (m & c & q & R & _ & _ & O).
  rewrite H in O. destruct O as [->|(Rv & Ev)]; [now left|right].
  split; [|exact Ev]. rewrite R. now apply received_earlier.
Qed.

Lemma cmd_obj_cases (v : json) (st : qmp) :
  match fst (cmd_obj v st) with
  | Ok r =>
      r = JNull \/
      (received (rx st) r /\ py_in (py "event") r = Some false /\
       sent (snd (cmd_obj v st)) = sent st ++ [Json.dumps v])
  | Raise e => e = ValueError \/ e = TypeError
  | Hang => blocking st = true /\ rx_end st = Silent
  end.
Proof.
  pose proof (cmd_obj_hang v st) as Hg. revert Hg.
  unfold cmd_obj, bind, try_socket_error, sendall.
  assert (G : forall t,
             let s1 := set_tx t (sent st ++ [Json.dumps v]) st in
             (fst (json_read false s1) = Hang -> blocking st = true /\ rx_end st = Silent) ->
             match fst (json_read false s1) with
             | Ok r =>
                 r = JNull \/
                 (received (rx st) r /\ py_in (py "event") r = Some false /\
                  sent (snd (json_read false s1)) = sent st ++ [Json.dumps v])
             | Raise e => e = ValueError \/ e = TypeError
             | Hang => blocking st = true /\ rx_end st = Silent
             end).
  { intros t s1 Hg.
    pose proof (json_read_ok false s1) as O.
    pose proof (json_read_raises false s1) as E.
    destruct (json_read_follows false s1) as (_ & _ & _ & S).
    destruct (fst (json_read false s1)) as [r|e|].
    - destruct (O r eq_refl) as [->|(Rv & Ev)]; [now left|right].
      split; [exact Rv|]. split; [now apply Ev|exact S].
    - destruct (E e eq_refl) as [->| ->]; auto.
    - now apply Hg. }
  destruct (tx st) as [|[err|] t].
  - apply G.
  - intros _. cbn [err_getitem raise fst]. auto.
  - apply G.
Qed.

Lemma negotiate_cases (st : qmp) :
  match fst (negotiate_capabilities st) with
  | Ok g =>
      py_in (py "QMP") g = Some true /\
      py_in (py "event") g = Some false /\
      received (rx st) g /\
      (exists resp,
          received (rx st) resp /\
          py_in (py "return") resp = Some true /\
          py_in (py "event") resp = Some false) /\
      sent (snd (negotiate_capabilities st))
      = sent st ++ [Json.dumps (JDict [(py "execute", JStr (py "qmp_capabilities"))])]
  | Raise e =>
      (e = QMPConnectError None /\
       sent (snd (negotiate_capabilities st)) = sent st) \/
      (e = QMPCapabilitiesError /\
       sent (snd (negotiate_capabilities st))
       = sent st ++ [Json.dumps (JDict [(py "execute", JStr (py "qmp_capabilities"))])]) \/
      e = ValueError \/ e = TypeError
  | Hang => blocking st = true /\ rx_end st = Silent
  end.
Proof.
  pose proof (negotiate_hang st) as Hg. revert Hg.
  set (Q := fun R : result json * qmp =>
    (fst R = Hang -> blocking st = true /\ rx_end st = Silent) ->
    match fst R with
    | Ok g =>
        py_in (py "QMP") g = Some true /\
        py_in (py "event") g = Some false /\
        received (rx st) g /\
        (exists resp,
            received (rx st) resp /\
            py_in (py "return") resp = Some true /\
            py_in (py "event") resp = Some false) /\
        sent (snd R)
        = sent st ++ [Json.dumps (JDict [(py "execute", JStr (py "qmp_capabilities"))])]
    | Raise e =>
        (e = QMPConnectError None /\ sent (snd R) = sent st) \/
        (e = QMPCapabilitiesError /\
         sent (snd R)
         = sent st ++ [Json.dumps (JDict [(py "execute", JStr (py "qmp_capabilities"))])]) \/
        e = ValueError \/ e = TypeError
    | Hang => blocking st = true /\ rx_end st = Silent
    end).
  change (Q (negotiate_capabilities st)).
  unfold negotiate_capabilities. unfold bind at 1.
  pose proof (json_read_ok false st) as O1.
  pose proof (json_read_raises false st) as E1.
  destruct (json_read_follows false st) as (((c1 & R1) & _) & _ & _ & S1).
  destruct (json_read false st) as [[g|e|] st1]; cbn [fst snd] in *.
  2: { unfold Q. cbn [fst]. intros _.
       destruct (E1 e eq_refl) as [->| ->]; auto. }
  2: { unfold Q. cbn [fst]. intros Hg. now apply Hg. }
  destruct (O1 g eq_refl) as [->|(Rg & Eg)].
  { unfold Q. cbn [raise fst snd]. intros _. left. split; [reflexivity|exact S1]. }
  specialize (Eg eq_refl).
  assert (G : Q ((has_qmp <- contains_key (py "QMP") g ;;
                  if negb has_qmp then raise (QMPConnectError None)
                  else
                    resp <- cmd (py "qmp_capabilities") JNull JNull ;;
                    has_return <- contains_key (py "return") resp ;;
                    if has_return then ret g
                    else raise QMPCapabilitiesError) st1)).
  { unfold bind at 1. unfold contains_key at 1.
    destruct (py_in (py "QMP") g) as [[|]|] eqn:K; cbn [lift_opt ret raise negb].
    2: { unfold Q. cbn [fst snd]. intros _. left. split; [reflexivity|exact S1]. }
    2: { unfold Q. cbn [fst]. intros _. auto 6. }
    unfold bind at 1. unfold cmd.
    pose proof (cmd_obj_cases (JDict (qmp_cmd_of (py "qmp_capabilities") JNull JNull)) st1)
      as C.
    destruct (cmd_obj _ st1) as [[resp|e|] st2]; cbn [fst snd] in C.
    - unfold bind, contains_key.
      destruct C as [->|(Rr & Er & Sr)].
      { unfold Q. cbn [py_in lift_opt raise fst]. intros _. auto 6. }
      destruct (py_in (py "return") resp) as [[|]|] eqn:Kr;
        unfold Q; cbn [lift_opt ret raise fst snd]; intros _; [| |auto 6].
      + split; [exact K|]. split; [exact Eg|]. split; [exact Rg|].
        split.
        * exists resp. split; [|auto]. rewrite R1. now apply received_later.
        * rewrite Sr, S1. reflexivity.
      + right. left. split; [reflexivity|]. rewrite Sr, S1. reflexivity.
    - unfold Q. cbn [fst]. intros _. destruct C as [->| ->]; auto 6.
    - unfold Q. cbn [fst]. intros Hg. now apply Hg. }
  destruct g; try exact G.
  unfold Q. cbn [raise fst snd]. intros _. left. split; [reflexivity|exact S1].
Qed.

Lemma has_key_dict_get (k : pystr) (d : dict) :
  has_key k d = match dict_get k d with Some _ => true | None => false end.
Proof.
  induction d as [|[k' v] d IH]; cbn [has_key dict_get]; [reflexivity|].
  destruct (pystr_eqb k' k); [reflexivity|exact IH].
Qed.

Lemma command_cases (name : pystr) (kwds : dict) (st : qmp) :
  match fst (command name kwds st) with
  | Ok v =>
      exists d,
        received (rx st) (JDict d) /\
        has_key (py "event") d = false /\
        has_key (py "error") d = false /\
        dict_get (py "return") d = Some v /\
        sent (snd (command name kwds st))
        = sent st ++ [Json.dumps (JDict (qmp_cmd_of name (JDict kwds) JNull))]
  | Raise e =>
      (exists d err desc,
          e = PyException desc /\
          received (rx st) (JDict d) /\
          has_key (py "event") d = false /\
          dict_get (py "error") d = Some (JDict err) /\
          dict_get (py "desc") err = Some desc) \/
      e = KeyError \/ e = TypeError \/ e = ValueError
  | Hang => blocking st = true /\ rx_end st = Silent
  end.
Proof.
  set (Q := fun R : result json * qmp =>
    match fst R with
    | Ok v =>
        exists d,
          received (rx st) (JDict d) /\
          has_key (py "event") d = false /\
          has_key (py "error") d = false /\
          dict_get (py "return") d = Some v /\
          sent (snd R)
          = sent st ++ [Json.dumps (JDict (qmp_cmd_of name (JDict kwds) JNull))]
    | Raise e =>
        (exists d err desc,
            e = PyException desc /\
            received (rx st) (JDict d) /\
            has_key (py "event") d = false /\
            dict_get (py "error") d = Some (JDict err) /\
            dict_get (py "desc") err = Some desc) \/
        e = KeyError \/ e = TypeError \/ e = ValueError
    | Hang => blocking st = true /\ rx_end st = Silent
    end).
  change (Q (command name kwds st)).
  unfold command. unfold bind at 1. unfold cmd.
  pose proof (cmd_obj_cases (JDict (qmp_cmd_of name (JDict kwds) JNull)) st) as C.
  destruct (cmd_obj _ st) as [[r|e|] st1]; cbn [fst snd] in C.
  2: { unfold Q. cbn [fst]. destruct C as [->| ->]; auto 6. }
  2: { unfold Q. cbn [fst]. exact C. }
  destruct C as [->|(Rr & Er & Sr)].
  { unfold Q, bind, contains_key. cbn [py_in lift_opt raise fst]. auto 6. }
  unfold bind at 1. unfold contains_key.
  destruct r as [|b|z|s|l|d].
  1-3: (unfold Q; cbn [py_in lift_opt raise fst]; auto 6).
  - cbn [py_in lift_opt ret]. destruct (contains (py "error") s);
      unfold Q, bind, getitem; cbn [raise fst]; auto 6.
  - cbn [py_in lift_opt ret].
    destruct (existsb _ l);
      unfold Q, bind, getitem; cbn [raise fst]; auto 6.
  - cbn [py_in lift_opt ret] in Er |- *. injection Er as Er.
    rewrite (has_key_dict_get (py "error") d).
    destruct (dict_get (py "error") d) as [err|] eqn:De.
    + unfold bind at 1. unfold getitem at 1. rewrite De. cbn [lift_opt ret].
      unfold bind. unfold Q.
      destruct err as [| | | | |d'];
        try (cbn [getitem raise fst]; auto 6).
      cbn [getitem].
      destruct (dict_get (py "desc") d') as [desc|] eqn:Dd;
        cbn [lift_opt ret raise fst]; [|auto 6].
      left. exists d, d', desc.
      split; [reflexivity|]. split; [exact Rr|]. split; [exact Er|].
      split; [exact De|exact Dd].
    + unfold Q. unfold getitem.
      destruct (dict_get (py "return") d) as [v|] eqn:Dr;
        cbn [lift_opt ret raise fst snd]; [|auto 6].
      exists d. split; [exact Rr|]. split; [exact Er|].
      split; [rewrite has_key_dict_get, De; reflexivity|].
      split; [exact Dr|exact Sr].
Qed.

End QmpMore.

Import QmpMore.

(** * Blocking, the event queue, the handshake and the address *)

(** X1.  Without [wait], [pull_event] and [get_events] never block, whatever
    the peer has sent or not sent, and whatever state the session is in. *)
Theorem X1_polling_without_wait_never_blocks (st : qmp) :
  fst (pull_event false st) <> Hang /\ fst (get_events false st) <> Hang.
Proof.
  destruct (poll_cases st) as (more & c & q' & _ & _ & [P|(e & _ & P)]).
  - split.
    + unfold pull_event, bind. rewrite P.
      cbn [get_events_attr]. rewrite andb_false_r. cbn [ret].
      destruct (events (polled more q' st)); cbn [raise fst]; discriminate.
    + unfold get_events, bind. rewrite P.
      cbn [get_events_attr]. rewrite andb_false_r. cbn [ret fst]. discriminate.
  - split.
    + unfold pull_event, bind. rewrite P. cbn [fst]. discriminate.
    + unfold get_events, bind. rewrite P. cbn [fst]. discriminate.
Qed.

(** X2.  A call blocks for ever only on a peer that stays silent: a
    command or a handshake only with the socket in blocking mode, and
    [pull_event] and [get_events] only when asked to wait.  On a peer that
    closes the connection every call comes back. *)
Theorem X2_calls_block_only_on_a_silent_peer (st : qmp) :
  (forall name args id,
      fst (cmd name args id st) = Hang -> blocking st = true /\ rx_end st = Silent) /\
  (forall name kwds,
      fst (command name kwds st) = Hang -> blocking st = true /\ rx_end st = Silent) /\
  (forall negotiate,
      fst (connect negotiate st) = Hang ->
      negotiate = true /\ blocking st = true /\ rx_end st = Silent) /\
  (forall wait,
      fst (pull_event wait st) = Hang -> wait = true /\ rx_end st = Silent) /\
  (forall wait,
      fst (get_events wait st) = Hang -> wait = true /\ rx_end st = Silent).
Proof.
  split; [|split; [|split; [|split]]].
  - intros name args id H. unfold cmd in H. now apply cmd_obj_hang in H.
  - intros name kwds H. apply command_hang in H. unfold cmd in H.
    now apply cmd_obj_hang in H.
  - intros negotiate. unfold connect, bind, sock_connect.
    destruct (conn st); [discriminate|]. destruct negotiate; [|discriminate].
    intros H. split; [reflexivity|]. now apply negotiate_hang.
  - intros wait. apply pull_event_hang.
  - intros wait. apply get_events_hang.
Qed.

Lemma X2_witness :
  (blocking (fresh [Idle] Silent) = true /\ rx_end (fresh [Idle] Silent) = Silent) /\
  (true = true /\ rx_end (fresh [Idle] Silent) = Silent).
Proof.
  split.
  - apply (proj1 (X2_calls_block_only_on_a_silent_peer (fresh [Idle] Silent))
             (py "stop") JNull JNull).
    reflexivity.
  - apply (proj1 (proj2 (proj2 (proj2 (X2_calls_block_only_on_a_silent_peer
                                          (fresh [Idle] Silent))))) true).
    reflexivity.
Defined.

(** X3.  Commands and the handshake never lose or reorder a queued event:
    whatever the peer sends and however the call ends, the queue afterwards
    is the queue before followed by events decoded from lines of the input,
    each of them containing ['event']. *)
Theorem X3_commands_only_append_received_events (st : qmp) :
  let grown st' :=
    exists more,
      events st' = events st ++ more /\
      Forall (fun e => event_shaped e /\ received (rx st) e) more in
  (forall name args id, grown (snd (cmd name args id st))) /\
  (forall name kwds, grown (snd (command name kwds st))) /\
  (forall negotiate, grown (snd (connect negotiate st))).
Proof.
  intros grown. split; [|split].
  - intros name args id. unfold cmd.
    destruct (cmd_obj_follows (JDict (qmp_cmd_of name args id)) st) as ((_ & G & _) & _).
    exact G.
  - intros name kwds. rewrite command_state. unfold cmd.
    destruct (cmd_obj_follows (JDict (qmp_cmd_of name (JDict kwds) JNull)) st)
      as ((_ & G & _) & _).
    exact G.
  - intros negotiate. unfold connect, bind, sock_connect.
    destruct (conn st); cbn [snd].
    + destruct (follows_refl st) as (_ & G & _). exact G.
    + destruct negotiate.
      * destruct (negotiate_follows st) as ((_ & G & _) & _). exact G.
      * destruct (follows_refl st) as (_ & G & _). exact G.
Qed.

(** X4.  Reading the queue never writes to the socket: [pull_event] and
    [get_events] leave what was written, and the outcome of writes to come,
    as they were.  A command writes its own message or nothing. *)
Theorem X4_only_commands_write (st : qmp) :
  (forall wait,
      sent (snd (pull_event wait st)) = sent st /\
      tx (snd (pull_event wait st)) = tx st) /\
  (forall wait,
      sent (snd (get_events wait st)) = sent st /\
      tx (snd (get_events wait st)) = tx st) /\
  (forall name args id,
      sent (snd (cmd name args id st)) = sent st \/
      sent (snd (cmd name args id st))
      = sent st ++ [Json.dumps (JDict (qmp_cmd_of name args id))]) /\
  (forall name kwds,
      sent (snd (command name kwds st)) = sent st \/
      sent (snd (command name kwds st))
      = sent st ++ [Json.dumps (JDict (qmp_cmd_of name (JDict kwds) JNull))]).
Proof.
  split; [|split; [|split]].
  - intros wait. destruct (pull_event_cases wait st) as (m & _ & S & T & _). auto.
  - intros wait. destruct (get_events_cases wait st) as (_ & S & T & _). auto.
  - intros name args id. unfold cmd.
    destruct (cmd_obj_follows (JDict (qmp_cmd_of name args id)) st) as (_ & _ & S).
    exact S.
  - intros name kwds. rewrite command_state. unfold cmd.
    destruct (cmd_obj_follows (JDict (qmp_cmd_of name (JDict kwds) JNull)) st)
      as (_ & _ & S).
    exact S.
Qed.

(** X5.  When [get_events] returns, the list it returns is the whole queue,
    which stays in place: the events queued before the call, in order,
    followed by the events read during the call. *)
Theorem X5_get_events_returns_the_queue_in_place
    (st st' : qmp) (wait : bool) (l : list json) :
  get_events wait st = (Ok l, st') ->
  events st' = l /\
  exists more,
    l = events st ++ more /\
    Forall (fun e => event_shaped e /\ received (rx st) e) more.
Proof.
  intros H. destruct (get_events_cases wait st) as ((_ & (m & E & M) & _) & _ & _ & O).
  rewrite H in *. cbn [fst snd] in *. destruct O as [-> _].
  split; [reflexivity|]. now exists m.
Qed.

Lemma X5_witness :
  let st := mkQmp [JDict [(py "event", JStr (py "STOP"))]]
                  [Line (js "{'event': 'RESUME'}"); Idle] Silent true [] [] None in
  let l := [JDict [(py "event", JStr (py "STOP"))];
            JDict [(py "event", JStr (py "RESUME"))]] in
  events (snd (get_events false st)) = l /\
  exists more,
    l = events st ++ more /\
    Forall (fun e => event_shaped e /\ received (rx st) e) more.
Proof.
  intros st l.
  apply (X5_get_events_returns_the_queue_in_place st (snd (get_events false st)) false l).
  vm_compute. reflexivity.
Defined.

(** X6.  With a non-empty queue [pull_event] does not wait and is first in,
    first out: when it returns, it returns the oldest queued event and
    leaves the others in order, followed by what the poll read.  When it
    raises instead, whatever the exception, no queued event is lost: the
    queue keeps the old events in order, followed by the events read before
    the failure. *)
Theorem X6_pull_event_returns_the_oldest_event
    (st : qmp) (wait : bool) (e : json) (es : list json) :
  events st = e :: es ->
  exists more,
    Forall (fun x => event_shaped x /\ received (rx st) x) more /\
    match fst (pull_event wait st) with
    | Ok v => v = e /\ events (snd (pull_event wait st)) = es ++ more
    | Raise _ => events (snd (pull_event wait st)) = e :: es ++ more
    | Hang => False
    end.
Proof.
  intros E. destruct (pull_event_cases wait st) as (m & M & _ & _ & _ & _ & O).
  exists m. split; [exact M|]. rewrite E in O. cbn [app] in O.
  destruct (fst (pull_event wait st)) as [v|err|].
  - destruct O as [O _]. inversion O; subst. split; reflexivity.
  - destruct O as [O _]. exact O.
  - destruct O as (_ & _ & N). discriminate.
Qed.

Lemma X6_witness :
  let st := mkQmp [JDict [(py "event", JStr (py "STOP"))];
                   JDict [(py "event", JStr (py "RESUME"))]]
                  [Idle] Silent true [] [] None in
  exists more,
    Forall (fun x => event_shaped x /\ received (rx st) x) more /\
    match fst (pull_event true st) with
    | Ok v =>
        v = JDict [(py "event", JStr (py "STOP"))] /\
        events (snd (pull_event true st))
        = [JDict [(py "event", JStr (py "RESUME"))]] ++ more
    | Raise _ =>
        events (snd (pull_event true st))
        = JDict [(py "event", JStr (py "STOP"))]
            :: [JDict [(py "event", JStr (py "RESUME"))]] ++ more
    | Hang => False
    end.
Proof.
  intros st.
  apply (X6_pull_event_returns_the_oldest_event st true
           (JDict [(py "event", JStr (py "STOP"))])
           [JDict [(py "event", JStr (py "RESUME"))]]).
  reflexivity.
Defined.

(** X7.  [pull_event] raises [IndexError] only for an empty queue: no event
    was queued before the call and none was read during it (the poll came
    to its end, so the socket is back in blocking mode).  And it never
    raises one of the module's own errors, also where the sibling
    [get_events] raises [QMPConnectError]. *)
Theorem X7_pull_event_IndexError_only_on_an_empty_queue
    (st : qmp) (wait : bool) (e : exn) :
  fst (pull_event wait st) = Raise e ->
  is_QMPError e = false /\
  (e = IndexError ->
   events st = [] /\ events (snd (pull_event wait st)) = [] /\
   blocking (snd (pull_event wait st)) = true).
Proof.
  intros H. destruct (pull_event_cases wait st) as (m & _ & _ & _ & _ & _ & O).
  rewrite H in O. destruct O as [E [(-> & N & B)|[->| ->]]].
  - split; [reflexivity|]. intros _.
    rewrite E, N. split; [|split; [reflexivity|exact B]]. now apply app_eq_nil in N.
  - split; [reflexivity|]. discriminate.
  - split; [reflexivity|]. discriminate.
Qed.

Lemma X7_witness :
  is_QMPError IndexError = false /\
  (IndexError = IndexError ->
   events (fresh [Idle] Closed) = [] /\
   events (snd (pull_event true (fresh [Idle] Closed))) = [] /\
   blocking (snd (pull_event true (fresh [Idle] Closed))) = true).
Proof.
  apply (X7_pull_event_IndexError_only_on_an_empty_queue
           (fresh [Idle] Closed) true IndexError).
  vm_compute. reflexivity.
Defined.

(** X8.  [get_events(wait=True)] called with an empty queue and nothing
    queued on the socket waits for one line.  An event line gives the list
    holding that event; a response line gives the empty list, the response
    being dropped; the end of the stream raises [QMPConnectError]; and on a
    peer that stays silent the call does not come back. *)
Theorem X8_get_events_wait_on_an_empty_queue
    (st : qmp) (q : list item) :
  events st = [] ->
  quiet q = true ->
  (rx st = Idle :: q -> rx_end st = Silent -> fst (get_events true st) = Hang) /\
  (rx st = Idle :: q -> rx_end st = Closed ->
   fst (get_events true st)
   = Raise (QMPConnectError (Some (py "Error while reading from socket")))) /\
  (forall l o rest,
      rx st = Idle :: q ++ Line l :: rest ->
      Json.loads l = Some (JDict o) ->
      get_events true st
      = (Ok (if has_key (py "event") o then [JDict o] else []),
         polled (if has_key (py "event") o then [JDict o] else []) rest st)).
Proof.
  intros E Q.
  assert (W : forall q', rx st = Idle :: q' ->
                get_events true st
                = ((r <- json_read true ;;
                    match r with
                    | JNull => raise (QMPConnectError
                                        (Some (py "Error while reading from socket")))
                    | _ => ret tt
                    end) ;; get_events_attr) (polled [] q' st)).
  { intros q' R.
    assert (N : nothing_pending st = true) by (unfold nothing_pending; now rewrite R).
    pose proof (poll_nothing_pending st N) as P. rewrite R in P. cbn [tl] in P.
    unfold get_events. unfold bind at 1. rewrite P.
    unfold bind at 1. unfold get_events_attr at 1. unfold polled at 1.
    cbn [events set_blocking set_events]. rewrite E. cbn [app truthy negb andb].
    reflexivity. }
  split; [|split].
  - intros R C. rewrite (W q R). unfold bind.
    rewrite (json_read_quiet true q [] (polled [] q st))
      by (rewrite ?List.app_nil_r; auto).
    rewrite json_read_end by reflexivity.
    cbn [rx_end blocking polled set_blocking set_events set_rx]. now rewrite C.
  - intros R C. rewrite (W q R). unfold bind.
    rewrite (json_read_quiet true q [] (polled [] q st))
      by (rewrite ?List.app_nil_r; auto).
    rewrite json_read_end by reflexivity.
    cbn [rx_end blocking polled set_blocking set_events set_rx]. now rewrite C.
  - intros l o rest R L. rewrite (W _ R). unfold bind.
    rewrite (json_read_quiet true q (Line l :: rest) (polled [] (q ++ Line l :: rest) st))
      by auto.
    destruct (has_key (py "event") o) eqn:K.
    + rewrite (json_read_event true _ l rest o) by auto.
      unfold ret, get_events_attr, polled. destruct st. cbn in E |- *.
      subst. reflexivity.
    + rewrite (json_read_response true _ l rest o) by auto.
      unfold ret, get_events_attr, polled. destruct st. cbn in E |- *.
      subst. reflexivity.
Qed.

Lemma X8_witness :
  fst (get_events true (fresh [Idle; Idle] Closed))
    = Raise (QMPConnectError (Some (py "Error while reading from socket"))) /\
  get_events true (fresh [Idle; Line (js "{'return': {}}"); Idle] Silent)
    = (Ok [], polled [] [Idle] (fresh [Idle; Line (js "{'return': {}}"); Idle] Silent)).
Proof.
  split.
  - refine (proj1 (proj2 (X8_get_events_wait_on_an_empty_queue
              (fresh [Idle; Idle] Closed) [Idle] _ _)) _ _); reflexivity.
  - refine (proj2 (proj2 (X8_get_events_wait_on_an_empty_queue
              (fresh [Idle; Line (js "{'return': {}}"); Idle] Silent) [] _ _))
              (js "{'return': {}}") [(py "return", JDict [])] [Idle] _ _);
      reflexivity.
Defined.

(** X9.  Over a whole session on a new object, whatever calls are made and
    whatever the peer sends, the queue holds only values decoded from lines
    of the input that contain ['event'], and so does everything that
    [pull_event] and [get_events] hand to the caller: no response, no
    greeting and no value of the module's own making is ever delivered as an
    event. *)
Theorem X9_only_received_events_reach_the_caller
    (input : list item) (pe : peer_end) (calls : list call) :
  let st := session calls (fresh input pe) in
  let genuine e := event_shaped e /\ received input e in
  Forall genuine (events st) /\
  (forall wait e, fst (pull_event wait st) = Ok e -> genuine e) /\
  (forall wait l, fst (get_events wait st) = Ok l -> Forall genuine l).
Proof.
  intros st genuine.
  pose proof (session_queue_from input calls _ (fresh_queue_from input pe)) as Q.
  fold st in Q. split; [exact (proj2 Q)|]. split.
  - intros wait e H.
    destruct (pull_event_cases wait st) as (m & M & _ & _ & _ & _ & O).
    rewrite H in O. destruct O as (E & _).
    destruct Q as ((c & I) & Q).
    assert (A : Forall genuine (events st ++ m)).
    { apply Forall_app. split; [exact Q|].
      eapply Forall_impl; [|exact M]. cbn. intros x (Ev & Rv).
      split; [exact Ev|]. rewrite I. now apply received_later. }
    rewrite <- E in A. now inversion A.
  - intros wait l H.
    destruct (get_events_cases wait st) as (F & _ & _ & O).
    rewrite H in O. destruct O as (-> & _).
    exact (proj2 (queue_from_follows _ _ _ Q F)).
Qed.

Lemma X9_witness :
  event_shaped (JDict [(py "event", JStr (py "STOP"))]) /\
  received [Line (js "{'event': 'STOP'}"); Line (js "{'return': {}}")]
    (JDict [(py "event", JStr (py "STOP"))]).
Proof.
  refine (proj1 (proj2 (X9_only_received_events_reach_the_caller
            [Line (js "{'event': 'STOP'}"); Line (js "{'return': {}}")] Closed
            [Cmd (py "stop") JNull JNull; GetEvents false]))
            false (JDict [(py "event", JStr (py "STOP"))]) _).
  vm_compute. reflexivity.
Defined.

(** X10.  An exception raised while [get_events] or [pull_event] polls the
    socket (a line that is no JSON document, or a document that cannot hold
    a key) skips the [setblocking(1)] that ends the poll, so the socket
    stays non-blocking.  A command issued afterwards whose answer has not
    yet arrived is written and comes back at once with [None], as if the
    connection had been closed, instead of waiting for the answer. *)
Theorem X10_failed_poll_leaves_the_socket_nonblocking (st : qmp) (e : exn) :
  let stuck st' :=
    blocking st' = false /\
    forall name args id,
      nothing_pending st' = true ->
      send_ok st' = true ->
      cmd name args id st'
      = (Ok JNull,
         set_rx (tl (rx st'))
           (set_tx (tl (tx st'))
              (sent st' ++ [Json.dumps (JDict (qmp_cmd_of name args id))])
              st')) in
  (fst (get_events false st) = Raise e -> stuck (snd (get_events false st))) /\
  (fst (pull_event false st) = Raise e -> e <> IndexError ->
   stuck (snd (pull_event false st))).
Proof.
  intros stuck. split.
  - intros H. pose proof (get_events_failed_poll st e H) as B.
    split; [exact B|]. intros name args id N S.
    now apply cmd_nonblocking_nothing_pending.
  - intros H NI. pose proof (pull_event_failed_poll st e H NI) as B.
    split; [exact B|]. intros name args id N S.
    now apply cmd_nonblocking_nothing_pending.
Qed.

Lemma X10_witness :
  blocking (snd (get_events false (fresh [Line (py "QEMU"); Idle] Silent))) = false /\
  cmd (py "stop") JNull JNull
    (snd (get_events false (fresh [Line (py "QEMU"); Idle] Silent)))
  = (Ok JNull, mkQmp [] [] Silent false [] [js "{'execute': 'stop'}"] None).
Proof.
  destruct (proj1 (X10_failed_poll_leaves_the_socket_nonblocking
                     (fresh [Line (py "QEMU"); Idle] Silent) ValueError))
    as (B & C).
  - vm_compute. reflexivity.
  - split; [exact B|].
    rewrite (C (py "stop") JNull JNull); reflexivity.
Defined.

(** X11.  A response that is on the socket when [get_events] or
    [pull_event] polls it is read by the poll and dropped: it is neither
    returned nor queued, the events sent before it are queued in order, and
    the input after it is left unread.  A command issued later therefore
    never sees that response. *)
Theorem X11_poll_drops_a_pending_response
    (st : qmp) (pre rest : list item) (rl : pystr) (resp : dict) :
  rx st = pre ++ Line rl :: rest ->
  event_burst false pre = true ->
  Json.loads rl = Some (JDict resp) ->
  has_key (py "event") resp = false ->
  get_events false st
  = (Ok (events st ++ decoded pre), polled (decoded pre) rest st) /\
  (forall e es wait,
      events st ++ decoded pre = e :: es ->
      get_events wait st = (Ok (e :: es), polled (decoded pre) rest st) /\
      pull_event wait st
      = (Ok e, set_events es (polled (decoded pre) rest st))) /\
  (events st ++ decoded pre = [] ->
   pull_event false st = (Raise IndexError, polled [] rest st)).
Proof.
  intros R B L K. pose proof (poll_response st pre rest rl resp R B L K) as P.
  split; [|split].
  - unfold get_events. unfold bind at 1. rewrite P.
    unfold bind, get_events_attr. rewrite andb_false_r. cbn [ret].
    destruct st; reflexivity.
  - intros e es wait E. split.
    + unfold get_events. unfold bind at 1. rewrite P.
      unfold bind, get_events_attr.
      replace (events (polled (decoded pre) rest st)) with (e :: es)
        by (rewrite <- E; destruct st; reflexivity).
      cbn [truthy negb andb ret].
      replace (events (polled (decoded pre) rest st)) with (e :: es)
        by (rewrite <- E; destruct st; reflexivity).
      reflexivity.
    + unfold pull_event. unfold bind at 1. rewrite P.
      unfold bind, get_events_attr.
      replace (events (polled (decoded pre) rest st)) with (e :: es)
        by (rewrite <- E; destruct st; reflexivity).
      cbn [truthy negb andb ret].
      replace (events (polled (decoded pre) rest st)) with (e :: es)
        by (rewrite <- E; destruct st; reflexivity).
      reflexivity.
  - intros E. unfold pull_event. unfold bind at 1. rewrite P.
    unfold bind, get_events_attr. rewrite andb_false_r. cbn [ret].
    replace (events (polled (decoded pre) rest st)) with (@nil json)
      by (rewrite <- E; destruct st; reflexivity).
    apply app_eq_nil in E. destruct E as [_ ->]. reflexivity.
Qed.

Lemma X11_witness :
  get_events false
    (fresh [Line (js "{'event': 'STOP'}"); Line (js "{'return': {}}"); Idle] Silent)
  = (Ok [JDict [(py "event", JStr (py "STOP"))]],
     polled [JDict [(py "event", JStr (py "STOP"))]] [Idle]
       (fresh [Line (js "{'event': 'STOP'}"); Line (js "{'return': {}}"); Idle]
          Silent)).
Proof.
  refine (proj1 (X11_poll_drops_a_pending_response
            (fresh [Line (js "{'event': 'STOP'}"); Line (js "{'return': {}}"); Idle]
               Silent)
            [Line (js "{'event': 'STOP'}")] [Idle] (js "{'return': {}}")
            [(py "return", JDict [])] _ _ _ _)); reflexivity.
Defined.

(** X12.  Everything a session writes to the socket is the [json.dumps]
    text of some value, and such a text is made of printable ASCII
    characters only: whatever the arguments hold (line breaks, control
    characters, characters beyond ASCII), a message never contains a line
    break or a control character. *)
Theorem X12_messages_are_printable_ascii
    (input : list item) (pe : peer_end) (calls : list call) :
  Forall (fun text => (exists v, text = Json.dumps v) /\ Forall printable text)
    (sent (session calls (fresh input pe))).
Proof.
  destruct (session_written calls (fresh input pe)) as (vs & W).
  rewrite W. cbn [sent fresh app]. clear W.
  induction vs as [|v r IH]; cbn [map]; constructor; [|exact IH].
  split; [now exists v|apply dumps_printable].
Qed.

(** X13.  The handshake is sound.  When [connect] (negotiating) or [accept]
    returns, the value returned was decoded from a line of the input,
    contains ['QMP'] and is no event; a response containing ['return'] was
    received as well; and exactly one message was written, the
    [qmp_capabilities] command.  A connection that fails raises the error
    of the socket with nothing read or written.  [QMPConnectError] is
    raised without an argument and before anything is written;
    [QMPCapabilitiesError] only after the capabilities command has been
    written. *)
Theorem X13_handshake_is_sound (st : qmp) :
  let sound (R : result json * qmp) :=
    match fst R with
    | Ok g =>
        conn st = None /\
        py_in (py "QMP") g = Some true /\
        py_in (py "event") g = Some false /\
        received (rx st) g /\
        (exists resp,
            received (rx st) resp /\
            py_in (py "return") resp = Some true /\
            py_in (py "event") resp = Some false) /\
        sent (snd R) = sent st ++ [js "{'execute': 'qmp_capabilities'}"]
    | Raise e =>
        (forall err, conn st = Some err -> e = SocketError err /\ snd R = st) /\
        (forall msg, e = QMPConnectError msg ->
                     msg = None /\ conn st = None /\ sent (snd R) = sent st) /\
        (e = QMPCapabilitiesError ->
         conn st = None /\
         sent (snd R) = sent st ++ [js "{'execute': 'qmp_capabilities'}"])
    | Hang => conn st = None /\ blocking st = true /\ rx_end st = Silent
    end in
  sound (connect true st) /\ sound (accept st).
Proof.
  intros sound.
  assert (N : conn st = None -> sound (negotiate_capabilities st)).
  { intros C. pose proof (negotiate_cases st) as G. unfold sound.
    destruct (fst (negotiate_capabilities st)) as [g|e|].
    - destruct G as (A & B & D & E & F). repeat (split; [assumption|]). exact F.
    - split; [intros err X; congruence|].
      destruct G as [(-> & S)|[(-> & S)|[->| ->]]].
      + split; [|discriminate]. intros msg [= <-]. auto.
      + split; [discriminate|]. intros _. split; [exact C|exact S].
      + split; discriminate.
      + split; discriminate.
    - split; assumption. }
  assert (F : forall err, conn st = Some err -> sound (Raise (SocketError err), st)).
  { intros err C. unfold sound. cbn [fst snd].
    split; [intros err' X; split; [congruence|reflexivity]|].
    split; discriminate. }
  split.
  - unfold connect, bind, sock_connect.
    destruct (conn st) as [err|] eqn:C; [now apply F|].
    destruct (negotiate_capabilities st); now apply N.
  - unfold accept, bind, sock_connect.
    destruct (conn st) as [err|] eqn:C; [now apply F|].
    destruct (negotiate_capabilities st); now apply N.
Qed.


(** X15.  What [command] gives back comes from the peer.  A value returned
    is the ['return'] member of a dict that was decoded from a line of the
    input and holds neither ['event'] nor ['error'], and the command has
    been written.  An [Exception] is raised only for a received dict that
    holds ['error'], and carries the ['desc'] of that error.  No exception
    of [command] is one of the module's own error classes. *)
Theorem X15_command_answers_come_from_the_peer
    (name : pystr) (kwds : dict) (st : qmp) :
  match fst (command name kwds st) with
  | Ok v =>
      exists d,
        received (rx st) (JDict d) /\
        has_key (py "event") d = false /\
        has_key (py "error") d = false /\
        dict_get (py "return") d = Some v /\
        sent (snd (command name kwds st))
        = sent st ++ [Json.dumps (JDict (qmp_cmd_of name (JDict kwds) JNull))]
  | Raise e =>
      is_QMPError e = false /\
      forall desc,
        e = PyException desc ->
        exists d err,
          received (rx st) (JDict d) /\
          has_key (py "event") d = false /\
          dict_get (py "error") d = Some (JDict err) /\
          dict_get (py "desc") err = Some desc
  | Hang => blocking st = true /\ rx_end st = Silent
  end.
Proof.
  pose proof (command_cases name kwds st) as C.
  destruct (fst (command name kwds st)) as [v|e|]; [exact C| |exact C].
  destruct C as [(d & err & desc & -> & R & E & De & Dd)|[->|[->| ->]]].
  - split; [reflexivity|]. intros desc' [= <-]. now exists d, err.
  - split; [reflexivity|]. discriminate.
  - split; [reflexivity|]. discriminate.
  - split; [reflexivity|]. discriminate.
Qed.

(** X17.  For an object made from an endpoint string, file descriptors can
    be passed ([is_scm_available]) exactly when the string does not hold
    exactly one colon: then it was taken for a socket path, as it stands,
    and the socket is a Unix socket; with exactly one colon the socket is
    an internet socket. *)
Theorem X17_scm_rights_only_on_socket_paths
    (int : pystr -> option Z) (arg : pystr) (a : address) :
  get_address int arg = Ok a ->
  (is_scm_available a = true <-> count_occ N.eq_dec arg (chr ":") <> 1%nat) /\
  (is_scm_available a = true -> a = Path arg /\ get_sock a = AF_UNIX) /\
  (is_scm_available a = false ->
   get_sock a = AF_INET /\
   exists host text port,
     split (chr ":") arg = [host; text] /\ int text = Some port /\
     a = HostPort host port).
Proof.
  unfold get_address. rewrite split_length. change (chr ":") with 58 in *.
  destruct (split 58 arg) as [|h [|t [|x r]]] eqn:Sp;
    pose proof (f_equal (@List.length pystr) Sp) as L; rewrite split_length in L;
    cbn [List.length] in L; rewrite L; cbn [Nat.eqb nth].
  - discriminate.
  - intros [= <-]. cbn [is_scm_available get_sock]. split; [split; [intros _; lia|reflexivity]|].
    split; [auto|discriminate].
  - destruct (int t) as [port|] eqn:I; [|discriminate]. intros [= <-]. cbn.
    split; [split; [discriminate|intros X; lia]|].
    split; [discriminate|]. intros _. split; [reflexivity|]. now exists h, t, port.
  - intros [= <-]. cbn [is_scm_available get_sock]. split; [split; [intros _; lia|reflexivity]|].
    split; [auto|discriminate].
Qed.

Lemma X17_witness :
  is_scm_available (Path (py "/tmp/qmp.sock")) = true <->
  count_occ N.eq_dec (py "/tmp/qmp.sock") (chr ":") <> 1%nat.
Proof.
  refine (proj1 (X17_scm_rights_only_on_socket_paths py_int (py "/tmp/qmp.sock")
                   (Path (py "/tmp/qmp.sock")) _)).
  reflexivity.
Defined.

(** X18.  [clear_events] forgets the queue and nothing else: it reads and
    writes nothing, and every event that [get_events] or [pull_event] hands
    out after it was decoded from a line that was still unread when the
    queue was cleared; none of the events queued before comes back. *)
Theorem X18_clear_events_forgets_the_queue (st : qmp) :
  let cleared := snd (clear_events st) in
  let later e := event_shaped e /\ received (rx st) e in
  fst (clear_events st) = Ok tt /\
  cleared = set_events [] st /\
  (forall wait l,
      fst ((clear_events ;; get_events wait) st) = Ok l -> Forall later l) /\
  (forall wait e,
      fst ((clear_events ;; pull_event wait) st) = Ok e -> later e).
Proof.
  intros cleared later. split; [reflexivity|]. split; [reflexivity|].
  split.
  - intros wait l. unfold bind. cbn [clear_events]. intros H.
    destruct (get_events_cases wait (set_events [] st)) as ((_ & (m & E & M) & _) & _ & _ & O).
    rewrite H in O. destruct O as (-> & _). rewrite E. exact M.
  - intros wait e. unfold bind. cbn [clear_events]. intros H.
    destruct (pull_event_cases wait (set_events [] st)) as (m & M & _ & _ & _ & _ & O).
    rewrite H in O. destruct O as (E & _). cbn [events set_events app] in E.
    rewrite <- E in M. now inversion M.
Qed.

Lemma X18_witness :
  Forall (fun e =>
            event_shaped e /\
            received [Line (js "{'event': 'RESUME'}")] e)
    [JDict [(py "event", JStr (py "RESUME"))]].
Proof.
  refine (proj1 (proj2 (proj2 (X18_clear_events_forgets_the_queue
            (mkQmp [JDict [(py "event", JStr (py "STOP"))]]
               [Line (js "{'event': 'RESUME'}")] Silent true [] [] None))))
            false [JDict [(py "event", JStr (py "RESUME"))]] _).
  vm_compute. reflexivity.
Defined.
